(** * Persian sales chatbot: query understanding and retrieval fusion

    A shallow embedding of the rule-based intent classifier
    ([app/services/intent.py]), the multi-query retriever
    ([app/services/retriever.py]), the cross-encoder reranker
    ([app/services/reranker.py]), the preprocessor
    ([app/services/preprocessor.py]), the cache service
    ([app/services/cache.py]) and the pipeline graph
    ([app/chains/rag_chain.py]), with the properties the specification
    states about them and further properties of the code.

    Conventions.
    - A Python [str] is a Rocq [string] holding its UTF-8 bytes.  Tests
      that only need bytes ([in], [split] on an ASCII separator, a prefix
      test) are written out; operations that consult the Unicode tables
      ([lower], [strip], [isdigit], [int], the [re] module) are fields of
      the class [PyRuntime].
    - A relevance score is a Python [float] that the code only copies and
      compares; it is a rational [Q] here.  The confidence value, on
      which the code does arithmetic, is a binary64 [float].
    - External services (the language model, the vector index, the
      cross-encoder, the answer generator, the cache hash) are fields of
      the class [Services]; a call the source wraps in [try/except]
      returns an [option], [None] standing for a raised exception.
    - The Redis store is a finite map from keys to texts.  Entries do not
      expire in the model: what is proved about a lookup after a write
      holds while the entry lives.  A write with an expiry time that is
      not positive is refused by the server and raises. *)

From Stdlib Require Import ZArith QArith Qabs Qminmax Lia Lqa.
From Stdlib Require Ascii String Uint63.
From Corelib Require Import PrimFloat SpecFloat FloatOps.
From stdpp Require Import gmap strings list sorting.
From stdpp Require Import pretty.

#[local] Set Warnings "-inexact-float,-clear-no-such-hyp".
#[local] Set Warnings "-register-all".
#[local] Open Scope Z_scope.

(* ===================================================================== *)
(** * Python built-ins used by the services *)
(* ===================================================================== *)

Module Py.

(** [x or d] for an optional integer: [None] and [0] are both falsy. *)
Definition or_default (x : option Z) (d : Z) : Z :=
  match x with
  | Some v => if v =? 0 then d else v
  | None => d
  end.

(** [l[:k]]: a negative [k] counts from the end. *)
Definition slice_to {A} (l : list A) (k : Z) : list A :=
  if 0 <=? k then take (Z.to_nat k) l
  else take (length l - Z.to_nat (- k)) l.

(** [enumerate(l, start)]. *)
Fixpoint enumerate_from {A} (start : Z) (l : list A) : list (Z * A) :=
  match l with
  | [] => []
  | x :: l' => (start, x) :: enumerate_from (start + 1) l'
  end.

Definition enumerate {A} (l : list A) : list (Z * A) := enumerate_from 0 l.

(** Truthiness of the optional values that occur in the state and in
    the slots. *)
Definition truthy_str (s : option string) : bool :=
  match s with
  | Some s => negb (String.eqb s "")
  | None => false
  end.

Definition truthy_int (n : option Z) : bool :=
  match n with
  | Some n => negb (n =? 0)
  | None => false
  end.

Definition truthy_list {A} (l : option (list A)) : bool :=
  match l with
  | Some (_ :: _) => true
  | _ => false
  end.

(** [a < b] on scores. *)
Definition Qltb (a b : Q) : bool := negb (Qle_bool b a).

(** ** [max] and [min] *)

(** [max(x :: l, key=f)]: the running best is replaced only by a
    strictly larger key, so the first maximal element is returned. *)
Fixpoint max_by {A} (f : A → Z) (best : A) (l : list A) : A :=
  match l with
  | [] => best
  | y :: l' => max_by f (if f best <? f y then y else best) l'
  end.

(** [max(l)] and [min(l)] on integers; [None] is the [ValueError] of
    an empty argument. *)
Definition max_int (l : list Z) : option Z :=
  match l with
  | [] => None
  | x :: l' => Some (max_by id x l')
  end.

Fixpoint min_from (best : Z) (l : list Z) : Z :=
  match l with
  | [] => best
  | y :: l' => min_from (if y <? best then y else best) l'
  end.

Definition min_int (l : list Z) : option Z :=
  match l with
  | [] => None
  | x :: l' => Some (min_from x l')
  end.

(** ** [sorted(l, key=..., reverse=True)]

    Python's sort is stable, and stays so under [reverse=True]: the
    result is in descending key order and elements with equal keys
    keep their input order.  An element therefore moves right only
    past elements with a strictly larger key. *)
Section Sorted.
Context {A : Type} (key : A → Q).

Fixpoint insert_desc (x : A) (l : list A) : list A :=
  match l with
  | [] => [x]
  | y :: l' => if Qltb (key x) (key y) then y :: insert_desc x l' else x :: l
  end.

Definition sorted_desc (l : list A) : list A := foldr insert_desc [] l.

(** Descending order of the keys. *)
Definition desc (a b : A) : Prop := (key b <= key a)%Q.
End Sorted.

(** ** [dict]: insertion-ordered, an assignment to a present key
    keeps the key's position *)
Section Dict.
Context {K V : Type} `{EqDecision K}.

Fixpoint dict_get (k : K) (d : list (K * V)) : option V :=
  match d with
  | [] => None
  | (k', v) :: d' => if decide (k = k') then Some v else dict_get k d'
  end.

Fixpoint dict_set (k : K) (v : V) (d : list (K * V)) : list (K * V) :=
  match d with
  | [] => [(k, v)]
  | (k', v') :: d' =>
      if decide (k = k') then (k, v) :: d' else (k', v') :: dict_set k v d'
  end.

Definition dict_keys (d : list (K * V)) : list K := d.*1.
Definition dict_values (d : list (K * V)) : list V := d.*2.
End Dict.

(** ** Byte-level string operations *)

(** [s.split(c)] for a one-byte separator. *)
Fixpoint split_char (c : Ascii.ascii) (s : string) : list string :=
  match s with
  | EmptyString => [EmptyString]
  | String a s' =>
      if Ascii.eqb a c then EmptyString :: split_char c s'
      else match split_char c s' with
           | h :: t => String a h :: t
           | [] => [String a EmptyString]
           end
  end.

(** [s.partition(sep)]: the text before and after the first occurrence
    of [sep], if there is one. *)
Fixpoint partition (sep s : string) : option (string * string) :=
  if String.prefix sep s
  then Some (EmptyString, String.substring (String.length sep)
                            (String.length s - String.length sep) s)
  else match s with
       | EmptyString => None
       | String a s' =>
           match partition sep s' with
           | Some (before, after) => Some (String a before, after)
           | None => None
           end
       end.

(** [sep in s]. *)
Definition contains (sep s : string) : bool :=
  if partition sep s is Some _ then true else false.

(** [s.lstrip(chars)], [chars] given as the encodings of its
    characters; every round removes at least one byte, so the length of
    [s] is enough fuel. *)
Fixpoint lstrip_chars (chars : list string) (fuel : nat) (s : string) : string :=
  match fuel with
  | O => s
  | S fuel' =>
      match List.find (λ c, String.prefix c s) chars with
      | Some c =>
          lstrip_chars chars fuel'
            (String.substring (String.length c)
               (String.length s - String.length c) s)
      | None => s
      end
  end.

Definition lstrip (chars : list string) (s : string) : string :=
  lstrip_chars chars (String.length s) s.

(** [s[0]] as a one-character string: the first byte tells how many
    bytes the first character takes. *)
Definition first_char (s : string) : string :=
  match s with
  | EmptyString => EmptyString
  | String a _ =>
      let b := Ascii.N_of_ascii a in
      let width :=
        if (b <? 128)%N then 1%nat
        else if (b <? 224)%N then 2%nat
        else if (b <? 240)%N then 3%nat
        else 4%nat in
      String.substring 0 width s
  end.

Definition NEWLINE : Ascii.ascii := Ascii.ascii_of_nat 10.
Definition SPACE : Ascii.ascii := Ascii.ascii_of_nat 32.

(** [float(n)] for a small non-negative integer. *)
Definition float_of_int (n : Z) : float := PrimFloat.of_uint63 (Uint63.of_Z n).

(** The rational number a finite float denotes. *)
Definition Q_of_float (f : float) : Q :=
  match Prim2SF f with
  | S754_finite negative m e =>
      let v := (inject_Z (Z.pos m) * Qpower 2 e)%Q in
      if negative then (- v)%Q else v
  | _ => 0%Q
  end.

(** [min(a, b)] on floats: the second argument wins only when it is
    strictly smaller. *)
Definition min_float (a b : float) : float :=
  if PrimFloat.ltb b a then b else a.

End Py.


(* ===================================================================== *)
(** * Data model ([app/models/schemas.py]) *)
(* ===================================================================== *)

(** [app/models/schemas.py] is not among the sources: the types below
    carry the fields the services read and write, with the types the
    data-model section of the specification gives them. *)

(** Modelled from the spec: the enumeration [IntentType] of
    [app/models/schemas.py], a closed list of eight intents. *)
Inductive IntentType :=
  | PRICE_CHECK | AVAILABILITY | FEATURE_INQUIRY | COMPARISON
  | SHIPPING | PURCHASE | GREETING | GENERAL.

#[global] Instance IntentType_eq_dec : EqDecision IntentType.
Proof. solve_decision. Defined.

(** Modelled from the spec: the value of the [price_range] slot, the
    dictionary [{"min": ..., "max": ...}]. *)
Record PriceRange := { pr_min : Z; pr_max : Z }.

Module Slots.
(** Modelled from the spec: the model [Slots] of
    [app/models/schemas.py]; every field is optional, absent until
    [extract_slots] finds it. *)
Record t := {
  product_name : option string;
  quantity : option Z;
  color : option string;
  brand : option string;
  price_range : option PriceRange;
  comparison_items : option (list string);
}.
End Slots.

Module ParsedQuery.
(** Modelled from the spec: the model [ParsedQuery] of
    [app/models/schemas.py]. *)
Record t := {
  original_text : string;
  normalized_text : string;
  intent : IntentType;
  slots : Slots.t;
  confidence : float;
}.
End ParsedQuery.

Module Product.
(** Modelled from the spec: the model [Product] of
    [app/models/schemas.py], with the fields the retriever and the
    reranker read. *)
Record t := {
  id : string;
  name : string;
  description : option string;
  brand : option string;
}.
End Product.

Module RetrievedDocument.
(** Modelled from the spec: the model [RetrievedDocument] of
    [app/models/schemas.py]; the rank is absent until it is assigned. *)
Record t := {
  product : Product.t;
  score : Q;
  rank : option Z;
}.

Definition set_score (s : Q) (d : t) : t :=
  {| product := product d; score := s; rank := rank d |}.
Definition set_rank (r : Z) (d : t) : t :=
  {| product := product d; score := score d; rank := Some r |}.
End RetrievedDocument.

(** A hit of the vector index: [{id, score, payload}].  The payload is
    given as the product that [search] builds from it: the points of the
    collection are written by [add_product], from products. *)
Module ScoredPoint.
Record t := {
  id : string;
  score : Q;
  payload : Product.t;
}.
End ScoredPoint.

(** [app/core/config.py]: the settings the services read. *)
Module Settings.
Record t := {
  RETRIEVAL_TOP_K : Z;
  RERANK_TOP_K : Z;
  QUERY_VARIATIONS : Z;
}.

Definition defaults : t :=
  {| RETRIEVAL_TOP_K := 10; RERANK_TOP_K := 3; QUERY_VARIATIONS := 3 |}.
End Settings.

(* ===================================================================== *)
(** * The environment of the services *)
(* ===================================================================== *)

(** The Python run time: Unicode-aware string methods and the [re]
    module.  [str_isdigit] is asked about one-character strings, and
    [int_of_str] about strings of digits.  A match object is the list
    [group(0); group(1); ...], and [re_findall] returns the two groups of
    each match. *)
Class PyRuntime := {
  str_lower : string → string;
  str_strip : string → string;
  str_split : string → list string;
  str_isdigit : string → bool;
  int_of_str : string → Z;
  re_search : string → string → option (list string);
  re_findall : string → string → list (string * string);
  list_of_set : list string → list string;
}.

(** [m.group(i)]. *)
Definition group (m : list string) (i : nat) : string := default "" (m !! i).

(** The collaborators.  [llm_invoke query num] formats the expansion
    prompt and calls the language model; [vector_search query limit
    filter] embeds the variation and queries the index. *)
Class Services := {
  llm_invoke : string → Z → option string;
  vector_search : string → Z → option (list (string * string)) → option (list ScoredPoint.t);
  cross_encoder : string → string → Q;
  generator_generate : string → IntentType → list RetrievedDocument.t → string;
  hazm_normalize : string → string;
  sha256_hex : string → string;
}.

(* ===================================================================== *)
(** * [IntentDetector] ([app/services/intent.py]) *)
(* ===================================================================== *)

Module IntentDetector.
Import Py.

(** [self.intent_patterns]: a dictionary literal, iterated in the order
    it is written. *)
Definition intent_patterns : list (IntentType * list string) :=
  [(PRICE_CHECK,
     ["قیمت";
      "چقدر";
      "چند تومان";
      "چنده";
      "هزینه";
      "چند پول"]);
   (AVAILABILITY,
     ["موجود";
      "در دسترس";
      "دارید";
      "هست";
      "وجود دار";
      "می\s*تونم\s+بخرم"]);
   (FEATURE_INQUIRY,
     ["مشخصات";
      "ویژگی";
      "دوربین";
      "باتری";
      "حافظه";
      "رم";
      "مگاپیکسل";
      "اینچ";
      "نسخه";
      "مدل"]);
   (COMPARISON,
     ["فرق";
      "تفاوت";
      "مقایسه";
      "بهتر";
      "یا";
      "کدوم";
      "کدام"]);
   (SHIPPING,
     ["ارسال";
      "تحویل";
      "چند روز";
      "زمان";
      "پست";
      "می\s*رسه";
      "میرسه"]);
   (PURCHASE,
     ["می\s*خوام\s+بخرم";
      "خرید";
      "سفارش";
      "بخرم"]);
   (GREETING,
     ["سلام";
      "درود";
      "صبح بخیر";
      "عصر بخیر";
      "ممنون";
      "تشکر"])].

(** [self.slot_patterns]. *)
Definition slot_patterns : list (string * string) :=
  [("quantity", "(\d+)\s*(عدد|تا)");
   ("price", "(\d+)\s*(تومان|میلیون|هزار)");
   ("color", "(سفید|سیاه|مشکی|قرمز|آبی|سبز|طلایی|نقره\s*ای|صورتی)");
   ("brand", "(سامسونگ|اپل|شیائومی|ال\s*جی|ایسوس|نوکیا|هواوی)")].

Definition slot_pattern (key : string) : string :=
  default "" (dict_get key slot_patterns).

(** The unit words and the connector tokens tested by [extract_slots]. *)
Definition MILLION : string := "میلیون".
Definition THOUSAND : string := "هزار".
Definition TOMAN : string := "تومان".
Definition OR_TOKEN : string := "یا".
Definition AND_TOKEN : string := "و".

(** The order in which [detect_intent] visits the intents, and the
    patterns of an intent ([GENERAL] has none). *)
Definition intent_order : list IntentType := dict_keys intent_patterns.

Definition patterns_of (intent : IntentType) : list string :=
  default [] (dict_get intent intent_patterns).

Section WithRuntime.
Context `{PyRuntime}.

(** The score the specification gives an intent: the number of its
    patterns found in the text. *)
Definition match_count (text_lower : string) (intent : IntentType) : Z :=
  Z.of_nat (length (filter (λ pattern, is_Some (re_search pattern text_lower))
                           (patterns_of intent))).

(** The inner loop of [detect_intent]: one point per pattern found
    in the text. *)
Definition pattern_score (text_lower : string) (patterns : list string) : Z :=
  foldl (λ score pattern,
           if re_search pattern text_lower is Some _ then score + 1 else score)
        0 patterns.

(** The dictionary [scores] after the outer loop. *)
Definition intent_scores (text_lower : string) : list (IntentType * Z) :=
  foldl (λ scores '(intent, patterns),
           dict_set intent (pattern_score text_lower patterns) scores)
        [] intent_patterns.

Definition detect_intent (text : string) : IntentType :=
  let text_lower := str_lower text in
  let scores := intent_scores text_lower in
  match max_int (dict_values scores), dict_keys scores with
  | Some m, k :: ks =>
      if 0 <? m then max_by (λ i, default 0 (dict_get i scores)) k ks
      else GENERAL
  | _, _ => GENERAL
  end.

(** The price of one match of the price pattern: the number times
    the multiplier of its unit. *)
Definition price_of_match (m : string * string) : Z :=
  let price := int_of_str m.1 in
  let unit_ := m.2 in
  if contains MILLION unit_ then price * 1000000
  else if contains THOUSAND unit_ then price * 1000
  else price.

(** The range stored for the list [prices]; [None] leaves the slot
    as it was. *)
Definition price_range_of (prices : list Z) : option PriceRange :=
  match prices with
  | [] => None
  | [p] => Some {| pr_min := 0; pr_max := p |}
  | _ =>
      match min_int prices, max_int prices with
      | Some lo, Some hi => Some {| pr_min := lo; pr_max := hi |}
      | _, _ => None
      end
  end.

(** The loop over [enumerate(tokens)] collecting the neighbours of
    each connector that is neither the first nor the last token. *)
Fixpoint comparison_neighbours (prev : option string) (tokens : list string)
  : list string :=
  match tokens with
  | token :: ((next :: _) as rest) =>
      (if bool_decide (token = OR_TOKEN ∨ token = AND_TOKEN) then
         match prev with
         | Some before => [before; next]
         | None => []
         end
       else []) ++ comparison_neighbours (Some token) rest
  | _ => []
  end.

Definition extract_slots (text : string) : Slots.t :=
  let quantity :=
    match re_search (slot_pattern "quantity") text with
    | Some m => Some (int_of_str (group m 1))
    | None => None
    end in
  let color :=
    match re_search (slot_pattern "color") text with
    | Some m => Some (group m 1)
    | None => None
    end in
  let brand :=
    match re_search (slot_pattern "brand") text with
    | Some m => Some (group m 1)
    | None => None
    end in
  let price_matches := re_findall (slot_pattern "price") text in
  let price_range := price_range_of (price_of_match <$> price_matches) in
  let comparison_items :=
    if contains OR_TOKEN text || contains AND_TOKEN text then
      match comparison_neighbours None (str_split text) with
      | [] => None
      | items => Some (list_of_set items)
      end
    else None in
  {| Slots.product_name := None;
     Slots.quantity := quantity;
     Slots.color := color;
     Slots.brand := brand;
     Slots.price_range := price_range;
     Slots.comparison_items := comparison_items |}.
End WithRuntime.

(** The number of slot fields Python treats as true. *)
Definition slot_count (slots : Slots.t) : Z :=
  (if truthy_str (Slots.product_name slots) then 1 else 0)
  + (if truthy_int (Slots.quantity slots) then 1 else 0)
  + (if truthy_str (Slots.color slots) then 1 else 0)
  + (if truthy_str (Slots.brand slots) then 1 else 0)
  + (if Slots.price_range slots is Some _ then 1 else 0)
  + (if truthy_list (Slots.comparison_items slots) then 1 else 0).

Definition calculate_confidence (intent : IntentType) (slots : Slots.t) : float :=
  let confidence := 0.5%float in
  let confidence :=
    if decide (intent ≠ GENERAL) then (confidence + 0.2)%float else confidence in
  let confidence :=
    (confidence + min_float (float_of_int (slot_count slots) * 0.1) 0.3)%float in
  min_float confidence 1.0.

(** The number of slot fields that hold something, as the data model of
    the specification counts them: a text or a list that is present and
    not empty, a quantity or a price range that is present. *)
Definition nonempty_fields (slots : Slots.t) : Z :=
  (if truthy_str (Slots.product_name slots) then 1 else 0)
  + (if Slots.quantity slots is Some _ then 1 else 0)
  + (if truthy_str (Slots.color slots) then 1 else 0)
  + (if truthy_str (Slots.brand slots) then 1 else 0)
  + (if Slots.price_range slots is Some _ then 1 else 0)
  + (if truthy_list (Slots.comparison_items slots) then 1 else 0).

(** The value as a function of the two things it depends on. *)
Definition confidence_at (specific : bool) (filled : Z) : float :=
  min_float ((if specific then 0.5 + 0.2 else 0.5)
             + min_float (float_of_int filled * 0.1) 0.3) 1.0.

(** The confidence the specification describes, in exact arithmetic:
    0.5, plus 0.2 unless the intent is [GENERAL], plus 0.1 per filled
    slot up to 0.3, and at most 1. *)
Definition spec_confidence (intent : IntentType) (filled : Z) : Q :=
  Qmin ((1 # 2) + (if decide (intent ≠ GENERAL) then 2 # 10 else 0)
        + Qmin (inject_Z filled * (1 # 10)) (3 # 10))
       1.

Definition parse_query `{PyRuntime} (normalized_text original_text : string)
  : ParsedQuery.t :=
  let intent := detect_intent normalized_text in
  let slots := extract_slots normalized_text in
  let confidence := calculate_confidence intent slots in
  {| ParsedQuery.original_text := original_text;
     ParsedQuery.normalized_text := normalized_text;
     ParsedQuery.intent := intent;
     ParsedQuery.slots := slots;
     ParsedQuery.confidence := confidence |}.

End IntentDetector.

(* ===================================================================== *)
(** * [MultiQueryRetriever] ([app/services/retriever.py]) *)
(* ===================================================================== *)

Module MultiQueryRetriever.
Import Py.

Definition BULLET : string := "•".

Section WithEnvironment.
Context `{PyRuntime} `{Services} (settings : Settings.t).

(** The body of the loop over the lines of the model's answer: the
    variation a line contributes, if any. *)
Definition parse_line (query line : string) : option string :=
  let line := str_strip line in
  if negb (String.eqb line "")
     && (str_isdigit (first_char line)
         || bool_decide (first_char line ∈ ["-"; BULLET; "*"]))
  then
    let variation :=
      match partition "." line with
      | Some (_, rest) => str_strip rest
      | None =>
          match partition ")" line with
          | Some (_, rest) => str_strip rest
          | None => lstrip ["-"; BULLET; "*"; " "] (str_strip line)
          end
      end in
    if negb (String.eqb variation "") && negb (String.eqb variation query)
    then Some variation else None
  else None.

Definition generate_query_variations (query : string) (num_variations : option Z)
  : list string :=
  let num_variations := or_default num_variations (Settings.QUERY_VARIATIONS settings) in
  match llm_invoke query (num_variations - 1) with
  | Some content =>
      let lines := split_char NEWLINE (str_strip content) in
      let variations :=
        foldl (λ variations line,
                 match parse_line query line with
                 | Some variation => variations ++ [variation]
                 | None => variations
                 end)
              [query] lines in
      slice_to variations num_variations
  | None => [query]
  end.

(** The body of the loop over the hits of one variation. *)
Definition merge_result (all_results : list (string * RetrievedDocument.t))
    (result : ScoredPoint.t) : list (string * RetrievedDocument.t) :=
  let product_id := ScoredPoint.id result in
  let fresh_doc :=
    {| RetrievedDocument.product := ScoredPoint.payload result;
       RetrievedDocument.score := ScoredPoint.score result;
       RetrievedDocument.rank := None |} in
  match dict_get product_id all_results with
  | None => dict_set product_id fresh_doc all_results
  | Some stored =>
      if Qltb (RetrievedDocument.score stored) (ScoredPoint.score result)
      then dict_set product_id fresh_doc all_results
      else all_results
  end.

(** The dictionary [all_results] after the loop over the variations;
    a variation whose search raises is skipped. *)
Definition fuse (query_variations : list string) (top_k : Z)
    (query_filter : option (list (string * string)))
  : list (string * RetrievedDocument.t) :=
  foldl (λ all_results query,
           match vector_search query top_k query_filter with
           | Some results => foldl merge_result all_results results
           | None => all_results
           end)
        [] query_variations.

Definition search (query_variations : list string) (top_k : option Z)
    (filters : option (list (string * string))) : list RetrievedDocument.t :=
  let top_k := or_default top_k (Settings.RETRIEVAL_TOP_K settings) in
  let query_filter :=
    match filters with
    | Some (_ :: _ as conditions) => Some conditions
    | _ => None
    end in
  let all_results := fuse query_variations top_k query_filter in
  let sorted_results :=
    slice_to (sorted_desc RetrievedDocument.score (dict_values all_results)) top_k in
  (λ '(i, doc), RetrievedDocument.set_rank (i + 1) doc) <$> enumerate sorted_results.

(** The limit and the filter [search] passes to the index. *)
Definition effective_top_k (top_k : option Z) : Z :=
  or_default top_k (Settings.RETRIEVAL_TOP_K settings).

Definition query_filter_of (filters : option (list (string * string)))
  : option (list (string * string)) :=
  match filters with
  | Some (_ :: _ as conditions) => Some conditions
  | _ => None
  end.

(** The per-variation result lists of one call of [search], and all
    their hits in the order the loops visit them. *)
Definition variation_results (query_variations : list string) (top_k : option Z)
    (filters : option (list (string * string))) : list (list ScoredPoint.t) :=
  omap (λ query, vector_search query (effective_top_k top_k) (query_filter_of filters))
       query_variations.

Definition observed_hits (query_variations : list string) (top_k : option Z)
    (filters : option (list (string * string))) : list ScoredPoint.t :=
  concat (variation_results query_variations top_k filters).

Definition retrieve (query : string) (intent : option IntentType)
    (slots : option Slots.t) : list RetrievedDocument.t :=
  let variations := generate_query_variations query None in
  let filters :=
    match slots with
    | Some slots =>
        (if truthy_str (Slots.brand slots)
         then [("brand", default "" (Slots.brand slots))] else [])
        ++ (if truthy_str (Slots.color slots)
            then [("color", default "" (Slots.color slots))] else [])
    | None => []
    end in
  search variations None (if filters is [] then None else Some filters).
End WithEnvironment.

(** [add_product] writes a point whose id is the product's id and
    whose payload is the product. *)
Definition add_product (product : Product.t) : string * Product.t :=
  (Product.id product, product).

(** What [add_product] establishes for every point of the collection. *)
Definition point_of_catalog (r : ScoredPoint.t) : Prop :=
  ScoredPoint.id r = Product.id (ScoredPoint.payload r).

(** The product id of a fused entry. *)
Definition doc_id (doc : RetrievedDocument.t) : string :=
  Product.id (RetrievedDocument.product doc).

(** What the running dictionary knows after the hits [seen]: keys are
    distinct, every entry copies one of the hits, and every hit is
    dominated by the entry of its id. *)
Record fused (seen : list ScoredPoint.t)
    (d : list (string * RetrievedDocument.t)) : Prop := {
  fused_keys : NoDup (dict_keys d);
  fused_from : ∀ k doc, (k, doc) ∈ d →
    ∃ r, r ∈ seen ∧ ScoredPoint.id r = k
         ∧ ScoredPoint.score r = RetrievedDocument.score doc
         ∧ ScoredPoint.payload r = RetrievedDocument.product doc;
  fused_max : ∀ r, r ∈ seen →
    ∃ doc, (ScoredPoint.id r, doc) ∈ d
           ∧ (ScoredPoint.score r <= RetrievedDocument.score doc)%Q;
}.

End MultiQueryRetriever.

(* ===================================================================== *)
(** * [RerankerService] ([app/services/reranker.py]) *)
(* ===================================================================== *)

(** Documents are mutable objects shared between the caller's list and
    the list the reranker returns: a list of documents is a list of
    references into a store. *)
Abbreviation loc := nat (only parsing).
Abbreviation store := (gmap nat RetrievedDocument.t) (only parsing).

Module RerankerService.
Import Py.

Definition doc_text (p : Product.t) : string :=
  let doc_text := Product.name p in
  let doc_text :=
    if truthy_str (Product.description p)
    then doc_text +:+ " " +:+ default "" (Product.description p) else doc_text in
  if truthy_str (Product.brand p)
  then doc_text +:+ " " +:+ default "" (Product.brand p) else doc_text.

(** [doc.score] and the text of [doc] for a reference [doc]. *)
Definition score_at (h : store) (doc : loc) : Q :=
  if h !! doc is Some d then RetrievedDocument.score d else 0%Q.

Definition text_at (h : store) (doc : loc) : string :=
  if h !! doc is Some d then doc_text (RetrievedDocument.product d) else "".

(** The loop [for i, doc in enumerate(documents): doc.score = scores[i]]
    and the loop [for i, doc in enumerate(reranked): doc.rank = i + 1]. *)
Definition update_scores (documents : list loc) (scores : list Q) (h : store) : store :=
  foldl (λ h '(doc, s), alter (RetrievedDocument.set_score s) doc h)
        h (zip documents scores).

Definition update_ranks (reranked : list loc) (h : store) : store :=
  foldl (λ h '(i, doc), alter (RetrievedDocument.set_rank (i + 1)) doc h)
        h (enumerate reranked).

Section WithEnvironment.
Context `{Services} (settings : Settings.t).

(** [self.model.predict(pairs)]. *)
Definition predict (pairs : list (string * string)) : list Q :=
  (λ '(query, doc_text), cross_encoder query doc_text) <$> pairs.

(** The store once [rerank] has written the new scores. *)
Definition scored (query : string) (documents : list loc) (h : store) : store :=
  update_scores documents (predict ((λ doc, (query, text_at h doc)) <$> documents)) h.

Definition rerank (query : string) (documents : list loc) (top_k : option Z)
    (h : store) : list loc * store :=
  match documents with
  | [] => ([], h)
  | _ =>
      let top_k := or_default top_k (Settings.RERANK_TOP_K settings) in
      let pairs := (λ doc, (query, text_at h doc)) <$> documents in
      let scores := predict pairs in
      let h := update_scores documents scores h in
      let reranked := sorted_desc (score_at h) documents in
      let reranked := slice_to reranked top_k in
      let h := update_ranks reranked h in
      (reranked, h)
  end.
End WithEnvironment.

(** The rank the last loop of [rerank] leaves on [doc]: that of its last
    position in the enumerated list, if it occurs there. *)
Fixpoint last_rank (doc : loc) (ranked : list (Z * loc)) : option Z :=
  match ranked with
  | [] => None
  | (i, doc') :: ranked' =>
      match last_rank doc ranked' with
      | Some r => Some r
      | None => if decide (doc = doc') then Some (i + 1) else None
      end
  end.

End RerankerService.

(* ===================================================================== *)
(** * [PersianPreprocessor] and [CacheService]
      ([app/services/preprocessor.py], [app/services/cache.py]) *)
(* ===================================================================== *)

Module PersianPreprocessor.
Section WithEnvironment.
Context `{PyRuntime} `{Services}.

Definition normalize (text : string) : string :=
  if String.eqb text "" then ""
  else String.concat " " (str_split (hazm_normalize text)).

Definition preprocess (text : string) : string := normalize text.

End WithEnvironment.
End PersianPreprocessor.

(** The values the cache serialises: what [json.loads] can return, with
    [JNull] for Python's [None]. *)
Inductive json :=
  | JNull
  | JBool (b : bool)
  | JInt (n : Z)
  | JFloat (x : float)
  | JStr (s : string)
  | JList (items : list json)
  | JDict (members : list (string * json)).

(** Truthiness of such a value. *)
Definition json_truthy (v : json) : bool :=
  match v with
  | JNull => false
  | JBool b => b
  | JInt n => negb (n =? 0)
  | JFloat x => negb (PrimFloat.eqb x 0)
  | JStr s => negb (String.eqb s "")
  | JList items => if items is [] then false else true
  | JDict members => if members is [] then false else true
  end.

(** The [json] module: [json_loads] returns [None] where [json.loads]
    raises. *)
Class JsonCodec := {
  json_dumps : json → string;
  json_loads : string → option json;
}.

(** [app/core/config.py]: the expiry times of the four kinds of cache
    entries, in seconds. *)
Module CacheTTL.
Record t := {
  CACHE_RESPONSE_TTL : Z;
  CACHE_EMBEDDING_TTL : Z;
  CACHE_PRODUCT_TTL : Z;
  CACHE_SESSION_TTL : Z;
}.

Definition defaults : t :=
  {| CACHE_RESPONSE_TTL := 3600; CACHE_EMBEDDING_TTL := 86400;
     CACHE_PRODUCT_TTL := 3600; CACHE_SESSION_TTL := 1800 |}.
End CacheTTL.

(** The Redis store is a finite map from keys to strings; expiry is not
    modelled.  A function that can raise returns an [option], [None]
    standing for the exception; a function that returns [None] in Python
    returns [JNull]. *)
Module CacheService.

(** [redis.setex(key, ttl, value)]: the server refuses an expiry time
    that is not positive, and the client raises. *)
Definition setex (redis : gmap string string) (key : string) (ttl : Z)
    (value : string) : option (gmap string string) :=
  if 0 <? ttl then Some (<[key := value]> redis) else None.

Section WithStore.
Context `{Services} `{JsonCodec} (ttls : CacheTTL.t).

Definition hash_query (text : string) : string := sha256_hex text.

Definition get_cached_response (redis : gmap string string) (query : string)
  : option string :=
  let key := "response:" +:+ hash_query query in
  redis !! key.

Definition set_cached_response (redis : gmap string string) (query response : string)
    (ttl : option Z) : option (gmap string string) :=
  let key := "response:" +:+ hash_query query in
  let ttl := Py.or_default ttl (CacheTTL.CACHE_RESPONSE_TTL ttls) in
  setex redis key ttl response.

Definition get_cached_embedding (redis : gmap string string) (query : string)
  : option json :=
  let key := "embedding:" +:+ hash_query query in
  let cached := redis !! key in
  if Py.truthy_str cached then json_loads (default "" cached) else Some JNull.

Definition set_cached_embedding (redis : gmap string string) (query : string)
    (embedding : json) (ttl : option Z) : option (gmap string string) :=
  let key := "embedding:" +:+ hash_query query in
  let ttl := Py.or_default ttl (CacheTTL.CACHE_EMBEDDING_TTL ttls) in
  setex redis key ttl (json_dumps embedding).

Definition get_product (redis : gmap string string) (product_id : string)
  : option json :=
  let key := "product:" +:+ product_id in
  let cached := redis !! key in
  if Py.truthy_str cached then json_loads (default "" cached) else Some JNull.

Definition set_product (redis : gmap string string) (product_id : string)
    (product_data : json) (ttl : option Z) : option (gmap string string) :=
  let key := "product:" +:+ product_id in
  let ttl := Py.or_default ttl (CacheTTL.CACHE_PRODUCT_TTL ttls) in
  setex redis key ttl (json_dumps product_data).

Definition get_session (redis : gmap string string) (user_id : string)
  : option json :=
  let key := "session:" +:+ user_id in
  let cached := redis !! key in
  if Py.truthy_str cached then json_loads (default "" cached) else Some JNull.

Definition set_session (redis : gmap string string) (user_id : string)
    (session_data : json) (ttl : option Z) : option (gmap string string) :=
  let key := "session:" +:+ user_id in
  let ttl := Py.or_default ttl (CacheTTL.CACHE_SESSION_TTL ttls) in
  setex redis key ttl (json_dumps session_data).

(** [session["messages"].append(message)]: the session has to be a
    dictionary with a list under ["messages"]; anything else raises. *)
Definition append_message (session message : json) : option json :=
  match session with
  | JDict members =>
      match Py.dict_get "messages" members with
      | Some (JList messages) =>
          Some (JDict (Py.dict_set "messages" (JList (messages ++ [message])) members))
      | _ => None
      end
  | _ => None
  end.

Definition append_to_session (redis : gmap string string) (user_id : string)
    (message : json) (ttl : option Z) : option (gmap string string) :=
  stored ← get_session redis user_id;
  let session :=
    if json_truthy stored then stored else JDict [("messages", JList [])] in
  session ← append_message session message;
  set_session redis user_id session ttl.

Definition clear_session (redis : gmap string string) (user_id : string)
  : gmap string string :=
  let key := "session:" +:+ user_id in
  delete key redis.

Definition delete_cache (redis : gmap string string) (key : string)
  : gmap string string :=
  delete key redis.

Definition clear_all (redis : gmap string string) : gmap string string := ∅.

End WithStore.
End CacheService.

(* ===================================================================== *)
(** * [RAGPipeline] ([app/chains/rag_chain.py]) *)
(* ===================================================================== *)

(** The state dictionary threaded through the graph.  [run] always sets
    [query], [user_id], [session_id] and [from_cache]; the other keys
    are absent until a node writes them. *)
Module RAGState.
Record t := {
  query : string;
  user_id : string;
  session_id : option string;
  from_cache : bool;
  final_response : option string;
  normalized_query : option string;
  intent : option IntentType;
  slots : option Slots.t;
  retrieved_docs : option (list loc);
  reranked_docs : option (list loc);
}.

Definition initial (query user_id : string) (session_id : option string) : t :=
  {| query := query; user_id := user_id; session_id := session_id;
     from_cache := false; final_response := None; normalized_query := None;
     intent := None; slots := None; retrieved_docs := None;
     reranked_docs := None |}.
End RAGState.

(** What the services act on: the response cache and the store of
    document objects, with the next free reference. *)
Module World.
Record t := {
  cache : gmap string string;
  objects : store;
  next_loc : loc;
}.
End World.

Module RAGPipeline.
Import Py.

Inductive Node :=
  | n_check_cache | n_preprocess | n_detect_intent | n_retrieve
  | n_rerank | n_generate | n_cache_response.

#[global] Instance Node_eq_dec : EqDecision Node.
Proof. solve_decision. Defined.

Inductive Target := to (n : Node) | END.

(** An edge of the graph: a fixed target, or a router function and the
    mapping from its answers to targets. *)
Inductive Edge :=
  | Direct (target : Target)
  | Conditional (router : RAGState.t → string) (mapping : list (string * Target)).

Inductive Outcome :=
  | Finished (trace : list Node) (w : World.t) (state : RAGState.t)
  | Raised (trace : list Node)
  | OutOfFuel.

Section WithEnvironment.
Context `{PyRuntime} `{Services} (settings : Settings.t) (ttls : CacheTTL.t).

(** The documents the retriever returns are new objects. *)
Fixpoint allocate (docs : list RetrievedDocument.t) (w : World.t)
  : list loc * World.t :=
  match docs with
  | [] => ([], w)
  | d :: docs' =>
      let l := World.next_loc w in
      let w := {| World.cache := World.cache w;
                  World.objects := <[l := d]> (World.objects w);
                  World.next_loc := S l |} in
      let '(ls, w) := allocate docs' w in
      (l :: ls, w)
  end.

(** ** The nodes.  [None] is a raised exception: the [KeyError] of a
    key that is not in the state, or the error of a refused cache
    write. *)

Definition check_cache (w : World.t) (state : RAGState.t)
  : option (World.t * RAGState.t) :=
  let query := RAGState.query state in
  let cached_response := CacheService.get_cached_response (World.cache w) query in
  if truthy_str cached_response then
    Some (w, {| RAGState.query := RAGState.query state;
                RAGState.user_id := RAGState.user_id state;
                RAGState.session_id := RAGState.session_id state;
                RAGState.from_cache := true;
                RAGState.final_response := cached_response;
                RAGState.normalized_query := RAGState.normalized_query state;
                RAGState.intent := RAGState.intent state;
                RAGState.slots := RAGState.slots state;
                RAGState.retrieved_docs := RAGState.retrieved_docs state;
                RAGState.reranked_docs := RAGState.reranked_docs state |})
  else Some (w, state).

Definition should_use_cache (state : RAGState.t) : string :=
  if RAGState.from_cache state then "use_cache" else "continue".

Definition preprocess (w : World.t) (state : RAGState.t)
  : option (World.t * RAGState.t) :=
  let query := RAGState.query state in
  let normalized := PersianPreprocessor.preprocess query in
  Some (w, {| RAGState.query := RAGState.query state;
              RAGState.user_id := RAGState.user_id state;
              RAGState.session_id := RAGState.session_id state;
              RAGState.from_cache := RAGState.from_cache state;
              RAGState.final_response := RAGState.final_response state;
              RAGState.normalized_query := Some normalized;
              RAGState.intent := RAGState.intent state;
              RAGState.slots := RAGState.slots state;
              RAGState.retrieved_docs := RAGState.retrieved_docs state;
              RAGState.reranked_docs := RAGState.reranked_docs state |}).

Definition detect_intent (w : World.t) (state : RAGState.t)
  : option (World.t * RAGState.t) :=
  let original_query := RAGState.query state in
  normalized_query ← RAGState.normalized_query state;
  let parsed := IntentDetector.parse_query normalized_query original_query in
  Some (w, {| RAGState.query := RAGState.query state;
              RAGState.user_id := RAGState.user_id state;
              RAGState.session_id := RAGState.session_id state;
              RAGState.from_cache := RAGState.from_cache state;
              RAGState.final_response := RAGState.final_response state;
              RAGState.normalized_query := RAGState.normalized_query state;
              RAGState.intent := Some (ParsedQuery.intent parsed);
              RAGState.slots := Some (ParsedQuery.slots parsed);
              RAGState.retrieved_docs := RAGState.retrieved_docs state;
              RAGState.reranked_docs := RAGState.reranked_docs state |}).

Definition should_retrieve (state : RAGState.t) : string :=
  let intent := RAGState.intent state in
  if decide (intent = Some GREETING) then "skip_retrieval" else "retrieve".

Definition retrieve (w : World.t) (state : RAGState.t)
  : option (World.t * RAGState.t) :=
  query ← RAGState.normalized_query state;
  let intent := RAGState.intent state in
  let slots := RAGState.slots state in
  let '(retrieved_docs, w) :=
    allocate (MultiQueryRetriever.retrieve settings query intent slots) w in
  Some (w, {| RAGState.query := RAGState.query state;
              RAGState.user_id := RAGState.user_id state;
              RAGState.session_id := RAGState.session_id state;
              RAGState.from_cache := RAGState.from_cache state;
              RAGState.final_response := RAGState.final_response state;
              RAGState.normalized_query := RAGState.normalized_query state;
              RAGState.intent := RAGState.intent state;
              RAGState.slots := RAGState.slots state;
              RAGState.retrieved_docs := Some retrieved_docs;
              RAGState.reranked_docs := RAGState.reranked_docs state |}).

Definition rerank (w : World.t) (state : RAGState.t)
  : option (World.t * RAGState.t) :=
  query ← RAGState.normalized_query state;
  let retrieved_docs := default [] (RAGState.retrieved_docs state) in
  let '(reranked_docs, objects) :=
    match retrieved_docs with
    | [] => ([], World.objects w)
    | _ => RerankerService.rerank settings query retrieved_docs None (World.objects w)
    end in
  Some ({| World.cache := World.cache w;
           World.objects := objects;
           World.next_loc := World.next_loc w |},
        {| RAGState.query := RAGState.query state;
           RAGState.user_id := RAGState.user_id state;
           RAGState.session_id := RAGState.session_id state;
           RAGState.from_cache := RAGState.from_cache state;
           RAGState.final_response := RAGState.final_response state;
           RAGState.normalized_query := RAGState.normalized_query state;
           RAGState.intent := RAGState.intent state;
           RAGState.slots := RAGState.slots state;
           RAGState.retrieved_docs := RAGState.retrieved_docs state;
           RAGState.reranked_docs := Some reranked_docs |}).

Definition generate (w : World.t) (state : RAGState.t)
  : option (World.t * RAGState.t) :=
  let query := RAGState.query state in
  let intent := default GENERAL (RAGState.intent state) in
  let reranked_docs := default [] (RAGState.reranked_docs state) in
  let response :=
    generator_generate query intent
      (omap (λ doc, World.objects w !! doc) reranked_docs) in
  Some (w, {| RAGState.query := RAGState.query state;
              RAGState.user_id := RAGState.user_id state;
              RAGState.session_id := RAGState.session_id state;
              RAGState.from_cache := RAGState.from_cache state;
              RAGState.final_response := Some response;
              RAGState.normalized_query := RAGState.normalized_query state;
              RAGState.intent := RAGState.intent state;
              RAGState.slots := RAGState.slots state;
              RAGState.retrieved_docs := RAGState.retrieved_docs state;
              RAGState.reranked_docs := RAGState.reranked_docs state |}).

Definition cache_response (w : World.t) (state : RAGState.t)
  : option (World.t * RAGState.t) :=
  let query := RAGState.query state in
  response ← RAGState.final_response state;
  cache ← CacheService.set_cached_response ttls (World.cache w) query response None;
  Some ({| World.cache := cache;
           World.objects := World.objects w;
           World.next_loc := World.next_loc w |},
        state).

(** ** The graph of [_build_graph] *)

Definition node_fn (n : Node) : World.t → RAGState.t → option (World.t * RAGState.t) :=
  match n with
  | n_check_cache => check_cache
  | n_preprocess => preprocess
  | n_detect_intent => detect_intent
  | n_retrieve => retrieve
  | n_rerank => rerank
  | n_generate => generate
  | n_cache_response => cache_response
  end.

Definition entry_point : Node := n_check_cache.

Definition edges (n : Node) : Edge :=
  match n with
  | n_check_cache =>
      Conditional should_use_cache
        [("use_cache", END); ("continue", to n_preprocess)]
  | n_preprocess => Direct (to n_detect_intent)
  | n_detect_intent =>
      Conditional should_retrieve
        [("retrieve", to n_retrieve); ("skip_retrieval", to n_generate)]
  | n_retrieve => Direct (to n_rerank)
  | n_rerank => Direct (to n_generate)
  | n_generate => Direct (to n_cache_response)
  | n_cache_response => Direct END
  end.

(** The target the graph selects after node [n] has returned
    [state]. *)
Definition route (n : Node) (state : RAGState.t) : option Target :=
  match edges n with
  | Direct target => Some target
  | Conditional router mapping => dict_get (router state) mapping
  end.

(** One step of the compiled graph: run the pending node, then
    follow its edge. *)
Definition step (n : Node) (w : World.t) (state : RAGState.t)
  : option (Target * World.t * RAGState.t) :=
  '(w, state) ← node_fn n w state;
  target ← route n state;
  Some (target, w, state).

Fixpoint exec (fuel : nat) (pending : Target) (trace : list Node)
    (w : World.t) (state : RAGState.t) : Outcome :=
  match pending with
  | END => Finished trace w state
  | to n =>
      match fuel with
      | O => OutOfFuel
      | S fuel =>
          match step n w state with
          | Some (target, w, state) => exec fuel target (trace ++ [n]) w state
          | None => Raised (trace ++ [n])
          end
      end
  end.

(** [graph.ainvoke(initial_state)]: the graph has seven nodes and no
    cycle, so seven steps are enough. *)
Definition run (query user_id : string) (session_id : option string)
    (w : World.t) : Outcome :=
  exec 7 (to entry_point) [] w (RAGState.initial query user_id session_id).

(** The machine as a transition relation on configurations. *)
Definition Config : Type := Target * World.t * RAGState.t.

Inductive steps_to : Config → Config → Prop :=
  | Step n w state c : step n w state = Some c → steps_to (to n, w, state) c.

Definition initial_config (query user_id : string) (session_id : option string)
    (w : World.t) : Config :=
  (to entry_point, w, RAGState.initial query user_id session_id).
End WithEnvironment.

End RAGPipeline.

(* ===================================================================== *)
(** * A small environment to run the definitions on *)
(* ===================================================================== *)

(** A run time for texts whose digits and white space are ASCII, with a
    matcher for patterns that are plain words, and a catalogue of three
    phones behind canned services. *)
Module Example.
Import Py.

Fixpoint lstrip_space (s : string) : string :=
  match s with
  | String a s' => if Ascii.is_space a then lstrip_space s' else s
  | EmptyString => EmptyString
  end.

Definition strip_space (s : string) : string :=
  String.rev (lstrip_space (String.rev (lstrip_space s))).

Definition is_digit (s : string) : bool :=
  match s with
  | String a EmptyString => if Ascii.is_nat a is Some _ then true else false
  | _ => false
  end.

Fixpoint decimal (acc : Z) (s : string) : Z :=
  match s with
  | String a s' =>
      match Ascii.is_nat a with
      | Some n => decimal (10 * acc + Z.of_nat n) s'
      | None => acc
      end
  | EmptyString => acc
  end.

(** The matches of a number, optional blanks and one of [units]:
    [digits] holds the digits read so far, [blanks] tells whether a
    blank has followed them. *)
Fixpoint number_unit (units : list string) (digits : string) (blanks : bool)
    (s : string) : list (string * string) :=
  let here :=
    if String.eqb digits "" then None
    else List.find (λ u, String.prefix u s) units in
  match here with
  | Some u =>
      (String.rev digits, u)
      :: match s with
         | String _ s' => number_unit units "" false s'
         | EmptyString => []
         end
  | None =>
      match s with
      | String a s' =>
          if Ascii.is_nat a is Some _ then
            number_unit units (if blanks then String a "" else String a digits) false s'
          else if Ascii.is_space a then number_unit units digits true s'
          else number_unit units "" false s'
      | EmptyString => []
      end
  end.

(** The words of a pattern ["(a|b|c)"]. *)
Definition LPAREN : Ascii.ascii := Ascii.ascii_of_nat 40.
Definition BAR : Ascii.ascii := Ascii.ascii_of_nat 124.

Definition alternatives (pattern : string) : option (list string) :=
  match pattern with
  | String a rest =>
      if Ascii.eqb a LPAREN then
        match partition ")" rest with
        | Some (inner, EmptyString) => Some (split_char BAR inner)
        | _ => None
        end
      else None
  | EmptyString => None
  end.

(** The units of a pattern ["(\d+)\s*(a|b|c)"]. *)
Definition NUMBER : string := "(\d+)\s*".

Definition units_of (pattern : string) : option (list string) :=
  if String.prefix NUMBER pattern
  then alternatives (String.substring (String.length NUMBER)
                       (String.length pattern - String.length NUMBER) pattern)
  else None.

(** The leftmost occurrence of one of [words]. *)
Fixpoint first_word (words : list string) (s : string) : option string :=
  match List.find (λ w, String.prefix w s) words with
  | Some w => Some w
  | None =>
      match s with
      | String _ s' => first_word words s'
      | EmptyString => None
      end
  end.

Definition search (pattern text : string) : option (list string) :=
  match units_of pattern with
  | Some units =>
      match number_unit units "" false text with
      | (number, unit_) :: _ => Some [number +:+ unit_; number; unit_]
      | [] => None
      end
  | None =>
      match alternatives pattern with
      | Some words => (λ w, [w; w]) <$> first_word words text
      | None => if contains pattern text then Some [pattern] else None
      end
  end.

Definition findall (pattern text : string) : list (string * string) :=
  match units_of pattern with
  | Some units => number_unit units "" false text
  | None => []
  end.

#[global] Instance runtime : PyRuntime := {|
  str_lower := id;
  str_strip := strip_space;
  str_split := String.words;
  str_isdigit := is_digit;
  int_of_str := decimal 0;
  re_search := search;
  re_findall := findall;
  list_of_set := remove_dups;
|}.

Definition galaxy : Product.t :=
  {| Product.id := "P1"; Product.name := "Galaxy S24";
     Product.description := Some "256GB"; Product.brand := Some "سامسونگ" |}.
Definition iphone : Product.t :=
  {| Product.id := "P2"; Product.name := "iPhone 15";
     Product.description := None; Product.brand := Some "اپل" |}.
Definition redmi : Product.t :=
  {| Product.id := "P3"; Product.name := "Redmi Note 13";
     Product.description := Some ""; Product.brand := Some "شیائومی" |}.
Definition nokia : Product.t :=
  {| Product.id := "P4"; Product.name := "Nokia G42";
     Product.description := None; Product.brand := None |}.

Definition hit (p : Product.t) (s : Q) : ScoredPoint.t :=
  {| ScoredPoint.id := Product.id p; ScoredPoint.score := s;
     ScoredPoint.payload := p |}.

Definition price_query : string := "قیمت گوشی سامسونگ چنده".
Definition rewrite_1 : string := "گوشی سامسونگ چند است".
Definition rewrite_2 : string := "هزینه موبایل سامسونگ".
Definition greeting_query : string := "سلام".
Definition cached_query : string := "ارسال چند روزه".

(** The model numbers its answers; it is unreachable for the cached
    query. *)
Definition answer : string :=
  "1. " +:+ rewrite_1 +:+ String NEWLINE ("2) " +:+ rewrite_2)
  +:+ String NEWLINE ("- " +:+ price_query).

#[global] Instance services : Services := {|
  llm_invoke := λ query _,
    if String.eqb query cached_query then None else Some answer;
  vector_search := λ query _ _,
    if String.eqb query price_query then
      Some [hit galaxy (7 # 10); hit iphone (4 # 10)]
    else if String.eqb query rewrite_1 then
      Some [hit redmi (5 # 10); hit galaxy (9 # 10)]
    else if String.eqb query rewrite_2 then None
    else Some [];
  cross_encoder := λ _ doc_text, Z.of_nat (String.length doc_text) # 1;
  generator_generate := λ query _ docs,
    query +:+ ": " +:+ String.concat ", " (Product.name ∘ RetrievedDocument.product <$> docs);
  hazm_normalize := id;
  sha256_hex := id;
|}.

(** A store with four documents, and a world whose cache answers the
    cached query. *)
Definition document (p : Product.t) (s : Q) : RetrievedDocument.t :=
  {| RetrievedDocument.product := p; RetrievedDocument.score := s;
     RetrievedDocument.rank := None |}.

Definition four_documents : store :=
  <[0%nat := document nokia (9 # 10)]>
    (<[1%nat := document galaxy (8 # 10)]>
       (<[2%nat := document iphone (7 # 10)]>
          (<[3%nat := document redmi (6 # 10)]> ∅))).

Definition cold : World.t :=
  {| World.cache := ∅; World.objects := ∅; World.next_loc := 0%nat |}.

Definition warm : World.t :=
  {| World.cache := {[ "response:" +:+ cached_query := "2 روز" ]};
     World.objects := ∅; World.next_loc := 0%nat |}.

(** A cache that holds an empty answer for the greeting. *)
Definition stale : World.t :=
  {| World.cache := {[ "response:" +:+ greeting_query := "" ]};
     World.objects := ∅; World.next_loc := 0%nat |}.

(** A codec for the values without floats whose strings need no escape:
    it writes a float as [null], and reads back what it has written of
    the other values. *)
Definition QUOTE : Ascii.ascii := Ascii.ascii_of_nat 34.

Definition quoted (s : string) : string := String QUOTE (s +:+ String QUOTE "").

Fixpoint dumps (v : json) : string :=
  match v with
  | JNull => "null"
  | JBool b => if b then "true" else "false"
  | JInt n => pretty n
  | JFloat _ => "null"
  | JStr s => quoted s
  | JList items => "[" +:+ String.concat ", " (dumps <$> items) +:+ "]"
  | JDict members =>
      "{" +:+ String.concat ", "
                ((λ m, quoted m.1 +:+ ": " +:+ dumps m.2) <$> members)
      +:+ "}"
  end.

(** [s] without the prefix [p], if it starts with it. *)
Definition after (p s : string) : option string :=
  if String.prefix p s
  then Some (String.substring (String.length p) (String.length s - String.length p) s)
  else None.

(** The text up to the next quote, and what follows the quote. *)
Fixpoint until_quote (s : string) : option (string * string) :=
  match s with
  | String c rest =>
      if Ascii.eqb c QUOTE then Some ("", rest)
      else '(text, rest') ← until_quote rest; Some (String c text, rest')
  | EmptyString => None
  end.

Fixpoint digits (acc : Z) (seen : bool) (s : string) : option (Z * string) :=
  match s with
  | String c rest =>
      match Ascii.is_nat c with
      | Some d => digits (10 * acc + Z.of_nat d) true rest
      | None => if seen then Some (acc, s) else None
      end
  | EmptyString => if seen then Some (acc, s) else None
  end.

Fixpoint parse_value (fuel : nat) (s : string) : option (json * string) :=
  match fuel with
  | O => None
  | S fuel =>
      if after (String QUOTE "") s is Some rest then
        '(text, rest) ← until_quote rest; Some (JStr text, rest)
      else if after "[]" s is Some rest then Some (JList [], rest)
      else if after "[" s is Some rest then
        '(items, rest) ← parse_items fuel rest; Some (JList items, rest)
      else if after "{}" s is Some rest then Some (JDict [], rest)
      else if after "{" s is Some rest then
        '(members, rest) ← parse_members fuel rest; Some (JDict members, rest)
      else if after "null" s is Some rest then Some (JNull, rest)
      else if after "true" s is Some rest then Some (JBool true, rest)
      else if after "false" s is Some rest then Some (JBool false, rest)
      else if after "-" s is Some rest then
        '(n, rest) ← digits 0 false rest; Some (JInt (- n), rest)
      else '(n, rest) ← digits 0 false s; Some (JInt n, rest)
  end
with parse_items (fuel : nat) (s : string) : option (list json * string) :=
  match fuel with
  | O => None
  | S fuel =>
      '(v, rest) ← parse_value fuel s;
      match after ", " rest, after "]" rest with
      | Some rest', _ => '(vs, rest'') ← parse_items fuel rest'; Some (v :: vs, rest'')
      | _, Some rest' => Some ([v], rest')
      | _, _ => None
      end
  end
with parse_members (fuel : nat) (s : string)
  : option (list (string * json) * string) :=
  match fuel with
  | O => None
  | S fuel =>
      rest ← after (String QUOTE "") s;
      '(key, rest) ← until_quote rest;
      rest ← after ": " rest;
      '(v, rest) ← parse_value fuel rest;
      match after ", " rest, after "}" rest with
      | Some rest', _ =>
          '(ms, rest'') ← parse_members fuel rest'; Some ((key, v) :: ms, rest'')
      | _, Some rest' => Some ([(key, v)], rest')
      | _, _ => None
      end
  end.

Definition loads (s : string) : option json :=
  match parse_value (String.length s) s with
  | Some (v, EmptyString) => Some v
  | _ => None
  end.

#[global] Instance codec : JsonCodec := {|
  json_dumps := dumps;
  json_loads := loads;
|}.

(** Two messages of a conversation, a session that holds the first of
    them, and a product record. *)
Definition question : json :=
  JDict [("role", JStr "user"); ("content", JStr price_query)].

Definition reply : json :=
  JDict [("role", JStr "assistant"); ("content", JStr "Galaxy S24")].

Definition one_message : json :=
  JDict [("started", JStr "2024-03-20"); ("messages", JList [question])].

Definition galaxy_data : json :=
  JDict [("id", JStr "P1"); ("name", JStr "Galaxy S24"); ("stock", JInt 4)].

(** A store with that session for the user [u1], a session without
    messages for [u2], and a cached answer. *)
Definition sessions : gmap string string :=
  {[ "session:u1" := dumps one_message;
     "session:u2" := dumps (JDict [("started", JStr "2024-03-20")]);
     "response:" +:+ cached_query := "2 روز" ]}.

End Example.

(* ===================================================================== *)
(** * Facts about the Python built-ins *)
(* ===================================================================== *)

Module PyFacts.
Import Py.

Lemma Qltb_lt a b : Qltb a b = true ↔ (a < b)%Q.
Proof.
  unfold Qltb. rewrite negb_true_iff, <- not_true_iff_false, Qle_bool_iff.
  split; [apply Qnot_le_lt | apply Qlt_not_le].
Qed.

Lemma Qltb_ge a b : Qltb a b = false ↔ (b <= a)%Q.
Proof. unfold Qltb. by rewrite negb_false_iff, Qle_bool_iff. Qed.

Lemma truthy_str_Some s : truthy_str (Some s) = true ↔ s ≠ "".
Proof. unfold truthy_str. by rewrite negb_true_iff, String.eqb_neq. Qed.

(** ** Slices *)

Lemma slice_to_take {A} (l : list A) k : ∃ n, slice_to l k = take n l.
Proof. unfold slice_to. destruct (0 <=? k); eauto. Qed.

Lemma slice_to_length {A} (l : list A) k :
  0 ≤ k → (Z.of_nat (length (slice_to l k)) ≤ k)%Z.
Proof.
  intros Hk. unfold slice_to.
  destruct (Z.leb_spec 0 k); [|lia]. rewrite length_take. lia.
Qed.

Lemma slice_to_all {A} (l : list A) k :
  (Z.of_nat (length l) ≤ k)%Z → slice_to l k = l.
Proof.
  intros Hk. unfold slice_to.
  destruct (Z.leb_spec 0 k); [|lia]. apply take_ge. lia.
Qed.

Lemma slice_to_elem_of {A} (l : list A) k x : x ∈ slice_to l k → x ∈ l.
Proof.
  destruct (slice_to_take l k) as [n ->]. apply (subseteq_take n l).
Qed.

(** ** Stable descending sort *)
Section Sorted.
Context {A : Type} (key : A → Q).

Lemma insert_desc_perm x l : insert_desc key x l ≡ₚ x :: l.
Proof.
  induction l as [|y l IH]; simpl; [done|].
  destruct (Qltb (key x) (key y)); [|done].
  by rewrite IH, Permutation_swap.
Qed.

Lemma sorted_desc_perm l : sorted_desc key l ≡ₚ l.
Proof.
  induction l as [|x l IH]; simpl; [done|].
  by rewrite insert_desc_perm, IH.
Qed.

Lemma sorted_desc_length l : length (sorted_desc key l) = length l.
Proof. by rewrite sorted_desc_perm. Qed.

Lemma insert_desc_sorted x l :
  StronglySorted (desc key) l → StronglySorted (desc key) (insert_desc key x l).
Proof.
  induction l as [|y l IH]; simpl; intros Hs.
  - repeat constructor.
  - apply StronglySorted_cons in Hs as [Hy Hl].
    destruct (Qltb (key x) (key y)) eqn:Hxy.
    + apply StronglySorted_cons. split; [|by apply IH].
      rewrite insert_desc_perm. constructor; [|done].
      apply Qltb_lt in Hxy. unfold desc. by apply Qlt_le_weak.
    + apply Qltb_ge in Hxy.
      apply StronglySorted_cons. split; [|by apply StronglySorted_cons].
      constructor; [done|].
      eapply Forall_impl; [exact Hy|]. unfold desc. intros z Hz.
      by apply Qle_trans with (key y).
Qed.

Lemma sorted_desc_sorted l : StronglySorted (desc key) (sorted_desc key l).
Proof.
  induction l as [|x l IH]; simpl; [constructor|].
  by apply insert_desc_sorted.
Qed.

(** A list already in descending order is left as it is: nothing
    moves, ties included. *)
Lemma sorted_desc_id l : StronglySorted (desc key) l → sorted_desc key l = l.
Proof.
  induction l as [|x l IH]; simpl; [done|]. intros Hs.
  apply StronglySorted_cons in Hs as [Hx Hl]. rewrite (IH Hl).
  destruct l as [|y l]; simpl; [done|].
  apply Forall_cons in Hx as [Hxy _].
  by apply Qltb_ge in Hxy as ->.
Qed.

Lemma StronglySorted_take n l :
  StronglySorted (desc key) l → StronglySorted (desc key) (take n l).
Proof.
  intros Hs. rewrite <- (take_drop n l) in Hs.
  by apply StronglySorted_app_1_l in Hs.
Qed.

Lemma slice_to_sorted l k :
  StronglySorted (desc key) l → StronglySorted (desc key) (slice_to l k).
Proof.
  destruct (slice_to_take l k) as [n ->]. apply StronglySorted_take.
Qed.
End Sorted.

(** The sort only looks at the keys of the elements it is given. *)
Lemma insert_desc_ext {A} (key key' : A → Q) x l :
  key x = key' x → Forall (λ y, key y = key' y) l →
  insert_desc key x l = insert_desc key' x l.
Proof.
  intros Hx. induction 1 as [|y l Hy Hl IH]; simpl; [done|].
  by rewrite Hx, Hy, IH.
Qed.

Lemma sorted_desc_ext {A} (key key' : A → Q) l :
  Forall (λ y, key y = key' y) l → sorted_desc key l = sorted_desc key' l.
Proof.
  induction 1 as [|x l Hx Hl IH]; simpl; [done|].
  rewrite IH. apply insert_desc_ext; [done|].
  eapply Forall_forall. intros y Hy.
  rewrite <- IH in Hy. rewrite sorted_desc_perm in Hy.
  by eapply Forall_forall in Hl.
Qed.

(** ** [max] and [min] *)

(** [max_by] returns the first element with the largest key: the
    elements before it have strictly smaller keys, those after it have
    keys that are not larger. *)
Lemma max_by_first {A} (f : A → Z) x l :
  ∃ before after,
    x :: l = before ++ max_by f x l :: after
    ∧ (∀ y, y ∈ before → f y < f (max_by f x l))
    ∧ (∀ y, y ∈ after → f y ≤ f (max_by f x l)).
Proof.
  revert x. induction l as [|y l IH]; intros x; simpl.
  - exists [], []. split; [done|]. split; intros ? ?%elem_of_nil; done.
  - destruct (Z.ltb_spec (f x) (f y)) as [Hlt|Hge].
    + destruct (IH y) as (before & after & Heq & Hb & Ha).
      generalize dependent (max_by f y l). intros r Heq Hb Ha.
      exists (x :: before), after. rewrite Heq. split; [done|].
      split; [|done]. intros z [->|Hz]%elem_of_cons; [|by apply Hb].
      destruct before as [|b before]; simpl in Heq; injection Heq as -> ->.
      * done.
      * specialize (Hb b (list_elem_of_here _ _)). lia.
    + destruct (IH x) as (before & after & Heq & Hb & Ha).
      generalize dependent (max_by f x l). intros r Heq Hb Ha.
      destruct before as [|b before]; simpl in Heq; injection Heq as -> ->.
      * exists [], (y :: after). split; [done|].
        split; [by intros ? ?%elem_of_nil|].
        intros z [->|Hz]%elem_of_cons; [lia|by apply Ha].
      * exists (b :: y :: before), after. split; [done|].
        split; [|done].
        intros z [->|[->|Hz]%elem_of_cons]%elem_of_cons.
        -- apply Hb, list_elem_of_here.
        -- specialize (Hb b (list_elem_of_here _ _)). lia.
        -- by apply Hb, list_elem_of_further.
Qed.

Lemma max_by_elem_of {A} (f : A → Z) x l : max_by f x l ∈ x :: l.
Proof.
  destruct (max_by_first f x l) as (before & after & -> & _).
  apply elem_of_app. right. apply list_elem_of_here.
Qed.

Lemma max_by_ge {A} (f : A → Z) x l y : y ∈ x :: l → f y ≤ f (max_by f x l).
Proof.
  destruct (max_by_first f x l) as (before & after & -> & Hb & Ha).
  intros [Hy|[->|Hy]%elem_of_cons]%elem_of_app.
  - specialize (Hb y Hy). lia.
  - lia.
  - by apply Ha.
Qed.

Lemma max_int_spec l m :
  max_int l = Some m → m ∈ l ∧ ∀ y, y ∈ l → y ≤ m.
Proof.
  destruct l as [|x l]; simpl; [done|]. intros [= <-]. split.
  - apply max_by_elem_of.
  - intros y Hy. by apply (max_by_ge id).
Qed.

Lemma min_from_spec x l :
  min_from x l ∈ x :: l ∧ ∀ y, y ∈ x :: l → min_from x l ≤ y.
Proof.
  revert x. induction l as [|z l IH]; intros x; simpl.
  - split; [apply list_elem_of_here|]. by intros y ->%list_elem_of_singleton.
  - destruct (IH (if z <? x then z else x)) as [Hin Hle]. split.
    + apply elem_of_cons in Hin as [->|Hin].
      * destruct (z <? x); [apply list_elem_of_further|]; apply list_elem_of_here.
      * by do 2 apply list_elem_of_further.
    + intros y [->|[->|Hy]%elem_of_cons]%elem_of_cons.
      * specialize (Hle _ (list_elem_of_here _ _)).
        destruct (Z.ltb_spec z x); lia.
      * specialize (Hle _ (list_elem_of_here _ _)).
        destruct (Z.ltb_spec z x); lia.
      * by apply Hle, list_elem_of_further.
Qed.

Lemma min_int_spec l m :
  min_int l = Some m → m ∈ l ∧ ∀ y, y ∈ l → m ≤ y.
Proof.
  destruct l as [|x l]; simpl; [done|]. intros [= <-]. apply min_from_spec.
Qed.

(** The smallest and the largest element do not depend on the order. *)
Lemma min_int_perm l l' : l ≡ₚ l' → min_int l = min_int l'.
Proof.
  intros Hp. destruct (min_int l) as [m|] eqn:Hm, (min_int l') as [m'|] eqn:Hm'.
  - apply min_int_spec in Hm as [Hin Hle], Hm' as [Hin' Hle'].
    rewrite Hp in Hin. rewrite <- Hp in Hin'.
    specialize (Hle _ Hin'). specialize (Hle' _ Hin). f_equal. lia.
  - destruct l'; [|done]. apply Permutation_nil_r in Hp. by subst l.
  - destruct l; [|done]. apply Permutation_nil_l in Hp. by subst l'.
  - done.
Qed.

Lemma max_int_perm l l' : l ≡ₚ l' → max_int l = max_int l'.
Proof.
  intros Hp. destruct (max_int l) as [m|] eqn:Hm, (max_int l') as [m'|] eqn:Hm'.
  - apply max_int_spec in Hm as [Hin Hle], Hm' as [Hin' Hle'].
    rewrite Hp in Hin. rewrite <- Hp in Hin'.
    specialize (Hle _ Hin'). specialize (Hle' _ Hin). f_equal. lia.
  - destruct l'; [|done]. apply Permutation_nil_r in Hp. by subst l.
  - destruct l; [|done]. apply Permutation_nil_l in Hp. by subst l'.
  - done.
Qed.

(** ** [enumerate] *)

Lemma enumerate_from_lookup {A} (l : list A) s (i : nat) :
  enumerate_from s l !! i = (λ x, (s + Z.of_nat i, x)) <$> l !! i.
Proof.
  revert s i. induction l as [|x l IH]; intros s [|i]; simpl; try done.
  - by rewrite Z.add_0_r.
  - rewrite IH. destruct (l !! i); simpl; [|done]. do 2 f_equal. lia.
Qed.

Lemma enumerate_from_length {A} (l : list A) s :
  length (enumerate_from s l) = length l.
Proof. revert s. induction l; intros; simpl; [done|]. by f_equal. Qed.

Lemma enumerate_from_snd {A} (l : list A) s : (enumerate_from s l).*2 = l.
Proof. revert s. induction l; intros; simpl; [done|]. by f_equal. Qed.

Lemma elem_of_enumerate_from {A} (l : list A) s i x :
  (i, x) ∈ enumerate_from s l → x ∈ l.
Proof.
  intros Hin. rewrite <- (enumerate_from_snd l s).
  apply list_elem_of_fmap. by exists (i, x).
Qed.

(** Relabelling the elements of a sorted list by a function of the
    index that keeps the keys leaves the list sorted. *)
Lemma enumerate_sorted {A B} (key : A → Q) (key' : B → Q) (g : Z → A → B) l s :
  (∀ i x, key' (g i x) = key x) →
  StronglySorted (desc key) l →
  StronglySorted (desc key') ((λ '(i, x), g i x) <$> enumerate_from s l).
Proof.
  intros Hg. revert s. induction l as [|x l IH]; intros s Hs; simpl.
  - constructor.
  - apply StronglySorted_cons in Hs as [Hx Hl].
    apply StronglySorted_cons. split; [|by apply IH].
    apply Forall_fmap, Forall_forall. intros [i y] Hin. simpl.
    apply elem_of_enumerate_from in Hin.
    rewrite Forall_forall in Hx. unfold desc. rewrite !Hg. by apply Hx.
Qed.

(** ** Dictionaries *)
Section Dict.
Context {K V : Type} `{EqDecision K}.
Implicit Types (d : list (K * V)).

Lemma dict_get_None k d : dict_get k d = None ↔ k ∉ dict_keys d.
Proof.
  unfold dict_keys. induction d as [|[k' v'] d IH]; simpl.
  - split; [intros _; apply not_elem_of_nil | done].
  - rewrite not_elem_of_cons. destruct (decide (k = k')) as [->|Hne].
    + split; [done|]. by intros [? _].
    + rewrite IH. split; [done|]. by intros [_ ?].
Qed.

Lemma dict_get_Some k v d : dict_get k d = Some v → (k, v) ∈ d.
Proof.
  induction d as [|[k' v'] d IH]; simpl; [done|].
  destruct (decide (k = k')) as [->|]; intros Hg.
  - injection Hg as ->. apply list_elem_of_here.
  - apply list_elem_of_further. by apply IH.
Qed.

Lemma dict_keys_set k v d :
  dict_keys (dict_set k v d)
  = if decide (k ∈ dict_keys d) then dict_keys d else dict_keys d ++ [k].
Proof.
  unfold dict_keys. induction d as [|[k' v'] d IH]; csimpl.
  - done.
  - destruct (decide (k = k')) as [->|Hne]; csimpl.
    + by rewrite decide_True by apply list_elem_of_here.
    + rewrite IH. destruct (decide (k ∈ d.*1)) as [Hin|Hin].
      * by rewrite decide_True by by apply list_elem_of_further.
      * rewrite decide_False; [done|]. by apply not_elem_of_cons.
Qed.

Lemma dict_set_NoDup k v d : NoDup (dict_keys d) → NoDup (dict_keys (dict_set k v d)).
Proof.
  intros Hd. rewrite dict_keys_set. case_decide; [done|].
  apply NoDup_app. split_and!; [done| |apply NoDup_singleton].
  by intros x Hx ->%list_elem_of_singleton.
Qed.

Lemma elem_of_dict_keys k v d : (k, v) ∈ d → k ∈ dict_keys d.
Proof. intros Hin. apply list_elem_of_fmap. by exists (k, v). Qed.

Lemma elem_of_dict_set k v k' v' d :
  NoDup (dict_keys d) →
  (k', v') ∈ dict_set k v d ↔ (k' = k ∧ v' = v) ∨ (k' ≠ k ∧ (k', v') ∈ d).
Proof.
  induction d as [|[k0 v0] d IH]; simpl.
  - intros _. rewrite list_elem_of_singleton, elem_of_nil. naive_solver.
  - intros [Hk0 Hd]%NoDup_cons. specialize (IH Hd).
    destruct (decide (k = k0)) as [->|Hne]; rewrite !elem_of_cons.
    + split.
      * intros [Heq|Hin]; [left; by simplify_eq|].
        right. split; [|by right].
        intros ->. by apply elem_of_dict_keys in Hin.
      * intros [[-> ->]|[Hne [Heq|Hin]]]; [by left|by simplify_eq|by right].
    + rewrite IH. split.
      * intros [Heq|[?|[? ?]]]; [|by left|by right; split; [|right]].
        simplify_eq. right. split; [done|by left].
      * intros [?|[? [?|?]]]; [by right; left|by left|by right; right].
Qed.

(** With distinct keys, a key has one binding. *)
Lemma dict_binding_unique k v v' d :
  NoDup (dict_keys d) → (k, v) ∈ d → (k, v') ∈ d → v = v'.
Proof.
  induction d as [|[k0 v0] d IH]; simpl; [by intros _ ?%elem_of_nil|].
  intros [Hk0 Hd]%NoDup_cons. rewrite !elem_of_cons.
  intros [?|Hin] [?|Hin']; simplify_eq; [done| | |by apply IH].
  - by apply elem_of_dict_keys in Hin'.
  - by apply elem_of_dict_keys in Hin.
Qed.

Lemma elem_of_dict_values v d : v ∈ dict_values d ↔ ∃ k, (k, v) ∈ d.
Proof.
  unfold dict_values. rewrite list_elem_of_fmap. split.
  - intros [[k v'] [-> Hin]]. by exists k.
  - intros [k Hin]. by exists (k, v).
Qed.
End Dict.

End PyFacts.

(* ===================================================================== *)
(** * Fusion of the per-variation results *)
(* ===================================================================== *)

Module RetrieverFacts.
Import Py PyFacts MultiQueryRetriever.

Lemma fused_nil : fused [] [].
Proof.
  split; [apply NoDup_nil_2| |]; intros *; by intros ?%elem_of_nil.
Qed.

Lemma merge_result_fused seen d r :
  fused seen d → fused (seen ++ [r]) (merge_result d r).
Proof.
  intros [Hkeys Hfrom Hmax]. unfold merge_result.
  set (fresh_doc := {| RetrievedDocument.product := _ |}).
  assert (Hset : (∀ stored, (ScoredPoint.id r, stored) ∈ d →
                    (RetrievedDocument.score stored <= ScoredPoint.score r)%Q) →
                 fused (seen ++ [r]) (dict_set (ScoredPoint.id r) fresh_doc d)).
  { intros Hle. split.
    - by apply dict_set_NoDup.
    - intros k doc [[-> ->]|[Hne Hin]]%elem_of_dict_set; [| |done].
      + exists r. split_and!; [|done..]. apply elem_of_app. right.
        apply list_elem_of_here.
      + destruct (Hfrom k doc Hin) as (r' & ? & ?). exists r'.
        split; [|done]. apply elem_of_app. by left.
    - intros r' [Hin| ->%list_elem_of_singleton]%elem_of_app.
      + destruct (Hmax r' Hin) as (doc & Hdoc & Hs).
        destruct (decide (ScoredPoint.id r' = ScoredPoint.id r)) as [Heq|Hne].
        * exists fresh_doc. split.
          { apply elem_of_dict_set; [done|]. by left. }
          rewrite Heq in Hdoc. simpl. by apply Qle_trans with (RetrievedDocument.score doc); [|apply Hle].
        * exists doc. split; [|done]. apply elem_of_dict_set; [done|]. by right.
      + exists fresh_doc. split; [|simpl; apply Qle_refl].
        apply elem_of_dict_set; [done|]. by left. }
  destruct (dict_get (ScoredPoint.id r) d) as [stored|] eqn:Hget.
  - apply dict_get_Some in Hget.
    destruct (Qltb _ _) eqn:Hlt.
    + apply Qltb_lt in Hlt. apply Hset. intros stored' Hin.
      rewrite <- (dict_binding_unique _ _ _ _ Hkeys Hget Hin).
      by apply Qlt_le_weak.
    + apply Qltb_ge in Hlt. split; [done| |].
      * intros k doc Hin. destruct (Hfrom k doc Hin) as (r' & ? & ?).
        exists r'. split; [|done]. apply elem_of_app. by left.
      * intros r' [Hin| ->%list_elem_of_singleton]%elem_of_app; [by apply Hmax|].
        by exists stored.
  - apply Hset. intros stored Hin%elem_of_dict_keys.
    by apply dict_get_None in Hget.
Qed.

Lemma foldl_merge_result_fused seen d rs :
  fused seen d → fused (seen ++ rs) (foldl merge_result d rs).
Proof.
  revert seen d. induction rs as [|r rs IH]; intros seen d Hd; simpl.
  - by rewrite app_nil_r.
  - rewrite (assoc_L (++) seen [r] rs : seen ++ r :: rs = (seen ++ [r]) ++ rs).
    by apply IH, merge_result_fused.
Qed.

Section WithEnvironment.
Context `{PyRuntime} `{Services} (settings : Settings.t).

(** The two nested loops amount to one pass over the observed hits. *)
Lemma fuse_observed query_variations top_k filters :
  fuse query_variations (effective_top_k settings top_k) (query_filter_of filters)
  = foldl merge_result [] (observed_hits settings query_variations top_k filters).
Proof.
  unfold fuse, observed_hits, variation_results.
  generalize (@nil (string * RetrievedDocument.t)).
  induction query_variations as [|q qs IH]; intros d; simpl; [done|].
  destruct (vector_search q _ _) as [rs|]; simpl; [|by apply IH].
  by rewrite foldl_app, IH.
Qed.

(** The last loop of [search]: the documents with their ranks. *)
Lemma ranked_lookup (l : list RetrievedDocument.t) (i : nat) :
  ((λ '(i, doc), RetrievedDocument.set_rank (i + 1) doc) <$> enumerate l) !! i
  = RetrievedDocument.set_rank (Z.of_nat i + 1) <$> l !! i.
Proof.
  unfold enumerate. rewrite list_lookup_fmap, enumerate_from_lookup.
  by destruct (l !! i).
Qed.

Lemma elem_of_ranked (l : list RetrievedDocument.t) doc :
  doc ∈ (λ '(i, doc), RetrievedDocument.set_rank (i + 1) doc) <$> enumerate l →
  ∃ doc0 r, doc0 ∈ l ∧ doc = RetrievedDocument.set_rank r doc0.
Proof.
  intros [[i doc0] [-> Hin]]%list_elem_of_fmap.
  exists doc0, (i + 1). split; [|done]. by eapply elem_of_enumerate_from.
Qed.

Lemma ranked_doc_id (l : list RetrievedDocument.t) :
  doc_id <$> ((λ '(i, doc), RetrievedDocument.set_rank (i + 1) doc) <$> enumerate l)
  = doc_id <$> l.
Proof.
  unfold enumerate. generalize 0. induction l as [|d l IH]; intros s; csimpl; [done|].
  by rewrite IH.
Qed.

Lemma fuse_fused query_variations top_k filters :
  fused (observed_hits settings query_variations top_k filters)
        (fuse query_variations (effective_top_k settings top_k) (query_filter_of filters)).
Proof.
  rewrite fuse_observed.
  apply (foldl_merge_result_fused [] [] _ fused_nil).
Qed.

(** In a fused dictionary built from catalogue points, the key of an
    entry is the id of its product. *)
Lemma fused_doc_id seen d :
  fused seen d → Forall point_of_catalog seen →
  doc_id <$> dict_values d = dict_keys d.
Proof.
  intros Hd Hcat. unfold dict_values, dict_keys.
  rewrite <- list_fmap_compose. apply list_fmap_ext.
  intros i [k doc] Hi. simpl.
  destruct (fused_from _ _ Hd k doc) as (r & Hr & <- & _ & Hp).
  { by eapply list_elem_of_lookup_2. }
  rewrite Forall_forall in Hcat. unfold doc_id. rewrite <- Hp.
  symmetry. by apply Hcat.
Qed.

Lemma fused_keys_ids seen d :
  fused seen d → dict_keys d ≡ₚ remove_dups (ScoredPoint.id <$> seen).
Proof.
  intros Hd. apply NoDup_Permutation.
  - apply (fused_keys _ _ Hd).
  - apply NoDup_remove_dups.
  - intros k. rewrite elem_of_remove_dups, list_elem_of_fmap. split.
    + intros [[k' doc] [-> Hin]]%list_elem_of_fmap. simpl.
      destruct (fused_from _ _ Hd _ _ Hin) as (r & Hr & Hid & _).
      by exists r.
    + intros (r & -> & Hr).
      destruct (fused_max _ _ Hd r Hr) as (doc & Hin & _).
      by eapply elem_of_dict_keys.
Qed.

(** C1: within one result of [search] no product id occurs twice, and
    the score of an entry is the largest score any variation's result
    list holds for that id: it is one of those scores and no other is
    above it.  When the distinct ids fit into the top-N, every id that
    was returned by a variation has its entry.  The points are those
    [add_product] writes, whose id is the id of the product stored in
    the payload. *)
Theorem search_fuses_by_max query_variations top_k filters :
  let hits := observed_hits settings query_variations top_k filters in
  let result := search settings query_variations top_k filters in
  Forall point_of_catalog hits →
  NoDup (doc_id <$> result)
  ∧ (∀ doc, doc ∈ result →
       (∃ r, r ∈ hits ∧ ScoredPoint.id r = doc_id doc
             ∧ ScoredPoint.score r = RetrievedDocument.score doc)
       ∧ (∀ r, r ∈ hits → ScoredPoint.id r = doc_id doc →
            (ScoredPoint.score r <= RetrievedDocument.score doc)%Q))
  ∧ ((Z.of_nat (length (remove_dups (ScoredPoint.id <$> hits)))
        ≤ effective_top_k settings top_k)%Z →
     ∀ r, r ∈ hits → ∃ doc, doc ∈ result ∧ doc_id doc = ScoredPoint.id r).
Proof.
  intros hits result Hcat.
  pose proof (fuse_fused query_variations top_k filters) as Hd.
  fold hits in Hd.
  set (d := fuse _ _ _) in Hd.
  set (sorted := sorted_desc RetrievedDocument.score (dict_values d)).
  assert (Hresult : result
            = (λ '(i, doc), RetrievedDocument.set_rank (i + 1) doc)
              <$> enumerate (slice_to sorted (effective_top_k settings top_k)))
    by done.
  assert (Hval : ∀ doc0, doc0 ∈ sorted → (doc_id doc0, doc0) ∈ d).
  { intros doc0 Hin. unfold sorted in Hin. rewrite sorted_desc_perm in Hin.
    apply elem_of_dict_values in Hin as [k Hin].
    destruct (fused_from _ _ Hd k doc0 Hin) as (r & Hr & <- & _ & Hp).
    rewrite Forall_forall in Hcat. unfold doc_id.
    by rewrite <- Hp, <- (Hcat r Hr). }
  split_and!.
  - rewrite Hresult, ranked_doc_id.
    destruct (slice_to_take sorted (effective_top_k settings top_k)) as [n ->].
    rewrite fmap_take. eapply sublist_NoDup; [|apply sublist_take].
    unfold sorted. rewrite sorted_desc_perm.
    rewrite (fused_doc_id _ _ Hd Hcat). apply (fused_keys _ _ Hd).
  - intros doc Hdoc. rewrite Hresult in Hdoc.
    apply elem_of_ranked in Hdoc as (doc0 & rk & Hin & ->).
    apply slice_to_elem_of, Hval in Hin.
    change (doc_id (RetrievedDocument.set_rank rk doc0)) with (doc_id doc0).
    change (RetrievedDocument.score (RetrievedDocument.set_rank rk doc0))
      with (RetrievedDocument.score doc0).
    split.
    + destruct (fused_from _ _ Hd _ _ Hin) as (r & Hr & Hid & Hs & _).
      by exists r.
    + intros r Hr Hid.
      destruct (fused_max _ _ Hd r Hr) as (doc' & Hin' & Hle).
      rewrite Hid in Hin'.
      by rewrite (dict_binding_unique _ _ _ _ (fused_keys _ _ Hd) Hin Hin').
  - intros Hfit r Hr.
    destruct (fused_max _ _ Hd r Hr) as (doc0 & Hin & _).
    assert (Hall : slice_to sorted (effective_top_k settings top_k) = sorted).
    { apply slice_to_all. unfold sorted.
      rewrite sorted_desc_length. unfold dict_values. rewrite length_fmap.
      rewrite <- (length_fmap fst d). fold (dict_keys d).
      by rewrite (fused_keys_ids _ _ Hd). }
    assert (Hs : doc0 ∈ sorted).
    { unfold sorted. rewrite sorted_desc_perm.
      apply elem_of_dict_values. by eexists. }
    apply list_elem_of_lookup in Hs as [i Hi].
    exists (RetrievedDocument.set_rank (Z.of_nat i + 1) doc0). split.
    + rewrite Hresult, Hall. apply list_elem_of_lookup. exists i.
      by rewrite ranked_lookup, Hi.
    + change (doc_id (RetrievedDocument.set_rank _ doc0)) with (doc_id doc0).
      destruct (fused_from _ _ Hd _ _ Hin) as (r' & Hr' & Hid & _ & Hp).
      rewrite Forall_forall in Hcat. unfold doc_id.
      by rewrite <- Hp, <- (Hcat r' Hr').
Qed.

(** C4: the list [search] returns is no longer than the top-N in
    force (the argument, or the configured [RETRIEVAL_TOP_K] when the
    argument is absent or zero), a top-N being a count; it is in
    descending score order; and its ranks are 1, 2, ..., its length,
    in that order. *)
Theorem search_top_n_sorted_ranked query_variations top_k filters :
  let result := search settings query_variations top_k filters in
  ((0 ≤ effective_top_k settings top_k)%Z →
   (Z.of_nat (length result) ≤ effective_top_k settings top_k)%Z)
  ∧ StronglySorted (desc RetrievedDocument.score) result
  ∧ RetrievedDocument.rank <$> result
    = (λ i : nat, Some (Z.of_nat i)) <$> seq 1 (length result).
Proof.
  intros result. unfold result, search. fold (effective_top_k settings top_k).
  fold (query_filter_of filters).
  set (sorted := slice_to _ _).
  split_and!.
  - intros Hk. rewrite length_fmap. unfold enumerate.
    rewrite enumerate_from_length. by apply slice_to_length.
  - apply (enumerate_sorted RetrievedDocument.score RetrievedDocument.score
             (λ i doc, RetrievedDocument.set_rank (i + 1) doc)); [done|].
    apply slice_to_sorted, sorted_desc_sorted.
  - apply list_eq. intros i.
    rewrite (list_lookup_fmap RetrievedDocument.rank), ranked_lookup.
    rewrite list_lookup_fmap, length_fmap.
    unfold enumerate. rewrite enumerate_from_length.
    destruct (sorted !! i) as [doc|] eqn:Hi; simpl.
    + rewrite lookup_seq_lt by by eapply lookup_lt_Some.
      simpl. do 2 f_equal. lia.
    + by rewrite lookup_seq_ge by by apply lookup_ge_None.
Qed.

(** The loop over the lines only appends: the list still starts with
    the original query. *)
Lemma variations_loop_head query lines (variations : list string) :
  ∃ rest,
    foldl (λ variations line,
             match parse_line query line with
             | Some variation => variations ++ [variation]
             | None => variations
             end)
          (query :: variations) lines
    = query :: rest.
Proof.
  revert variations. induction lines as [|line lines IH]; intros variations; simpl.
  - by eexists.
  - destruct (parse_line query line); [|done]. apply (IH (variations ++ [_])).
Qed.

(** C6, amended: for a variation count k of at least one (the
    argument, or the configured [QUERY_VARIATIONS] when the argument is
    absent or zero) the list starts with the original query and has
    at most k elements; and for every k, when the call of the language
    model raises, the list is the original query alone. *)
Theorem generate_query_variations_original_first query num_variations :
  let k := or_default num_variations (Settings.QUERY_VARIATIONS settings) in
  let result := generate_query_variations settings query num_variations in
  ((1 ≤ k)%Z → head result = Some query ∧ (Z.of_nat (length result) ≤ k)%Z)
  ∧ (llm_invoke query (k - 1) = None → result = [query]).
Proof.
  intros k result. unfold result, generate_query_variations. fold k.
  split.
  - intros Hk. destruct (llm_invoke query (k - 1)) as [content|].
    + destruct (variations_loop_head query
                  (split_char NEWLINE (str_strip content)) []) as [rest ->].
      split; [|apply slice_to_length; lia].
      unfold slice_to. destruct (Z.leb_spec 0 k); [|lia].
      destruct (Z.to_nat k) eqn:Hn; [lia|done].
    + split; [done|simpl; lia].
  - by intros ->.
Qed.
End WithEnvironment.

(** C6 as stated fails for the count 0: the call below asks for at
    most 0 variations and gets 3, because a zero argument selects the
    configured default. *)
Lemma generate_query_variations_count_zero :
  let result :=
    generate_query_variations Settings.defaults Example.price_query (Some 0) in
  result = [Example.price_query; Example.rewrite_1; Example.rewrite_2]
  ∧ ¬ (head result = Some Example.price_query ∧ (Z.of_nat (length result) ≤ 0)%Z).
Proof. split; [by vm_compute|]. vm_compute. intros [_ Hle]. by apply Hle. Qed.

Lemma generate_query_variations_original_first_witness :
  (let result :=
     generate_query_variations Settings.defaults Example.price_query None in
   head result = Some Example.price_query ∧ (Z.of_nat (length result) ≤ 3)%Z)
  ∧ generate_query_variations Settings.defaults Example.cached_query (Some 1)
    = [Example.cached_query].
Proof.
  split.
  - apply (generate_query_variations_original_first
             Settings.defaults Example.price_query None). simpl. lia.
  - apply (generate_query_variations_original_first
             Settings.defaults Example.cached_query (Some 1)). reflexivity.
Defined.
(** The hits of the example: the first two variations both return the
    product P1, with scores 0.7 and 0.9; the search of the third
    raises. *)
Example search_overlap :
  (λ doc, (doc_id doc, RetrievedDocument.score doc, RetrievedDocument.rank doc))
    <$> search Settings.defaults
          [Example.price_query; Example.rewrite_1; Example.rewrite_2] None None
  = [("P1", 9 # 10, Some 1); ("P3", 5 # 10, Some 2); ("P2", 4 # 10, Some 3)].
Proof. by vm_compute. Qed.

Lemma search_fuses_by_max_witness :
  let hits :=
    observed_hits Settings.defaults
      [Example.price_query; Example.rewrite_1; Example.rewrite_2] None None in
  let result :=
    search Settings.defaults
      [Example.price_query; Example.rewrite_1; Example.rewrite_2] None None in
  Forall point_of_catalog hits
  ∧ NoDup (doc_id <$> result)
  ∧ (∀ doc, doc ∈ result →
       (∃ r, r ∈ hits ∧ ScoredPoint.id r = doc_id doc
             ∧ ScoredPoint.score r = RetrievedDocument.score doc)
       ∧ (∀ r, r ∈ hits → ScoredPoint.id r = doc_id doc →
            (ScoredPoint.score r <= RetrievedDocument.score doc)%Q))
  ∧ ((Z.of_nat (length (remove_dups (ScoredPoint.id <$> hits))) ≤ 10)%Z →
     ∀ r, r ∈ hits → ∃ doc, doc ∈ result ∧ doc_id doc = ScoredPoint.id r).
Proof.
  assert (Hcat : Forall point_of_catalog
                   (observed_hits Settings.defaults
                      [Example.price_query; Example.rewrite_1; Example.rewrite_2]
                      None None)).
  { by repeat constructor. }
  split; [exact Hcat|].
  exact (search_fuses_by_max Settings.defaults
           [Example.price_query; Example.rewrite_1; Example.rewrite_2]
           None None Hcat).
Defined.

Lemma search_top_n_sorted_ranked_witness :
  let result :=
    search Settings.defaults
      [Example.price_query; Example.rewrite_1; Example.rewrite_2] None None in
  (Z.of_nat (length result) ≤ 10)%Z
  ∧ StronglySorted (desc RetrievedDocument.score) result
  ∧ RetrievedDocument.rank <$> result
    = (λ i : nat, Some (Z.of_nat i)) <$> seq 1 (length result).
Proof.
  destruct (search_top_n_sorted_ranked Settings.defaults
              [Example.price_query; Example.rewrite_1; Example.rewrite_2]
              None None) as (Hlen & Hsorted & Hranks).
  split; [|by split].
  apply Hlen. by vm_compute.
Defined.

End RetrieverFacts.

(* ===================================================================== *)
(** * The intent classifier *)
(* ===================================================================== *)

Module IntentFacts.
Import Py PyFacts IntentDetector.

Section WithRuntime.
Context `{PyRuntime}.

(** The loop of [detect_intent] counts the patterns found in the text. *)
Lemma pattern_score_count text_lower patterns :
  pattern_score text_lower patterns
  = Z.of_nat (length (filter (λ pattern, is_Some (re_search pattern text_lower))
                             patterns)).
Proof.
  unfold pattern_score.
  enough (Hgen : ∀ score,
    foldl (λ score pattern,
             if re_search pattern text_lower is Some _ then score + 1 else score)
          score patterns
    = score + Z.of_nat (length (filter (λ pattern, is_Some (re_search pattern text_lower))
                                       patterns))).
  { by rewrite Hgen. }
  induction patterns as [|p ps IH]; intros score; simpl.
  - lia.
  - rewrite filter_cons, IH. destruct (re_search p text_lower) as [m|] eqn:Hp.
    + rewrite decide_True by done. simpl. lia.
    + by rewrite decide_False by (by intros [? ?]).
Qed.

Lemma intent_scores_values text_lower :
  dict_values (intent_scores text_lower) = match_count text_lower <$> intent_order.
Proof.
  unfold match_count. cbn -[pattern_score filter].
  by rewrite <- !pattern_score_count.
Qed.

Lemma intent_scores_keys text_lower :
  dict_keys (intent_scores text_lower) = intent_order.
Proof. reflexivity. Qed.

Lemma intent_scores_get text_lower intent :
  default 0 (dict_get intent (intent_scores text_lower)) = match_count text_lower intent.
Proof.
  unfold match_count. destruct intent; cbn -[pattern_score filter];
    by rewrite <- ?pattern_score_count.
Qed.

Lemma match_count_nonneg text_lower intent : 0 ≤ match_count text_lower intent.
Proof. unfold match_count. lia. Qed.

Lemma match_count_zero text_lower intent :
  match_count text_lower intent = 0
  ↔ ∀ pattern, pattern ∈ patterns_of intent → re_search pattern text_lower = None.
Proof.
  unfold match_count. generalize (patterns_of intent) as ps.
  induction ps as [|p ps IH].
  - split; [by intros _ ? ?%elem_of_nil|done].
  - rewrite filter_cons. destruct (re_search p text_lower) as [m|] eqn:Hp.
    + rewrite decide_True by done. split; [simpl; lia|].
      intros Hall. specialize (Hall p (list_elem_of_here _ _)). congruence.
    + rewrite decide_False by (by intros [? ?]). rewrite IH. split.
      * intros Hall q [->|Hq]%elem_of_cons; [done|by apply Hall].
      * intros Hall q Hq. by apply Hall, list_elem_of_further.
Qed.

Lemma GENERAL_not_in_order : GENERAL ∉ intent_order.
Proof.
  unfold intent_order. cbn. rewrite !not_elem_of_cons. split_and!; try done.
  apply not_elem_of_nil.
Qed.

(** C3: [detect_intent] visits the intents in the order PRICE_CHECK,
    AVAILABILITY, FEATURE_INQUIRY, COMPARISON, SHIPPING, PURCHASE,
    GREETING.  It answers GENERAL exactly when no pattern of any intent
    is found in the lower-cased text; otherwise it answers the first
    intent of that order whose number of matching patterns is the
    largest: the intents before it match strictly fewer patterns and
    those after it match no more. *)
Theorem detect_intent_first_maximum text :
  let text_lower := str_lower text in
  let result := detect_intent text in
  intent_order = [PRICE_CHECK; AVAILABILITY; FEATURE_INQUIRY; COMPARISON;
                  SHIPPING; PURCHASE; GREETING]
  ∧ (result = GENERAL
     ↔ ∀ intent pattern, pattern ∈ patterns_of intent →
         re_search pattern text_lower = None)
  ∧ (result ≠ GENERAL →
     ∃ before after,
       intent_order = before ++ result :: after
       ∧ 0 < match_count text_lower result
       ∧ (∀ intent, intent ∈ before →
            match_count text_lower intent < match_count text_lower result)
       ∧ (∀ intent, intent ∈ after →
            match_count text_lower intent ≤ match_count text_lower result)).
Proof.
  intros text_lower result. split; [done|].
  assert (Hresult : result = detect_intent text) by done.
  unfold detect_intent in Hresult. fold text_lower in Hresult.
  rewrite intent_scores_keys, intent_scores_values in Hresult.
  change intent_order with (PRICE_CHECK :: tail intent_order) in Hresult at 2.
  destruct (max_int (match_count text_lower <$> intent_order)) as [m|] eqn:Hm;
    [|done].
  apply max_int_spec in Hm as [Hin Hmax].
  apply list_elem_of_fmap in Hin as (top & -> & Htop).
  set (key := λ i, default 0 (dict_get i (intent_scores text_lower))) in Hresult.
  destruct (max_by_first key PRICE_CHECK (tail intent_order))
    as (before & after & Hsplit & Hbefore & Hafter).
  change (PRICE_CHECK :: tail intent_order) with intent_order in Hsplit.
  assert (Hkey : ∀ i, key i = match_count text_lower i)
    by (intros i; apply intent_scores_get).
  pose proof (max_by_ge key PRICE_CHECK (tail intent_order) top Htop) as Hbest.
  rewrite !Hkey in Hbest.
  setoid_rewrite Hkey in Hbefore. setoid_rewrite Hkey in Hafter.
  clearbody key result text_lower.
  destruct (Z.ltb_spec 0 (match_count text_lower top)) as [Hpos|Hzero].
  - (* some pattern matches *)
    rewrite <- Hresult in Hsplit, Hbefore, Hafter, Hbest.
    assert (Hin : result ∈ intent_order).
    { rewrite Hsplit. apply elem_of_app. right. apply list_elem_of_here. }
    assert (Hne : result ≠ GENERAL).
    { intros Heq. rewrite Heq in Hin. by apply GENERAL_not_in_order in Hin. }
    split.
    + split; [done|]. intros Hnone.
      assert (match_count text_lower top = 0); [|lia].
      apply match_count_zero. intros p Hp. by apply (Hnone top).
    + intros _. exists before, after. split; [done|]. split; [lia|done].
  - (* no pattern matches *)
    split; [|by intros Hne].
    split; [|done]. intros _ intent pattern Hp.
    destruct (decide (intent ∈ intent_order)) as [Hin|Hout].
    + apply (match_count_zero text_lower intent); [|done].
      assert (match_count text_lower intent ≤ match_count text_lower top).
      { apply Hmax, list_elem_of_fmap. by exists intent. }
      pose proof (match_count_nonneg text_lower intent). lia.
    + assert (intent = GENERAL) as ->.
      { destruct intent; try done; exfalso; apply Hout; cbn;
          repeat (first [apply list_elem_of_here | apply list_elem_of_further]). }
      by apply elem_of_nil in Hp.
Qed.

(** The range only depends on the prices as a collection. *)
Lemma price_range_of_perm prices prices' :
  prices ≡ₚ prices' → price_range_of prices = price_range_of prices'.
Proof.
  intros Hp. pose proof (Permutation_length Hp) as Hlen.
  destruct prices as [|p [|q prices]], prices' as [|p' [|q' prices']];
    simplify_eq/=; try done.
  - by apply Permutation_singleton_l in Hp as [= ->].
  - change (price_range_of (p :: q :: prices) = price_range_of (p' :: q' :: prices')).
    unfold price_range_of.
    by rewrite (min_int_perm _ _ Hp), (max_int_perm _ _ Hp).
Qed.

(** C5: a number followed by the million unit counts a million times,
    followed by the thousand unit a thousand times, followed by the
    toman unit once.  One price [v] in the text gives the range from 0 to
    [v]; two or more give the range from the smallest to the largest of
    them; and a text that mentions the same prices in another order gets
    the same range. *)
Theorem extract_slots_price_range text :
  let prices := price_of_match <$> re_findall (slot_pattern "price") text in
  let range := Slots.price_range (extract_slots text) in
  (∀ number,
     price_of_match (number, MILLION) = int_of_str number * 1000000
     ∧ price_of_match (number, THOUSAND) = int_of_str number * 1000
     ∧ price_of_match (number, TOMAN) = int_of_str number)
  ∧ (∀ v, prices = [v] → range = Some {| pr_min := 0; pr_max := v |})
  ∧ ((2 ≤ length prices)%nat →
     ∃ lo hi, range = Some {| pr_min := lo; pr_max := hi |}
              ∧ lo ∈ prices ∧ hi ∈ prices
              ∧ ∀ p, p ∈ prices → lo ≤ p ≤ hi)
  ∧ (∀ text',
       price_of_match <$> re_findall (slot_pattern "price") text' ≡ₚ prices →
       Slots.price_range (extract_slots text') = range).
Proof.
  intros prices range.
  assert (Hrange : ∀ t, Slots.price_range (extract_slots t)
            = price_range_of (price_of_match <$> re_findall (slot_pattern "price") t))
    by done.
  unfold range. rewrite Hrange. fold prices. split_and!.
  - intros number. by vm_compute.
  - by intros v ->.
  - intros Hlen. destruct prices as [|p [|q rest]] eqn:Hprices; simpl in Hlen; [lia..|].
    unfold price_range_of.
    destruct (min_int (p :: q :: rest)) as [lo|] eqn:Hlo; [|done].
    destruct (max_int (p :: q :: rest)) as [hi|] eqn:Hhi; [|done].
    apply min_int_spec in Hlo as [Hlo_in Hlo]. apply max_int_spec in Hhi as [Hhi_in Hhi].
    exists lo, hi. split_and!; [done..|]. intros r Hr. split; [by apply Hlo|by apply Hhi].
  - intros text' Hp. rewrite Hrange. by apply price_range_of_perm.
Qed.

End WithRuntime.

(** The texts of the example: one price, and the same two prices in
    both orders. *)
Example extract_slots_two_million :
  Slots.price_range (extract_slots "2 میلیون")
  = Some {| pr_min := 0; pr_max := 2000000 |}.
Proof. by vm_compute. Qed.

Lemma extract_slots_price_range_witness :
  let text := "تا 2 میلیون از 15 هزار تومان" in
  let prices := price_of_match <$> re_findall (slot_pattern "price") text in
  prices = [2000000; 15000]
  ∧ Slots.price_range (extract_slots "از 15 هزار تومان تا 2 میلیون")
    = Slots.price_range (extract_slots text)
  ∧ ∃ lo hi, Slots.price_range (extract_slots text)
             = Some {| pr_min := lo; pr_max := hi |}
             ∧ lo ∈ prices ∧ hi ∈ prices ∧ ∀ p, p ∈ prices → lo ≤ p ≤ hi.
Proof.
  destruct (extract_slots_price_range "تا 2 میلیون از 15 هزار تومان")
    as (_ & _ & Htwo & Horder).
  split; [by vm_compute|]. split.
  - apply Horder. vm_compute. apply Permutation_swap.
  - apply Htwo. vm_compute. lia.
Defined.

(** ** The confidence score *)

Lemma slot_count_range slots : 0 ≤ slot_count slots ≤ 6.
Proof. unfold slot_count. repeat case_match; lia. Qed.

Lemma calculate_confidence_at intent slots :
  calculate_confidence intent slots
  = confidence_at (bool_decide (intent ≠ GENERAL)) (slot_count slots).
Proof.
  unfold calculate_confidence, confidence_at.
  case_bool_decide; by destruct (decide (intent ≠ GENERAL)).
Qed.

Lemma spec_confidence_at intent filled :
  spec_confidence intent filled
  = Qmin ((1 # 2) + (if bool_decide (intent ≠ GENERAL) then 2 # 10 else 0)
          + Qmin (inject_Z filled * (1 # 10)) (3 # 10)) 1.
Proof.
  unfold spec_confidence.
  case_bool_decide; by destruct (decide (intent ≠ GENERAL)).
Qed.

Ltac count_cases n Hn :=
  assert (n = 0 ∨ n = 1 ∨ n = 2 ∨ n = 3 ∨ n = 4 ∨ n = 5 ∨ n = 6)
    as [->|[->|[->|[->|[->|[->| ->]]]]]] by lia; clear Hn.

(** Only a quantity of zero separates the fields Python treats as true
    from the fields that hold something. *)
Lemma slot_count_nonempty_fields slots :
  Slots.quantity slots ≠ Some 0 → slot_count slots = nonempty_fields slots.
Proof.
  unfold slot_count, nonempty_fields, truthy_int. intros Hq.
  destruct (Slots.quantity slots) as [q|]; [|done].
  destruct (Z.eqb_spec q 0) as [->|]; done.
Qed.

(** X24: the confidence [calculate_confidence] computes lies between
    0.5 and 1.0; it is the binary64 value of 0.5, plus 0.2 unless the
    intent is GENERAL, plus 0.1 per slot field Python treats as true up
    to 0.3, capped at 1.0, which is within 2^-52 of that sum in exact
    arithmetic; the fields it counts are the fields that hold something
    whenever the quantity is not 0; and for a fixed intent the value does
    not decrease when more fields are counted, and increases as long as
    at most three are. *)
Theorem calculate_confidence_bounded_monotone intent slots :
  let c := calculate_confidence intent slots in
  (0.5 <=? c)%float = true ∧ (c <=? 1.0)%float = true
  ∧ c = min_float ((if decide (intent ≠ GENERAL) then 0.5 + 0.2 else 0.5)
                   + min_float (float_of_int (slot_count slots) * 0.1) 0.3)%float 1.0
  ∧ (Qabs (Q_of_float c - spec_confidence intent (slot_count slots))
       <= 1 # 2 ^ 52)%Q
  ∧ (Slots.quantity slots ≠ Some 0 → slot_count slots = nonempty_fields slots)
  ∧ ∀ slots',
      let c' := calculate_confidence intent slots' in
      (slot_count slots ≤ slot_count slots' → (c <=? c')%float = true)
      ∧ (slot_count slots < slot_count slots' ≤ 3 → (c <? c')%float = true).
Proof.
  intros c. unfold c.
  split_and!; [| | | |apply slot_count_nonempty_fields|];
    rewrite ?spec_confidence_at, ?calculate_confidence_at;
    pose proof (slot_count_range slots) as Hn;
    generalize dependent (slot_count slots); intros n Hn.
  - count_cases n Hn; destruct (bool_decide _); by vm_compute.
  - count_cases n Hn; destruct (bool_decide _); by vm_compute.
  - unfold confidence_at. case_bool_decide; by destruct (decide (intent ≠ GENERAL)).
  - count_cases n Hn; destruct (bool_decide _);
      apply Qle_bool_imp_le; by vm_compute.
  - intros slots'. simpl. rewrite calculate_confidence_at.
    pose proof (slot_count_range slots') as Hn'.
    generalize dependent (slot_count slots'). intros n' Hn'.
    split; intros Hle;
      count_cases n Hn; count_cases n' Hn';
      try lia; destruct (bool_decide _); by vm_compute.
Qed.

(** C7 fails on the code for a quantity of zero: [extract_slots] fills
    one slot field of the text below, the quantity, with 0, and the
    confidence computed for the slots is 0.5 and not 0.5 + 0.1. *)
Lemma calculate_confidence_zero_quantity :
  let slots := extract_slots "0 عدد" in
  Slots.quantity slots = Some 0
  ∧ nonempty_fields slots = 1
  ∧ calculate_confidence GENERAL slots = 0.5%float
  ∧ calculate_confidence GENERAL slots ≠ (0.5 + 0.1)%float.
Proof.
  split_and!; [by vm_compute..|].
  intros Heq. assert (Hb : (0.5 =? 0.5 + 0.1)%float = true).
  { rewrite <- Heq. by vm_compute. }
  by vm_compute in Hb.
Qed.

Lemma calculate_confidence_bounded_monotone_witness :
  let one := extract_slots "گوشی سامسونگ" in
  let two := extract_slots "گوشی سامسونگ 2 میلیون" in
  slot_count one = 1 ∧ slot_count two = 2
  ∧ (calculate_confidence PRICE_CHECK one <? calculate_confidence PRICE_CHECK two)%float
    = true.
Proof.
  split; [by vm_compute|]. split; [by vm_compute|].
  apply (calculate_confidence_bounded_monotone PRICE_CHECK (extract_slots "گوشی سامسونگ")).
  vm_compute. split; [done|]. by intros ?.
Defined.

(** The fourteen values.  A quantity of zero does not count as a filled
    field. *)
Example confidence_values :
  (confidence_at false <$> [0; 1; 2; 3; 6]) = [0.5; 0.6; 0.7; 0.8; 0.8]%float
  ∧ (confidence_at true <$> [0; 1; 2; 3; 6])
    = [0.7; 0.7999999999999999; 0.8999999999999999; 1.0; 1.0]%float
  ∧ slot_count (extract_slots "0 عدد") = 0.
Proof. by vm_compute. Qed.

Lemma detect_intent_first_maximum_witness :
  detect_intent "سلام قیمت" ≠ GENERAL
  ∧ ∃ before after,
      intent_order = before ++ detect_intent "سلام قیمت" :: after
      ∧ 0 < match_count (str_lower "سلام قیمت") (detect_intent "سلام قیمت")
      ∧ (∀ intent, intent ∈ before →
           match_count (str_lower "سلام قیمت") intent
           < match_count (str_lower "سلام قیمت") (detect_intent "سلام قیمت"))
      ∧ (∀ intent, intent ∈ after →
           match_count (str_lower "سلام قیمت") intent
           ≤ match_count (str_lower "سلام قیمت") (detect_intent "سلام قیمت")).
Proof.
  assert (Hne : detect_intent "سلام قیمت" ≠ GENERAL) by by vm_compute.
  split; [done|].
  by apply (detect_intent_first_maximum "سلام قیمت").
Defined.

(** A tie between the first and the last intent of the order goes to
    the first. *)
Example detect_intent_tie :
  match_count "سلام قیمت" PRICE_CHECK = 1
  ∧ match_count "سلام قیمت" GREETING = 1
  ∧ detect_intent "سلام قیمت" = PRICE_CHECK
  ∧ detect_intent "گوشی" = GENERAL.
Proof. by vm_compute. Qed.

End IntentFacts.

(* ===================================================================== *)
(** * The reranker and the store of documents *)
(* ===================================================================== *)

Module RerankerFacts.
Import Py PyFacts RerankerService.

Lemma zip_with_image {A B} (f : A → B) (l : list A) :
  zip l (f <$> l) = (λ x, (x, f x)) <$> l.
Proof. induction l as [|x l IH]; csimpl; [done|]. by rewrite IH. Qed.

(** The loop that writes the scores, when the score written for a
    document is a function of the document: afterwards every document
    of the list carries its score, and nothing else has changed. *)
Lemma set_scores_lookup (v : loc → Q) (documents : list loc) (h : store) doc :
  foldl (λ h '(doc, s), alter (RetrievedDocument.set_score s) doc h) h
        ((λ doc, (doc, v doc)) <$> documents) !! doc
  = if decide (doc ∈ documents)
    then RetrievedDocument.set_score (v doc) <$> h !! doc
    else h !! doc.
Proof.
  revert h. induction documents as [|d documents IH]; intros h; csimpl.
  - by destruct (decide (doc ∈ [])) as [Hin%elem_of_nil|].
  - rewrite IH. destruct (decide (doc = d)) as [->|Hne].
    + rewrite lookup_alter_eq, (decide_True _ _ (list_elem_of_here d documents)).
      destruct (decide (d ∈ documents)); [|done].
      by destruct (h !! d).
    + rewrite lookup_alter_ne by done.
      destruct (decide (doc ∈ documents)) as [Hin|Hout].
      * by rewrite decide_True by by apply list_elem_of_further.
      * rewrite decide_False; [done|]. by apply not_elem_of_cons.
Qed.

(** The loop that writes the ranks. *)
Lemma set_ranks_lookup (ranked : list (Z * loc)) (h : store) doc :
  foldl (λ h '(i, doc), alter (RetrievedDocument.set_rank (i + 1)) doc h) h ranked
    !! doc
  = match last_rank doc ranked with
    | Some r => RetrievedDocument.set_rank r <$> h !! doc
    | None => h !! doc
    end.
Proof.
  revert h. induction ranked as [|[i d] ranked IH]; intros h; simpl; [done|].
  rewrite IH. destruct (decide (doc = d)) as [->|Hne].
  - rewrite lookup_alter_eq.
    destruct (last_rank d ranked); [|done]. by destruct (h !! d).
  - rewrite lookup_alter_ne by done. by destruct (last_rank doc ranked).
Qed.

Section WithEnvironment.
Context `{Services} (settings : Settings.t).

Lemma rerank_unfold query documents top_k h :
  documents ≠ [] →
  rerank settings query documents top_k h
  = let h1 := scored query documents h in
    let reranked :=
      slice_to (sorted_desc (score_at h1) documents)
               (or_default top_k (Settings.RERANK_TOP_K settings)) in
    (reranked, update_ranks reranked h1).
Proof. by destruct documents. Qed.

Lemma predict_pairs query documents (h : store) :
  predict ((λ doc, (query, text_at h doc)) <$> documents)
  = (λ doc, cross_encoder query (text_at h doc)) <$> documents.
Proof. unfold predict. by rewrite <- list_fmap_compose. Qed.

Lemma scored_lookup query documents h doc :
  scored query documents h !! doc
  = if decide (doc ∈ documents)
    then RetrievedDocument.set_score (cross_encoder query (text_at h doc)) <$> h !! doc
    else h !! doc.
Proof.
  unfold scored, update_scores. rewrite predict_pairs, zip_with_image.
  apply (set_scores_lookup (λ doc, cross_encoder query (text_at h doc))).
Qed.

Lemma update_ranks_lookup reranked h doc :
  update_ranks reranked h !! doc
  = match last_rank doc (enumerate reranked) with
    | Some r => RetrievedDocument.set_rank r <$> h !! doc
    | None => h !! doc
    end.
Proof. apply set_ranks_lookup. Qed.

(** Neither loop touches the product of a document, so the text of a
    document is the same before and after. *)
Lemma scored_text query documents h doc :
  text_at (scored query documents h) doc = text_at h doc.
Proof.
  unfold text_at. rewrite scored_lookup.
  destruct (decide _), (h !! doc); done.
Qed.

Lemma update_ranks_text reranked h doc :
  text_at (update_ranks reranked h) doc = text_at h doc.
Proof.
  unfold text_at. rewrite update_ranks_lookup.
  destruct (last_rank _ _), (h !! doc); done.
Qed.

Lemma update_ranks_score reranked h doc :
  score_at (update_ranks reranked h) doc = score_at h doc.
Proof.
  unfold score_at. rewrite update_ranks_lookup.
  destruct (last_rank _ _), (h !! doc); done.
Qed.

Lemma scored_score query documents h doc :
  doc ∈ documents → is_Some (h !! doc) →
  score_at (scored query documents h) doc = cross_encoder query (text_at h doc).
Proof.
  intros Hin [d Hd]. unfold score_at.
  by rewrite scored_lookup, decide_True, Hd.
Qed.

(** Writing the same scores and the same ranks a second time changes
    nothing. *)
Lemma scored_twice query documents reranked h :
  scored query documents (update_ranks reranked (scored query documents h))
  = update_ranks reranked (scored query documents h).
Proof.
  apply map_eq. intros doc.
  rewrite (scored_lookup query documents (update_ranks _ _)).
  rewrite update_ranks_text, scored_text.
  destruct (decide (doc ∈ documents)) as [Hin|Hout]; [|done].
  rewrite update_ranks_lookup, scored_lookup, decide_True by done.
  destruct (last_rank _ _), (h !! doc); done.
Qed.

Lemma update_ranks_twice reranked h :
  update_ranks reranked (update_ranks reranked h) = update_ranks reranked h.
Proof.
  apply map_eq. intros doc. rewrite !update_ranks_lookup.
  destruct (last_rank _ _), (h !! doc); done.
Qed.

(** C10: [rerank] writes into the documents it is given.  After a call
    with a non-empty list, every document of that list, whether or not
    it is among the returned ones, carries the cross-encoder score of
    its text in place of the score it had, its product being untouched;
    and the returned list holds references of the input list, not
    copies. *)
Theorem rerank_overwrites_input_scores query documents top_k h :
  documents ≠ [] →
  let reranked := (rerank settings query documents top_k h).1 in
  let h' := (rerank settings query documents top_k h).2 in
  (∀ doc, doc ∈ reranked → doc ∈ documents)
  ∧ ∀ doc d, doc ∈ documents → h !! doc = Some d →
      ∃ d', h' !! doc = Some d'
            ∧ RetrievedDocument.product d' = RetrievedDocument.product d
            ∧ RetrievedDocument.score d'
              = cross_encoder query (doc_text (RetrievedDocument.product d)).
Proof.
  intros Hne. rewrite (rerank_unfold query documents top_k h Hne). simpl. split.
  - intros doc Hin%slice_to_elem_of. by rewrite sorted_desc_perm in Hin.
  - intros doc d Hin Hd.
    rewrite update_ranks_lookup, scored_lookup, decide_True, Hd by done.
    unfold text_at. rewrite Hd.
    destruct (last_rank _ _); by eexists.
Qed.

(** C9: on a list of stored documents that is already in descending
    order of the cross-encoder score and no longer than top-M (the
    argument, or the configured [RERANK_TOP_K] when the argument is absent
    or zero), [rerank] returns the list as it is, and a second call on
    what it returned returns the same list and leaves the store, hence
    every score and every rank, as the first call left it. *)
Theorem rerank_idempotent query documents top_k h :
  (∀ doc, doc ∈ documents → is_Some (h !! doc)) →
  StronglySorted (desc (λ doc, cross_encoder query (text_at h doc))) documents →
  (Z.of_nat (length documents) ≤ or_default top_k (Settings.RERANK_TOP_K settings))%Z →
  let first := rerank settings query documents top_k h in
  let second := rerank settings query first.1 top_k first.2 in
  first.1 = documents ∧ second.1 = first.1 ∧ second.2 = first.2.
Proof.
  intros Hstored Hsorted Hsize first second.
  destruct (decide (documents = [])) as [->|Hne]; [done|].
  set (k := or_default top_k (Settings.RERANK_TOP_K settings)) in *.
  set (v := λ doc, cross_encoder query (text_at h doc)) in *.
  assert (Hkeep : ∀ key : loc → Q,
            Forall (λ doc, key doc = v doc) documents →
            slice_to (sorted_desc key documents) k = documents).
  { intros key Hkey.
    rewrite (sorted_desc_ext key v) by done.
    rewrite (sorted_desc_id v) by done. by apply slice_to_all. }
  assert (Hfirst : first
            = (documents, update_ranks documents (scored query documents h))).
  { unfold first. rewrite rerank_unfold by done. simpl. fold k.
    rewrite Hkeep; [done|].
    apply Forall_forall. intros doc Hin. by apply scored_score; [|apply Hstored]. }
  assert (Hsecond : second = first).
  { unfold second. rewrite Hfirst. simpl.
    rewrite rerank_unfold by done. simpl. fold k.
    rewrite scored_twice.
    rewrite Hkeep; [by rewrite update_ranks_twice|].
    apply Forall_forall. intros doc Hin.
    rewrite update_ranks_score. by apply scored_score; [|apply Hstored]. }
  rewrite Hsecond, Hfirst. done.
Qed.

End WithEnvironment.

(** The store of the example: four documents and a top-M of three.  The
    document at reference 0 is the one cut off; its score is overwritten
    all the same. *)
Example rerank_four_documents :
  let result := rerank Settings.defaults "q" [0; 1; 2; 3]%nat None Example.four_documents in
  result.1 = [1; 3; 2]%nat
  ∧ RetrievedDocument.score <$> Example.four_documents !! 0%nat = Some (9 # 10)
  ∧ RetrievedDocument.score <$> result.2 !! 0%nat = Some (9 # 1)
  ∧ RetrievedDocument.rank <$> result.2 !! 0%nat = Some None.
Proof. by vm_compute. Qed.

Lemma rerank_overwrites_input_scores_witness :
  let result := rerank Settings.defaults "q" [0; 1; 2; 3]%nat None Example.four_documents in
  (0%nat ∉ result.1)
  ∧ ∃ d', result.2 !! 0%nat = Some d'
          ∧ RetrievedDocument.product d' = Example.nokia
          ∧ RetrievedDocument.score d' = cross_encoder "q" (doc_text Example.nokia).
Proof.
  intros result. split.
  - replace result.1 with [1; 3; 2]%nat by by vm_compute.
    rewrite !not_elem_of_cons. split_and!; try done. apply not_elem_of_nil.
  - destruct (rerank_overwrites_input_scores Settings.defaults "q" [0; 1; 2; 3]%nat
                None Example.four_documents ltac:(done)) as [_ Hover].
    apply (Hover 0%nat (Example.document Example.nokia (9 # 10))).
    + apply list_elem_of_here.
    + by vm_compute.
Defined.

Lemma rerank_idempotent_witness :
  let first := rerank Settings.defaults "q" [1; 3; 2]%nat None Example.four_documents in
  let second := rerank Settings.defaults "q" first.1 None first.2 in
  first.1 = [1; 3; 2]%nat ∧ second.1 = first.1 ∧ second.2 = first.2.
Proof.
  apply (rerank_idempotent Settings.defaults "q" [1; 3; 2]%nat None Example.four_documents).
  - intros doc Hin.
    repeat (apply elem_of_cons in Hin as [->|Hin];
            [apply (bool_decide_unpack _); by vm_compute|]).
    by apply elem_of_nil in Hin.
  - repeat (apply StronglySorted_cons; split; [repeat constructor; by vm_compute|]).
    constructor.
  - by vm_compute.
Defined.

End RerankerFacts.

(* ===================================================================== *)
(** * The pipeline graph *)
(* ===================================================================== *)

Module PipelineFacts.
Import Py PyFacts RAGPipeline.

Section WithEnvironment.
Context `{PyRuntime} `{Services} (settings : Settings.t) (ttls : CacheTTL.t).

#[local] Opaque IntentDetector.parse_query MultiQueryRetriever.retrieve
  RerankerService.rerank truthy_str PersianPreprocessor.preprocess allocate.

(** Only [check_cache] writes [from_cache]. *)
Lemma node_keeps_from_cache n w state w' state' :
  n ≠ n_check_cache →
  node_fn settings ttls n w state = Some (w', state') →
  RAGState.from_cache state' = RAGState.from_cache state.
Proof.
  intros Hn Hrun. destruct n; try done; simpl in Hrun.
  - unfold preprocess in Hrun. by simplify_eq.
  - unfold detect_intent in Hrun.
    destruct (RAGState.normalized_query state); by simplify_eq/=.
  - unfold retrieve in Hrun.
    destruct (RAGState.normalized_query state); simplify_eq/=.
    destruct (allocate _ _). by simplify_eq.
  - unfold rerank in Hrun.
    destruct (RAGState.normalized_query state); simplify_eq/=.
    destruct (default [] _); [by simplify_eq|].
    destruct (RerankerService.rerank _ _ _ _ _). by simplify_eq.
  - unfold generate in Hrun. by simplify_eq.
  - unfold cache_response in Hrun.
    destruct (RAGState.final_response state); simplify_eq/=.
    destruct (CacheService.set_cached_response _ _ _ _ _); by simplify_eq/=.
Qed.

(** A step that leaves [from_cache] set ends the run. *)
Lemma step_from_cache n w state c :
  step settings ttls n w state = Some c →
  RAGState.from_cache state = false →
  RAGState.from_cache c.2 = true → c.1.1 = END.
Proof.
  unfold step. intros Hstep Hfalse Htrue.
  destruct (node_fn settings ttls n w state) as [[w' state']|] eqn:Hnode; [|done].
  simpl in Hstep.
  destruct (route n state') as [target|] eqn:Hroute; [|done].
  simpl in Hstep. injection Hstep as <-. simpl in *.
  destruct (decide (n = n_check_cache)) as [->|Hn].
  - unfold route in Hroute. simpl in Hroute.
    unfold should_use_cache in Hroute. rewrite Htrue in Hroute.
    by injection Hroute as <-.
  - rewrite (node_keeps_from_cache n w state w' state' Hn Hnode) in Htrue. congruence.
Qed.

Lemma reachable_from_cache query user_id session_id w c :
  rtc (steps_to settings ttls) (initial_config query user_id session_id w) c →
  RAGState.from_cache c.2 = true → c.1.1 = END.
Proof.
  revert c. apply (rtc_ind_r (λ c, RAGState.from_cache c.2 = true → c.1.1 = END));
    [done|].
  intros c c' Hreach Hstep IH.
  destruct Hstep as [n w0 state c' Hstep]. simpl in IH.
  apply (step_from_cache n w0 state c' Hstep).
  destruct (RAGState.from_cache state); [by specialize (IH eq_refl)|done].
Qed.

Lemma END_is_final c c' : c.1.1 = END → rtc (steps_to settings ttls) c c' → c' = c.
Proof.
  intros Hend Hsteps. destruct Hsteps as [|c c1 c2 Hstep _]; [done|].
  by destruct Hstep.
Qed.

(** The two conditional edges. *)
Lemma route_check_cache state :
  route n_check_cache state
  = Some (if RAGState.from_cache state then END else to n_preprocess).
Proof.
  unfold route. simpl. unfold should_use_cache.
  destruct (RAGState.from_cache state); reflexivity.
Qed.

Lemma route_detect_intent state :
  route n_detect_intent state
  = Some (if decide (RAGState.intent state = Some GREETING)
          then to n_generate else to n_retrieve).
Proof.
  unfold route. simpl. unfold should_retrieve.
  destruct (decide (RAGState.intent state = Some GREETING)); reflexivity.
Qed.

(** Running one node of the graph. *)
Lemma exec_node fuel n trace w state w' state' target :
  node_fn settings ttls n w state = Some (w', state') →
  route n state' = Some target →
  exec settings ttls (S fuel) (to n) trace w state
  = exec settings ttls fuel target (trace ++ [n]) w' state'.
Proof. intros Hnode Hroute. simpl. unfold step. by rewrite Hnode; simpl; rewrite Hroute. Qed.

Ltac exec_node_by tac :=
  erewrite exec_node;
  [ | cbn [node_fn];
      unfold check_cache, preprocess, detect_intent, retrieve, rerank, generate,
        cache_response;
      simpl; tac; reflexivity
    | first [rewrite route_check_cache | rewrite route_detect_intent | idtac];
      simpl; reflexivity ].

Ltac exec_node := exec_node_by idtac.

(** The write of [cache_response] is made with the configured expiry
    time of responses. *)
Lemma set_cached_response_default redis query response :
  CacheService.set_cached_response ttls redis query response None
  = if 0 <? CacheTTL.CACHE_RESPONSE_TTL ttls
    then Some (<["response:" +:+ CacheService.hash_query query := response]> redis)
    else None.
Proof. done. Qed.

(** Running [cache_response], the last node: the run returns when the
    write does, and is stopped when the write is refused. *)
Lemma exec_cache_response fuel trace w state response :
  RAGState.final_response state = Some response →
  exec settings ttls (S fuel) (to n_cache_response) trace w state
  = match CacheService.set_cached_response ttls (World.cache w)
            (RAGState.query state) response None with
    | Some cache =>
        Finished (trace ++ [n_cache_response])
          {| World.cache := cache;
             World.objects := World.objects w;
             World.next_loc := World.next_loc w |}
          state
    | None => Raised (trace ++ [n_cache_response])
    end.
Proof.
  intros Hfinal. simpl. unfold step. cbn [node_fn]. unfold cache_response.
  rewrite Hfinal. simpl.
  destruct (CacheService.set_cached_response _ _ _ _ _); [|done].
  by destruct fuel.
Qed.

(** The three runs of the graph. *)
Lemma run_cache_hit query user_id session_id w :
  truthy_str (CacheService.get_cached_response (World.cache w) query) = true →
  ∃ state',
    run settings ttls query user_id session_id w = Finished [n_check_cache] w state'
    ∧ RAGState.from_cache state' = true
    ∧ RAGState.final_response state'
       = CacheService.get_cached_response (World.cache w) query.
Proof.
  intros Hhit. unfold run, entry_point.
  exec_node_by ltac:(rewrite Hhit). simpl. by eexists.
Qed.

Lemma run_cache_miss query user_id session_id w :
  truthy_str (CacheService.get_cached_response (World.cache w) query) = false →
  let detected :=
    ParsedQuery.intent
      (IntentDetector.parse_query (PersianPreprocessor.preprocess query) query) in
  let trace :=
    if decide (detected = GREETING)
    then [n_check_cache; n_preprocess; n_detect_intent;
          n_generate; n_cache_response]
    else [n_check_cache; n_preprocess; n_detect_intent; n_retrieve;
          n_rerank; n_generate; n_cache_response] in
  if 0 <? CacheTTL.CACHE_RESPONSE_TTL ttls then
    ∃ w' state',
      run settings ttls query user_id session_id w = Finished trace w' state'
      ∧ RAGState.intent state' = Some detected
      ∧ RAGState.from_cache state' = false
  else run settings ttls query user_id session_id w = Raised trace.
Proof.
  intros Hmiss detected trace. unfold trace, run, entry_point. clear trace.
  exec_node_by ltac:(rewrite Hmiss).
  exec_node. exec_node. fold detected.
  destruct (decide (detected = GREETING)) as [Heq|Hne].
  - rewrite decide_True by by rewrite Heq.
    exec_node. erewrite exec_cache_response by reflexivity.
    rewrite set_cached_response_default.
    destruct (0 <? _); [|done]. by do 2 eexists.
  - rewrite decide_False by congruence.
    destruct (allocate
                (MultiQueryRetriever.retrieve settings (PersianPreprocessor.preprocess query)
                   (Some detected)
                   (Some (ParsedQuery.slots
                            (IntentDetector.parse_query
                               (PersianPreprocessor.preprocess query) query))))
                w) as [retrieved w1] eqn:Halloc.
    exec_node_by ltac:(fold detected; rewrite Halloc).
    destruct retrieved as [|doc retrieved].
    + exec_node. exec_node. erewrite exec_cache_response by reflexivity.
      rewrite set_cached_response_default.
      destruct (0 <? _); [|done]. by do 2 eexists.
    + destruct (RerankerService.rerank settings (PersianPreprocessor.preprocess query)
                  (doc :: retrieved) None (World.objects w1))
        as [reranked objects] eqn:Hrerank.
      exec_node_by ltac:(rewrite Hrerank).
      exec_node. erewrite exec_cache_response by reflexivity.
      rewrite set_cached_response_default.
      destruct (0 <? _); [|done]. by do 2 eexists.
Qed.

(** X23: the cache answers alone.  When the lookup of [check_cache]
    returns a value that is not the empty string, the run ends after
    [check_cache], no other node having run and the cache and the
    documents being as they were, with [from_cache] set and the cached
    value as the final response.  And [from_cache] is set on the way to
    [END] only: in every configuration a run can reach, once it is set
    the machine has stopped, so no later configuration has another final
    response. *)
Theorem cache_hit_short_circuits query user_id session_id w :
  (∀ cached,
     CacheService.get_cached_response (World.cache w) query = Some cached →
     cached ≠ "" →
     ∃ state',
       run settings ttls query user_id session_id w = Finished [n_check_cache] w state'
       ∧ RAGState.from_cache state' = true
       ∧ RAGState.final_response state' = Some cached)
  ∧ ∀ c,
      rtc (steps_to settings ttls) (initial_config query user_id session_id w) c →
      RAGState.from_cache c.2 = true →
      c.1.1 = END
      ∧ ∀ c', rtc (steps_to settings ttls) c c' →
              RAGState.final_response c'.2 = RAGState.final_response c.2.
Proof.
  split.
  - intros cached Hcached Hne.
    destruct (run_cache_hit query user_id session_id w) as (state' & Hrun & Hflag & Hfinal).
    { rewrite Hcached. by apply truthy_str_Some. }
    exists state'. by rewrite Hfinal, Hcached in *.
  - intros c Hreach Hset.
    pose proof (reachable_from_cache _ _ _ _ _ Hreach Hset) as Hend.
    split; [done|]. intros c' Hsteps. by rewrite (END_is_final c c' Hend Hsteps).
Qed.

(** C8: after [detect_intent] the graph goes to [generate] when the
    intent is GREETING and to [retrieve] otherwise.  Every run ends: it
    returns when the configured expiry time of responses is positive,
    and is otherwise stopped only by the refused write of
    [cache_response], its last node.  A run in which [detect_intent] has
    executed consists, for the intent GREETING, of [check_cache],
    [preprocess], [detect_intent], [generate] and [cache_response],
    neither [retrieve] nor [rerank] being among them, and for any other
    intent of all seven nodes in their order, whether it returns or is
    stopped. *)
Theorem greeting_skips_retrieval query user_id session_id w :
  (∀ state,
     route n_detect_intent state
     = Some (if decide (RAGState.intent state = Some GREETING)
             then to n_generate else to n_retrieve))
  ∧ (0 < CacheTTL.CACHE_RESPONSE_TTL ttls →
     ∃ trace w' state',
       run settings ttls query user_id session_id w = Finished trace w' state')
  ∧ (∀ trace w' state',
       run settings ttls query user_id session_id w = Finished trace w' state' →
       n_detect_intent ∈ trace →
       ∃ detected,
         RAGState.intent state' = Some detected
         ∧ (detected = GREETING →
            trace = [n_check_cache; n_preprocess; n_detect_intent;
                     n_generate; n_cache_response])
         ∧ (detected ≠ GREETING →
            trace = [n_check_cache; n_preprocess; n_detect_intent; n_retrieve;
                     n_rerank; n_generate; n_cache_response]))
  ∧ run settings ttls query user_id session_id w ≠ OutOfFuel
  ∧ ∀ trace,
      run settings ttls query user_id session_id w = Raised trace →
      let detected :=
        ParsedQuery.intent
          (IntentDetector.parse_query (PersianPreprocessor.preprocess query) query) in
      CacheTTL.CACHE_RESPONSE_TTL ttls ≤ 0
      ∧ (detected = GREETING →
         trace = [n_check_cache; n_preprocess; n_detect_intent;
                  n_generate; n_cache_response])
      ∧ (detected ≠ GREETING →
         trace = [n_check_cache; n_preprocess; n_detect_intent; n_retrieve;
                  n_rerank; n_generate; n_cache_response]).
Proof.
  split; [apply route_detect_intent|].
  destruct (truthy_str (CacheService.get_cached_response (World.cache w) query)) eqn:Hlookup.
  - destruct (run_cache_hit query user_id session_id w Hlookup)
      as (state1 & Hrun & _).
    rewrite Hrun. split_and!; [by do 3 eexists| |done|done].
    intros trace w' state' [= <- _ _] Hin.
    by apply list_elem_of_singleton in Hin.
  - pose proof (run_cache_miss query user_id session_id w Hlookup) as Hmiss.
    cbv zeta in Hmiss.
    destruct (Z.ltb_spec 0 (CacheTTL.CACHE_RESPONSE_TTL ttls)) as [Httl|Httl].
    + destruct Hmiss as (w1 & state1 & Hrun & Hintent & _).
      rewrite Hrun. split_and!; [by do 3 eexists| |done|done].
      intros trace w' state' [= <- <- <-] Hin.
      eexists. split; [done|].
      split; intros Hd; [by rewrite decide_True|by rewrite decide_False].
    + rewrite Hmiss. split_and!; [lia|done|done|].
      intros trace [= <-]. cbv zeta. split; [done|].
      split; intros Hd; [by rewrite decide_True|by rewrite decide_False].
Qed.

End WithEnvironment.

(** The runs of the example: a warm cache answers the cached query, a
    greeting skips retrieval, a price question goes through all seven
    nodes. *)
(** C2 fails on the code for a cached empty string: the lookup of
    [check_cache] finds the key of the query, and yet the run goes through
    the later nodes, generates an answer and ends with [from_cache]
    unset. *)
Lemma cached_empty_response_is_a_miss :
  CacheService.get_cached_response (World.cache Example.stale) Example.greeting_query
  = Some ""
  ∧ match run Settings.defaults CacheTTL.defaults Example.greeting_query "u1" None
            Example.stale with
    | Finished trace _ state =>
        trace = [n_check_cache; n_preprocess; n_detect_intent;
                 n_generate; n_cache_response]
        ∧ RAGState.from_cache state = false
        ∧ RAGState.final_response state ≠ Some ""
    | _ => False
    end.
Proof. split; [by vm_compute|]. vm_compute. split_and!; done. Qed.

Lemma cache_hit_short_circuits_witness :
  ∃ state',
    run Settings.defaults CacheTTL.defaults Example.cached_query "u1" None Example.warm
    = Finished [n_check_cache] Example.warm state'
    ∧ RAGState.from_cache state' = true
    ∧ RAGState.final_response state' = Some "2 روز".
Proof.
  destruct (cache_hit_short_circuits Settings.defaults CacheTTL.defaults
              Example.cached_query "u1" None Example.warm) as [Hhit _].
  apply (Hhit "2 روز"); [by vm_compute|done].
Defined.

Lemma greeting_skips_retrieval_witness :
  ∃ w' state',
    run Settings.defaults CacheTTL.defaults Example.greeting_query "u1" None Example.cold
    = Finished [n_check_cache; n_preprocess; n_detect_intent;
                n_generate; n_cache_response] w' state'
    ∧ RAGState.intent state' = Some GREETING.
Proof.
  destruct (greeting_skips_retrieval Settings.defaults CacheTTL.defaults
              Example.greeting_query "u1" None Example.cold)
    as (_ & Hfinishes & Htrace & _).
  destruct Hfinishes as (trace & w' & state' & Hrun); [done|].
  destruct (Htrace trace w' state' Hrun) as (detected & Hintent & Hgreeting & _).
  - assert (Hfst : match run Settings.defaults CacheTTL.defaults
                           Example.greeting_query "u1" None Example.cold with
                   | Finished trace _ _ => bool_decide (n_detect_intent ∈ trace)
                   | _ => false
                   end = true) by by vm_compute.
    rewrite Hrun in Hfst. by apply bool_decide_eq_true in Hfst.
  - assert (Hsnd : match run Settings.defaults CacheTTL.defaults
                           Example.greeting_query "u1" None Example.cold with
                   | Finished _ _ state => RAGState.intent state
                   | _ => None
                   end = Some GREETING) by by vm_compute.
    rewrite Hrun in Hsnd. rewrite Hsnd in Hintent. injection Hintent as <-.
    exists w', state'. by rewrite <- Hgreeting.
Defined.

Example run_price_query :
  match run Settings.defaults CacheTTL.defaults Example.price_query "u1" None
          Example.cold with
  | Finished trace w state =>
      trace = [n_check_cache; n_preprocess; n_detect_intent; n_retrieve;
               n_rerank; n_generate; n_cache_response]
      ∧ RAGState.intent state = Some PRICE_CHECK
      ∧ (Slots.brand <$> RAGState.slots state) = Some (Some "سامسونگ")
      ∧ RAGState.retrieved_docs state = Some [0; 1; 2]%nat
      ∧ RAGState.reranked_docs state = Some [0; 1; 2]%nat
      ∧ (RetrievedDocument.score <$> World.objects w !! 0%nat) = Some (31 # 1)
      ∧ World.cache w !! ("response:" +:+ Example.price_query)
        = RAGState.final_response state
  | _ => False
  end.
Proof. by vm_compute. Qed.

(** With an expiry time of responses that is not positive the same run
    is stopped at [cache_response], after the answer has been
    generated. *)
Example run_refused_write :
  run Settings.defaults
      {| CacheTTL.CACHE_RESPONSE_TTL := 0; CacheTTL.CACHE_EMBEDDING_TTL := 86400;
         CacheTTL.CACHE_PRODUCT_TTL := 3600; CacheTTL.CACHE_SESSION_TTL := 1800 |}
      Example.price_query "u1" None Example.cold
  = Raised [n_check_cache; n_preprocess; n_detect_intent; n_retrieve;
            n_rerank; n_generate; n_cache_response].
Proof. by vm_compute. Qed.

End PipelineFacts.

(* ===================================================================== *)
(** * Comparison items *)
(* ===================================================================== *)

Module SlotFacts.
Import Py PyFacts IntentDetector.

(** The loop over the tokens, by positions: an element is collected
    when it stands next to a connector that has a token on either side;
    [prev] is the token before the first one. *)
Lemma comparison_neighbours_spec prev tokens x :
  x ∈ comparison_neighbours prev tokens ↔
  ∃ i before token after,
    (prev :: (Some <$> tokens)) !! i = Some (Some before)
    ∧ tokens !! i = Some token
    ∧ tokens !! S i = Some after
    ∧ (token = OR_TOKEN ∨ token = AND_TOKEN)
    ∧ (x = before ∨ x = after).
Proof.
  revert prev. induction tokens as [|token [|next rest] IH]; intros prev.
  - simpl. split; [by intros ?%elem_of_nil|]. by intros (i & ? & ? & ? & _ & ? & _).
  - simpl. split; [by intros ?%elem_of_nil|].
    intros ([|i] & ? & ? & ? & _ & _ & ? & _); done.
  - change (comparison_neighbours prev (token :: next :: rest))
      with ((if bool_decide (token = OR_TOKEN ∨ token = AND_TOKEN) then
               match prev with
               | Some before => [before; next]
               | None => []
               end
             else []) ++ comparison_neighbours (Some token) (next :: rest)).
    rewrite elem_of_app, IH. split.
    + intros [Hhere|(i & before & tok & after & Hb & Ht & Ha & Hc & Hx)].
      * case_bool_decide as Hc; [|by apply elem_of_nil in Hhere].
        destruct prev as [before|]; [|by apply elem_of_nil in Hhere].
        exists 0%nat, before, token, next. split_and!; try done.
        apply elem_of_cons in Hhere as [->|Hhere]; [by left|].
        apply list_elem_of_singleton in Hhere as ->. by right.
      * exists (S i), before, tok, after. by split_and!.
    + intros ([|i] & before & tok & after & Hb & Ht & Ha & Hc & Hx).
      * left. simpl in *. simplify_eq. rewrite bool_decide_eq_true_2 by done.
        destruct Hx as [->| ->]; [apply list_elem_of_here|].
        apply list_elem_of_further, list_elem_of_here.
      * right. exists i, before, tok, after. by split_and!.
Qed.

Section WithRuntime.
Context `{PyRuntime}.

(** X1: the comparison items that [extract_slots] stores are the tokens
    standing immediately before and after a connector token, the word
    for "or" or the word for "and", that is neither the first nor the
    last token of the text: both neighbours of every such connector and
    nothing else, passed through [list(set(..))].  They are stored
    exactly when the text has such a connector, given that the tokens
    [str.split] returns are pieces of the text; a text of fewer than
    three tokens gets no comparison items. *)
Theorem extract_slots_comparison_items text :
  let tokens := str_split text in
  let slots := extract_slots text in
  let neighbour x :=
    ∃ (i : nat) before token after,
      tokens !! i = Some before
      ∧ tokens !! S i = Some token
      ∧ tokens !! S (S i) = Some after
      ∧ (token = OR_TOKEN ∨ token = AND_TOKEN)
      ∧ (x = before ∨ x = after) in
  (∀ items, Slots.comparison_items slots = Some items →
     ∃ raw, raw ≠ [] ∧ items = list_of_set raw ∧ ∀ x, x ∈ raw ↔ neighbour x)
  ∧ ((∀ token, token ∈ tokens → contains token text = true) →
     (is_Some (Slots.comparison_items slots) ↔ ∃ x, neighbour x))
  ∧ ((length tokens < 3)%nat → Slots.comparison_items slots = None).
Proof.
  intros tokens slots neighbour.
  assert (Hitems : Slots.comparison_items slots
            = if contains OR_TOKEN text || contains AND_TOKEN text then
                match comparison_neighbours None tokens with
                | [] => None
                | items => Some (list_of_set items)
                end
              else None) by done.
  assert (Hraw : ∀ x, x ∈ comparison_neighbours None tokens ↔ neighbour x).
  { intros x. rewrite comparison_neighbours_spec. split.
    - intros ([|i] & before & token & after & Hb & Ht & Ha & Hc & Hx); [done|].
      simpl in Hb. rewrite list_lookup_fmap in Hb.
      destruct (tokens !! i) as [b|] eqn:Hi; [|done]. simplify_eq/=.
      exists i, before, token, after. by split_and!.
    - intros (i & before & token & after & Hb & Ht & Ha & Hc & Hx).
      exists (S i), before, token, after. split_and!; try done.
      simpl. by rewrite list_lookup_fmap, Hb. }
  assert (Hstored : ∀ items, Slots.comparison_items slots = Some items →
            ∃ raw, raw ≠ [] ∧ items = list_of_set raw ∧ ∀ x, x ∈ raw ↔ neighbour x).
  { rewrite Hitems. intros items Hsome.
    destruct (contains OR_TOKEN text || contains AND_TOKEN text); [|done].
    destruct (comparison_neighbours None tokens) as [|x0 raw0] eqn:Hlist; [done|].
    injection Hsome as <-. exists (x0 :: raw0). by split_and!. }
  split_and!; [done| |].
  - intros Hpieces. split.
    + intros [items Hsome].
      destruct (Hstored items Hsome) as ([|x raw] & Hne & _ & Hin); [done|].
      exists x. apply Hin, list_elem_of_here.
    + intros [x Hx]. rewrite Hitems.
      assert (Hguard : contains OR_TOKEN text || contains AND_TOKEN text = true).
      { destruct Hx as (i & before & token & after & _ & Ht & _ & Hc & _).
        apply list_elem_of_lookup_2, Hpieces in Ht.
        apply orb_true_iff. destruct Hc as [<-|<-]; [by left|by right]. }
      rewrite Hguard. apply Hraw in Hx.
      destruct (comparison_neighbours None tokens); [by apply elem_of_nil in Hx|done].
  - intros Hlen. rewrite Hitems. destruct (_ || _); [|done].
    destruct tokens as [|t1 [|t2 [|t3 ?]]]; simpl in *; try done.
    + by case_bool_decide.
    + lia.
Qed.
End WithRuntime.

Lemma extract_slots_comparison_items_witness :
  Slots.comparison_items (extract_slots "سلام و") = None
  ∧ is_Some (Slots.comparison_items (extract_slots "آیفون و سامسونگ"))
  ∧ ∃ raw, raw ≠ [] ∧ ["آیفون"; "سامسونگ"] = list_of_set raw
      ∧ ∀ x, x ∈ raw ↔
          ∃ (i : nat) before token after,
            str_split "آیفون یا سامسونگ" !! i = Some before
            ∧ str_split "آیفون یا سامسونگ" !! S i = Some token
            ∧ str_split "آیفون یا سامسونگ" !! S (S i) = Some after
            ∧ (token = OR_TOKEN ∨ token = AND_TOKEN)
            ∧ (x = before ∨ x = after).
Proof.
  split_and!.
  - apply (extract_slots_comparison_items "سلام و"). vm_compute. lia.
  - apply (extract_slots_comparison_items "آیفون و سامسونگ").
    + apply Forall_forall. apply (bool_decide_unpack _). vm_compute. exact I.
    + exists "آیفون", 0%nat, "آیفون", AND_TOKEN, "سامسونگ".
      split_and!; [vm_compute; reflexivity..|by right|by left].
  - apply (extract_slots_comparison_items "آیفون یا سامسونگ"). by vm_compute.
Defined.

End SlotFacts.

(* ===================================================================== *)
(** * Query variations *)
(* ===================================================================== *)

Module ExpansionFacts.
Import Py PyFacts MultiQueryRetriever.

Section WithEnvironment.
Context `{PyRuntime} `{Services} (settings : Settings.t).

(** The loop over the lines appends, in the order of the lines, what
    each line contributes. *)
Lemma variations_loop_omap query lines (variations : list string) :
  foldl (λ variations line,
           match parse_line query line with
           | Some variation => variations ++ [variation]
           | None => variations
           end)
        variations lines
  = variations ++ omap (parse_line query) lines.
Proof.
  revert variations. induction lines as [|line lines IH]; intros variations; simpl.
  - by rewrite app_nil_r.
  - rewrite IH. destruct (parse_line query line); [|done].
    by rewrite <- (assoc_L (++)).
Qed.

(** A line contributes only when, stripped, it starts with a digit or
    with one of the list signs, and what it contributes is neither empty
    nor the query. *)
Lemma parse_line_Some query line v :
  parse_line query line = Some v →
  v ≠ "" ∧ v ≠ query
  ∧ str_strip line ≠ ""
  ∧ (str_isdigit (first_char (str_strip line)) = true
     ∨ first_char (str_strip line) ∈ ["-"; BULLET; "*"]).
Proof.
  unfold parse_line.
  destruct (negb (String.eqb (str_strip line) "")) eqn:Hline; [|done].
  destruct (str_isdigit _ || bool_decide _) eqn:Hmark; [|done]. simpl.
  set (variation := match partition "." (str_strip line) with
                    | Some _ => _
                    | None => _
                    end).
  destruct (negb (String.eqb variation "")) eqn:Hv; [|done].
  destruct (negb (String.eqb variation query)) eqn:Hq; [|done]. simpl.
  intros [= <-].
  apply negb_true_iff in Hline, Hv, Hq.
  apply String.eqb_neq in Hline, Hv, Hq. split_and!; try done.
  apply orb_true_iff in Hmark as [?|?%bool_decide_eq_true]; [by left|by right].
Qed.

(** X2: the list [generate_query_variations] returns is a prefix of
    the query followed by the contributions of the reply's lines in the
    order of the lines; so every element after the first is non-empty,
    differs from the query, and comes from a line of the reply that
    starts, once stripped, with a digit or with [-], the bullet or [*]:
    a line of plain prose never yields a variation. *)
Theorem generate_query_variations_from_list_lines query num_variations :
  let k := or_default num_variations (Settings.QUERY_VARIATIONS settings) in
  let result := generate_query_variations settings query num_variations in
  (∀ content, llm_invoke query (k - 1) = Some content →
     ∃ n, result
          = take n (query :: omap (parse_line query)
                               (split_char NEWLINE (str_strip content))))
  ∧ ∀ (i : nat) v, result !! S i = Some v →
      v ≠ "" ∧ v ≠ query
      ∧ ∃ content line,
          llm_invoke query (k - 1) = Some content
          ∧ line ∈ split_char NEWLINE (str_strip content)
          ∧ parse_line query line = Some v
          ∧ str_strip line ≠ ""
          ∧ (str_isdigit (first_char (str_strip line)) = true
             ∨ first_char (str_strip line) ∈ ["-"; BULLET; "*"]).
Proof.
  intros k result.
  assert (Hresult : ∀ content, llm_invoke query (k - 1) = Some content →
            ∃ n, result
                 = take n (query :: omap (parse_line query)
                                      (split_char NEWLINE (str_strip content)))).
  { intros content Hcontent. unfold result, generate_query_variations. fold k.
    rewrite Hcontent, variations_loop_omap. apply slice_to_take. }
  split; [done|]. intros i v Hi.
  destruct (llm_invoke query (k - 1)) as [content|] eqn:Hcontent.
  - destruct (Hresult content eq_refl) as [n Hn]. rewrite Hn in Hi.
    apply lookup_take_Some in Hi as [Hi _]. simpl in Hi.
    apply list_elem_of_lookup_2, list_elem_of_omap in Hi as (line & Hline & Hv).
    destruct (parse_line_Some query line v Hv) as (? & ? & ? & ?).
    split_and!; [done..|]. by exists content, line.
  - unfold result, generate_query_variations in Hi. fold k in Hi.
    by rewrite Hcontent in Hi.
Qed.

End WithEnvironment.

Lemma generate_query_variations_from_list_lines_witness :
  (∃ n, generate_query_variations Settings.defaults Example.price_query None
        = take n (Example.price_query
                  :: omap (parse_line Example.price_query)
                       (split_char NEWLINE (str_strip Example.answer))))
  ∧ Example.rewrite_2 ≠ "" ∧ Example.rewrite_2 ≠ Example.price_query.
Proof.
  destruct (generate_query_variations_from_list_lines
              Settings.defaults Example.price_query None) as [Hprefix Htail].
  split.
  - apply Hprefix. by vm_compute.
  - destruct (Htail 1%nat Example.rewrite_2) as (? & ? & _); [by vm_compute|done].
Defined.

End ExpansionFacts.

(* ===================================================================== *)
(** * Searching with several variations *)
(* ===================================================================== *)

Module FusionFacts.
Import Py PyFacts MultiQueryRetriever RetrieverFacts.

(** In a dictionary with distinct keys a binding is what the lookup
    returns. *)
Lemma dict_get_elem_of {K V} `{EqDecision K} (k : K) (v : V) d :
  NoDup (dict_keys d) → (k, v) ∈ d → dict_get k d = Some v.
Proof.
  intros Hkeys Hin.
  destruct (dict_get k d) as [v'|] eqn:Hget.
  - apply dict_get_Some in Hget.
    by rewrite (dict_binding_unique _ _ _ _ Hkeys Hin Hget).
  - apply dict_get_None in Hget. destruct Hget. by eapply elem_of_dict_keys.
Qed.

Lemma concat_join {A} (ls : list (list A)) : concat ls = mjoin ls.
Proof. induction ls as [|l ls IH]; simpl; [done|]. by rewrite IH. Qed.

(** A hit that has been merged before changes nothing when it is
    merged again. *)
Lemma merge_result_seen seen d r :
  fused seen d → r ∈ seen → merge_result d r = d.
Proof.
  intros Hd Hr. destruct (fused_max _ _ Hd r Hr) as (doc & Hin & Hle).
  unfold merge_result.
  rewrite (dict_get_elem_of _ _ _ (fused_keys _ _ Hd) Hin).
  by apply Qltb_ge in Hle as ->.
Qed.

Lemma foldl_merge_result_seen seen d rs :
  fused seen d → rs ⊆ seen → foldl merge_result d rs = d.
Proof.
  intros Hd. induction rs as [|r rs IH]; intros Hsub; simpl; [done|].
  rewrite (merge_result_seen seen) by (by try apply Hsub, list_elem_of_here).
  apply IH. intros r' Hr'. by apply Hsub, list_elem_of_further.
Qed.

Section WithEnvironment.
Context `{PyRuntime} `{Services} (settings : Settings.t).

(** The hits the loop of [search] meets for the limit [top_k] and the
    filter [query_filter]. *)
Lemma fuse_from_hits all_results query_variations top_k query_filter :
  foldl (λ all_results query,
           match vector_search query top_k query_filter with
           | Some results => foldl merge_result all_results results
           | None => all_results
           end)
        all_results query_variations
  = foldl merge_result all_results
      (concat (omap (λ query, vector_search query top_k query_filter)
                    query_variations)).
Proof.
  revert all_results.
  induction query_variations as [|q qs IH]; intros d; simpl; [done|].
  destruct (vector_search q _ _) as [rs|]; simpl; [|by apply IH].
  by rewrite foldl_app, IH.
Qed.

Lemma fuse_fused_hits query_variations top_k query_filter :
  fused (concat (omap (λ query, vector_search query top_k query_filter)
                      query_variations))
        (fuse query_variations top_k query_filter).
Proof.
  unfold fuse. rewrite fuse_from_hits.
  apply (foldl_merge_result_fused [] [] _ fused_nil).
Qed.

(** [search] is a function of the dictionary the loops build. *)
Lemma search_of_fuse query_variations query_variations' top_k filters :
  fuse query_variations (effective_top_k settings top_k) (query_filter_of filters)
  = fuse query_variations' (effective_top_k settings top_k) (query_filter_of filters) →
  search settings query_variations top_k filters
  = search settings query_variations' top_k filters.
Proof.
  intros Heq. unfold search.
  fold (effective_top_k settings top_k). fold (query_filter_of filters).
  by rewrite Heq.
Qed.

(** X3: a variation whose search raises is skipped: [search] returns
    what it returns for the variations whose search succeeds, and the
    empty list when there is none, be it that no variation was given
    or that every search failed. *)
Theorem search_skips_failed_variations query_variations top_k filters :
  let succeeds query :=
    is_Some (vector_search query (effective_top_k settings top_k)
               (query_filter_of filters)) in
  search settings query_variations top_k filters
  = search settings (filter succeeds query_variations) top_k filters
  ∧ ((∀ query, query ∈ query_variations → ¬ succeeds query) →
     search settings query_variations top_k filters = []).
Proof.
  intros succeeds.
  assert (Hskip : search settings query_variations top_k filters
            = search settings (filter succeeds query_variations) top_k filters).
  { apply search_of_fuse. unfold fuse.
    generalize (@nil (string * RetrievedDocument.t)).
    induction query_variations as [|q qs IH]; intros d; [done|].
    rewrite filter_cons. destruct (decide (succeeds q)) as [Hq|Hq]; simpl.
    - apply IH.
    - unfold succeeds in Hq. rewrite <- eq_None_not_Some in Hq. rewrite Hq.
      apply IH. }
  split; [done|]. intros Hnone. rewrite Hskip.
  replace (filter succeeds query_variations) with (@nil string).
  { unfold search, slice_to. simpl. rewrite take_nil. by destruct (0 <=? _). }
  symmetry. clear Hskip.
  induction query_variations as [|q qs IH]; [done|].
  rewrite filter_cons, decide_False by apply Hnone, list_elem_of_here.
  apply IH. intros q' Hq'. by apply Hnone, list_elem_of_further.
Qed.

(** X4: a variation that repeats an earlier one changes nothing:
    [search] returns the same list with and without the repetition.
    ([generate_query_variations] keeps the rewrites that repeat each
    other.) *)
Theorem search_repeated_variation before query after top_k filters :
  query ∈ before →
  search settings (before ++ query :: after) top_k filters
  = search settings (before ++ after) top_k filters.
Proof.
  intros Hin. apply search_of_fuse.
  set (k := effective_top_k settings top_k). set (f := query_filter_of filters).
  unfold fuse. rewrite !foldl_app. simpl.
  destruct (vector_search query k f) as [rs|] eqn:Hq; [|done].
  f_equal.
  apply (foldl_merge_result_seen _ _ _ (fuse_fused_hits before k f)).
  intros r Hr. rewrite concat_join. apply list_elem_of_join. exists rs. split; [done|].
  apply list_elem_of_omap. by exists query.
Qed.

(** X5: the best score the dictionary of [search] holds for a product
    id does not depend on the order in which the variations are
    searched: for two orders of the same variations the same ids are
    present, with equal scores. *)
Theorem fuse_score_order_independent query_variations query_variations'
    top_k query_filter product_id :
  query_variations ≡ₚ query_variations' →
  match dict_get product_id (fuse query_variations top_k query_filter),
        dict_get product_id (fuse query_variations' top_k query_filter) with
  | Some doc, Some doc' =>
      (RetrievedDocument.score doc == RetrievedDocument.score doc')%Q
  | None, None => True
  | _, _ => False
  end.
Proof.
  intros Hperm.
  pose proof (fuse_fused_hits query_variations top_k query_filter) as Hd.
  pose proof (fuse_fused_hits query_variations' top_k query_filter) as Hd'.
  set (d := fuse query_variations _ _) in *.
  set (d' := fuse query_variations' _ _) in *.
  set (seen := concat (omap _ query_variations)) in *.
  set (seen' := concat (omap _ query_variations')) in *.
  assert (Hseen : seen ≡ₚ seen') by (unfold seen, seen'; by rewrite !concat_join, Hperm).
  assert (Hdom : ∀ s s' e e' doc, s ≡ₚ s' → fused s e → fused s' e' →
            dict_get product_id e = Some doc →
            ∃ doc', dict_get product_id e' = Some doc'
                    ∧ (RetrievedDocument.score doc <= RetrievedDocument.score doc')%Q).
  { intros s s' e e' doc Hs He He' Hget. apply dict_get_Some in Hget.
    destruct (fused_from _ _ He _ _ Hget) as (r & Hr & Hid & Hscore & _).
    rewrite Hs in Hr.
    destruct (fused_max _ _ He' r Hr) as (doc' & Hin' & Hle).
    exists doc'. rewrite Hid, Hscore in *.
    split; [|done]. by apply dict_get_elem_of; [apply (fused_keys _ _ He')|]. }
  destruct (dict_get product_id d) as [doc|] eqn:Hget.
  - destruct (Hdom _ _ _ _ doc Hseen Hd Hd' Hget) as (doc' & Hget' & Hle).
    rewrite Hget'.
    destruct (Hdom _ _ _ _ doc' (symmetry Hseen) Hd' Hd Hget')
      as (doc'' & Hget'' & Hle').
    rewrite Hget in Hget''. injection Hget'' as <-. by apply Qle_antisym.
  - destruct (dict_get product_id d') as [doc'|] eqn:Hget'; [|done].
    destruct (Hdom _ _ _ _ doc' (symmetry Hseen) Hd' Hd Hget') as (doc & Hget'' & _).
    by rewrite Hget in Hget''.
Qed.

End WithEnvironment.

Lemma search_skips_failed_variations_witness :
  search Settings.defaults [Example.rewrite_2] None None = [].
Proof.
  apply (search_skips_failed_variations Settings.defaults [Example.rewrite_2] None None).
  intros query ->%list_elem_of_singleton [hits Hhits]. by vm_compute in Hhits.
Defined.

Lemma search_repeated_variation_witness :
  search Settings.defaults
    [Example.price_query; Example.rewrite_1; Example.price_query] None None
  = search Settings.defaults [Example.price_query; Example.rewrite_1] None None.
Proof.
  apply (search_repeated_variation Settings.defaults
           [Example.price_query; Example.rewrite_1] Example.price_query [] None None).
  apply list_elem_of_here.
Defined.

Lemma fuse_score_order_independent_witness :
  match dict_get "P1" (fuse [Example.price_query; Example.rewrite_1] 10 None),
        dict_get "P1" (fuse [Example.rewrite_1; Example.price_query] 10 None) with
  | Some doc, Some doc' =>
      (RetrievedDocument.score doc == RetrievedDocument.score doc')%Q
  | None, None => True
  | _, _ => False
  end.
Proof.
  apply (fuse_score_order_independent
           [Example.price_query; Example.rewrite_1]
           [Example.rewrite_1; Example.price_query] 10 None "P1").
  apply perm_swap.
Defined.

End FusionFacts.

(* ===================================================================== *)
(** * What the reranker returns *)
(* ===================================================================== *)

Module RerankOrderFacts.
Import Py PyFacts RerankerService RerankerFacts.

(** Order by a key only depends on the values of the key. *)
Lemma StronglySorted_desc_ext {A} (key key' : A → Q) l :
  (∀ x, key' x = key x) →
  StronglySorted (desc key) l → StronglySorted (desc key') l.
Proof.
  intros Hkey. induction 1 as [|x l Hl IH Hx]; constructor; [done|].
  eapply Forall_impl; [exact Hx|]. intros y. unfold desc. by rewrite !Hkey.
Qed.

(** The rank the last loop leaves on a document of a list without
    repetition is its position, counted from one. *)
Lemma last_rank_enumerate_from start (l : list loc) (i : nat) doc :
  NoDup l → l !! i = Some doc →
  last_rank doc (enumerate_from start l) = Some (start + Z.of_nat i + 1).
Proof.
  intros Hl. revert start i. induction Hl as [|d l Hd Hl IH]; intros start i Hi; [done|].
  simpl. destruct i as [|i]; simpl in Hi.
  - injection Hi as ->.
    assert (Hnone : ∀ s, last_rank doc (enumerate_from s l) = None).
    { clear IH Hl. induction l as [|d l IHl]; intros s; simpl; [done|].
      apply not_elem_of_cons in Hd as [Hne Hd].
      rewrite IHl by done. by rewrite decide_False. }
    rewrite Hnone, decide_True by done. f_equal. lia.
  - rewrite (IH (start + 1) i Hi). f_equal. lia.
Qed.

Lemma last_rank_not_elem_of start (l : list loc) doc :
  doc ∉ l → last_rank doc (enumerate_from start l) = None.
Proof.
  revert start. induction l as [|d l IH]; intros start Hd; simpl; [done|].
  apply not_elem_of_cons in Hd as [Hne Hd].
  rewrite IH by done. by rewrite decide_False.
Qed.

(** Reading a list of references that are all stored. *)
Lemma omap_Forall2 {A B} (f : A → option B) l :
  Forall (λ x, is_Some (f x)) l → Forall2 (λ x y, f x = Some y) l (omap f l).
Proof.
  induction 1 as [|x l [y Hy] Hl IH]; simpl; [constructor|].
  rewrite Hy. by constructor.
Qed.

Lemma Forall2_sorted {A B} (R : A → B → Prop) (key : A → Q) (key' : B → Q) l l' :
  (∀ x y, R x y → key' y = key x) →
  Forall2 R l l' →
  StronglySorted (desc key) l → StronglySorted (desc key') l'.
Proof.
  intros Hkey. induction 1 as [|x y l l' Hxy Hl IH]; intros Hs; [constructor|].
  apply StronglySorted_cons in Hs as [Hx Hs].
  apply StronglySorted_cons. split; [|by apply IH].
  apply Forall_forall. intros y' Hy'.
  apply list_elem_of_lookup in Hy' as [i Hi].
  destruct (Forall2_lookup_r _ _ _ _ _ Hl Hi) as (x' & Hx' & Hxy').
  rewrite Forall_forall in Hx. unfold desc.
  rewrite (Hkey _ _ Hxy), (Hkey _ _ Hxy').
  by eapply Hx, list_elem_of_lookup_2.
Qed.

Section WithEnvironment.
Context `{Services} (settings : Settings.t).

(** X6: [rerank] returns the head of its input put in descending
    order of the new scores: the returned documents followed by the
    ones cut off are a rearrangement of the input in which no document
    has a stored score above that of a document before it; and for a
    top-M that is a count, the returned list has top-M elements, or all
    of them when there are fewer. *)
Theorem rerank_top_selection query documents top_k h :
  let k := or_default top_k (Settings.RERANK_TOP_K settings) in
  let reranked := (rerank settings query documents top_k h).1 in
  let h' := (rerank settings query documents top_k h).2 in
  (∃ cut_off,
     reranked ++ cut_off ≡ₚ documents
     ∧ StronglySorted (desc (score_at h')) (reranked ++ cut_off))
  ∧ (0 ≤ k → length reranked = Nat.min (Z.to_nat k) (length documents)).
Proof.
  intros k reranked h'.
  destruct (decide (documents = [])) as [->|Hne].
  { split; [|intros _; by rewrite Nat.min_0_r].
    exists []. split; [done|]. constructor. }
  unfold reranked, h'. rewrite (rerank_unfold _ _ _ _ _ Hne). simpl. fold k.
  set (h1 := scored query documents h).
  set (sorted := sorted_desc (score_at h1) documents).
  split.
  - destruct (slice_to_take sorted k) as [n ->].
    exists (drop n sorted). rewrite take_drop. split.
    + apply sorted_desc_perm.
    + apply (StronglySorted_desc_ext (score_at h1)); [apply update_ranks_score|].
      apply sorted_desc_sorted.
  - intros Hk. unfold slice_to. destruct (Z.leb_spec 0 k); [|lia].
    unfold sorted. by rewrite length_take, sorted_desc_length.
Qed.

(** X7: for an input without repetition, the document [rerank]
    returns at position i carries rank i + 1 afterwards; and a document
    that is not returned, be it cut off or not part of the input, keeps
    the rank it had. *)
Theorem rerank_assigns_ranks query documents top_k h :
  NoDup documents →
  let reranked := (rerank settings query documents top_k h).1 in
  let h' := (rerank settings query documents top_k h).2 in
  (∀ (i : nat) doc, reranked !! i = Some doc → is_Some (h !! doc) →
     RetrievedDocument.rank <$> h' !! doc = Some (Some (Z.of_nat i + 1)))
  ∧ (∀ doc, doc ∉ reranked →
       RetrievedDocument.rank <$> h' !! doc = RetrievedDocument.rank <$> h !! doc).
Proof.
  intros Hnodup reranked h'.
  destruct (decide (documents = [])) as [->|Hne]; [done|].
  unfold reranked, h'. rewrite (rerank_unfold _ _ _ _ _ Hne). simpl.
  set (h1 := scored query documents h).
  set (sorted := slice_to _ _).
  assert (Hsorted : NoDup sorted).
  { unfold sorted. destruct (slice_to_take (sorted_desc (score_at h1) documents)
                               (or_default top_k (Settings.RERANK_TOP_K settings)))
      as [n ->].
    eapply sublist_NoDup; [|apply sublist_take]. by rewrite sorted_desc_perm. }
  assert (Hrank : ∀ doc, RetrievedDocument.rank <$> h1 !! doc
                         = RetrievedDocument.rank <$> h !! doc).
  { intros doc. unfold h1. rewrite scored_lookup.
    destruct (decide _), (h !! doc); done. }
  split.
  - intros i doc Hi [d Hd]. rewrite update_ranks_lookup. unfold enumerate.
    rewrite (last_rank_enumerate_from 0 sorted i doc Hsorted Hi).
    specialize (Hrank doc). rewrite Hd in Hrank.
    destruct (h1 !! doc); [|done]. simpl. do 2 f_equal.
  - intros doc Hout. rewrite update_ranks_lookup. unfold enumerate.
    by rewrite (last_rank_not_elem_of 0 sorted doc Hout).
Qed.

(** X8: [rerank] writes nothing but the scores and ranks of its
    input: a document that is not in the input list is as it was, no
    document appears or disappears, and no product changes. *)
Theorem rerank_frame query documents top_k h doc :
  let h' := (rerank settings query documents top_k h).2 in
  (doc ∉ documents → h' !! doc = h !! doc)
  ∧ (is_Some (h' !! doc) ↔ is_Some (h !! doc))
  ∧ RetrievedDocument.product <$> h' !! doc = RetrievedDocument.product <$> h !! doc.
Proof.
  intros h'.
  destruct (decide (documents = [])) as [->|Hne]; [done|].
  unfold h'. rewrite (rerank_unfold _ _ _ _ _ Hne). simpl.
  set (k := or_default _ _).
  rewrite update_ranks_lookup, scored_lookup.
  split_and!.
  - intros Hout. rewrite decide_False by done.
    unfold enumerate. rewrite last_rank_not_elem_of; [done|].
    intros Hin%slice_to_elem_of. by rewrite sorted_desc_perm in Hin.
  - destruct (last_rank _ _), (decide _), (h !! doc); simpl;
      split; intros [? ?]; by eexists.
  - destruct (last_rank _ _), (decide _), (h !! doc); done.
Qed.

(** The returned list is in descending order of the stored scores. *)
Lemma rerank_sorted query documents top_k h :
  StronglySorted (desc (score_at (rerank settings query documents top_k h).2))
    (rerank settings query documents top_k h).1.
Proof.
  destruct (decide (documents = [])) as [->|Hne]; [constructor|].
  rewrite (rerank_unfold _ _ _ _ _ Hne). simpl.
  eapply StronglySorted_desc_ext; [apply update_ranks_score|].
  apply slice_to_sorted, sorted_desc_sorted.
Qed.

(** What the returned references hold after [rerank]. *)
Lemma rerank_lookup query documents top_k h (i : nat) doc :
  NoDup documents →
  (∀ doc, doc ∈ documents → is_Some (h !! doc)) →
  (rerank settings query documents top_k h).1 !! i = Some doc →
  ∃ d, h !! doc = Some d ∧ doc ∈ documents
       ∧ (rerank settings query documents top_k h).2 !! doc
         = Some (RetrievedDocument.set_rank (Z.of_nat i + 1)
                   (RetrievedDocument.set_score
                      (cross_encoder query (doc_text (RetrievedDocument.product d)))
                      d)).
Proof.
  intros Hnodup Hstored.
  destruct (decide (documents = [])) as [->|Hne]; [done|].
  rewrite (rerank_unfold _ _ _ _ _ Hne). simpl.
  set (h1 := scored query documents h).
  set (reranked := slice_to _ _). intros Hi.
  assert (Hin : doc ∈ documents).
  { apply list_elem_of_lookup_2 in Hi. unfold reranked in Hi.
    apply slice_to_elem_of in Hi. by rewrite sorted_desc_perm in Hi. }
  destruct (Hstored doc Hin) as [d Hd]. exists d. split_and!; [done..|].
  assert (Hreranked : NoDup reranked).
  { unfold reranked.
    destruct (slice_to_take (sorted_desc (score_at h1) documents)
                (or_default top_k (Settings.RERANK_TOP_K settings))) as [n ->].
    eapply sublist_NoDup; [|apply sublist_take]. by rewrite sorted_desc_perm. }
  rewrite update_ranks_lookup. unfold enumerate.
  rewrite (last_rank_enumerate_from 0 reranked i doc Hreranked Hi).
  unfold h1. rewrite scored_lookup, decide_True by done.
  unfold text_at. rewrite Hd. simpl. do 2 f_equal.
Qed.

(** The documents a caller reads through the returned references:
    as many as the references, in descending order of their scores, with
    the ranks 1, 2, ..., each carrying the cross-encoder score of its text
    and the product of one of the input documents. *)
Lemma rerank_documents query documents top_k h :
  NoDup documents →
  (∀ doc, doc ∈ documents → is_Some (h !! doc)) →
  let reranked := (rerank settings query documents top_k h).1 in
  let h' := (rerank settings query documents top_k h).2 in
  let docs := omap (λ doc, h' !! doc) reranked in
  length docs = length reranked
  ∧ StronglySorted (desc RetrievedDocument.score) docs
  ∧ RetrievedDocument.rank <$> docs
    = (λ i : nat, Some (Z.of_nat i)) <$> seq 1 (length docs)
  ∧ Forall (λ d,
      RetrievedDocument.score d
      = cross_encoder query (doc_text (RetrievedDocument.product d))
      ∧ ∃ doc d0, doc ∈ documents ∧ h !! doc = Some d0
                  ∧ RetrievedDocument.product d = RetrievedDocument.product d0)
      docs.
Proof.
  intros Hnodup Hstored reranked h' docs.
  assert (Hread : Forall2 (λ doc d, h' !! doc = Some d) reranked docs).
  { apply omap_Forall2, Forall_forall. intros doc Hdoc.
    apply list_elem_of_lookup in Hdoc as [i Hi].
    destruct (rerank_lookup query documents top_k h i doc Hnodup Hstored Hi)
      as (d & _ & _ & Hd).
    by eexists. }
  assert (Hat : ∀ (i : nat) d, docs !! i = Some d →
            ∃ doc d0, doc ∈ documents ∧ h !! doc = Some d0
              ∧ d = RetrievedDocument.set_rank (Z.of_nat i + 1)
                      (RetrievedDocument.set_score
                         (cross_encoder query
                            (doc_text (RetrievedDocument.product d0))) d0)).
  { intros i d Hi.
    destruct (Forall2_lookup_r _ _ _ _ _ Hread Hi) as (doc & Hdoc & Hd).
    destruct (rerank_lookup query documents top_k h i doc Hnodup Hstored Hdoc)
      as (d0 & Hd0 & Hin & Hd').
    fold h' in Hd'. rewrite Hd in Hd'. injection Hd' as ->.
    by exists doc, d0. }
  split_and!.
  - symmetry. by eapply Forall2_length.
  - apply (Forall2_sorted (λ doc d, h' !! doc = Some d) (score_at h')
             RetrievedDocument.score reranked docs); [|done|].
    { intros doc d Hd. unfold score_at. by rewrite Hd. }
    apply rerank_sorted.
  - apply list_eq. intros i. rewrite !list_lookup_fmap.
    destruct (docs !! i) as [d|] eqn:Hi; simpl.
    + destruct (Hat i d Hi) as (doc & d0 & _ & _ & ->).
      rewrite lookup_seq_lt by by eapply lookup_lt_Some.
      simpl. do 2 f_equal. lia.
    + by rewrite lookup_seq_ge by by apply lookup_ge_None.
  - apply Forall_forall. intros d Hd.
    apply list_elem_of_lookup in Hd as [i Hi].
    destruct (Hat i d Hi) as (doc & d0 & Hin & Hd0 & ->). simpl.
    split; [done|]. by exists doc, d0.
Qed.

End WithEnvironment.

Lemma rerank_top_selection_witness :
  length (rerank Settings.defaults "q" [0; 1; 2; 3]%nat None Example.four_documents).1
  = 3%nat.
Proof.
  destruct (rerank_top_selection Settings.defaults "q" [0; 1; 2; 3]%nat None
              Example.four_documents) as [_ Hlen].
  apply Hlen. by vm_compute.
Defined.

Lemma rerank_assigns_ranks_witness :
  let h' := (rerank Settings.defaults "q" [0; 1; 2; 3]%nat None Example.four_documents).2 in
  RetrievedDocument.rank <$> h' !! 3%nat = Some (Some 2)
  ∧ RetrievedDocument.rank <$> h' !! 0%nat = Some None.
Proof.
  destruct (rerank_assigns_ranks Settings.defaults "q" [0; 1; 2; 3]%nat None
              Example.four_documents) as [Hin Hout].
  { apply (bool_decide_unpack _). by vm_compute. }
  split.
  - apply (Hin 1%nat 3%nat); [by vm_compute|].
    apply (bool_decide_unpack _). by vm_compute.
  - rewrite (Hout 0%nat); [by vm_compute|].
    apply (bool_decide_unpack _). by vm_compute.
Defined.

Lemma rerank_frame_witness :
  (rerank Settings.defaults "q" [1; 2]%nat None Example.four_documents).2 !! 3%nat
  = Example.four_documents !! 3%nat.
Proof.
  apply (rerank_frame Settings.defaults "q" [1; 2]%nat None Example.four_documents 3%nat).
  apply (bool_decide_unpack _). by vm_compute.
Defined.

End RerankOrderFacts.

(* ===================================================================== *)
(** * Normalization *)
(* ===================================================================== *)

Module PreprocessorFacts.
Import Py PyFacts PersianPreprocessor.

(** Splitting at a separator what was joined with it gives the pieces
    back, when no piece contains the separator. *)
Lemma split_char_append c piece rest :
  split_char c piece = [piece] →
  split_char c (piece +:+ String c rest) = piece :: split_char c rest.
Proof.
  induction piece as [|a piece IH]; simpl.
  - intros _. by rewrite Ascii.eqb_refl.
  - destruct (Ascii.eqb a c); [done|].
    destruct (split_char c piece) as [|h t] eqn:Hpiece.
    + by intros [= <-].
    + intros [= -> ->]. by rewrite IH.
Qed.

Lemma split_char_concat c pieces :
  pieces ≠ [] →
  Forall (λ piece, split_char c piece = [piece]) pieces →
  split_char c (String.concat (String c "") pieces) = pieces.
Proof.
  intros Hne Hpieces. induction Hpieces as [|piece pieces Hpiece Hpieces IH]; [done|].
  destruct pieces as [|piece' pieces]; [done|].
  change (String.concat (String c "") (piece :: piece' :: pieces))
    with (piece +:+ String c (String.concat (String c "") (piece' :: pieces))).
  rewrite split_char_append by done. by rewrite IH.
Qed.

Section WithEnvironment.
Context `{PyRuntime} `{Services}.

(** X9: the normalized text is the words of the Hazm-normalized
    text with one blank between two words and none at either end:
    for a text with at least one word, splitting it at every blank gives
    exactly those words.  The words are those [str.split()] returns, none
    of which contains a blank. *)
Theorem normalize_joins_words text :
  let words := str_split (hazm_normalize text) in
  text ≠ "" → words ≠ [] →
  Forall (λ word, split_char SPACE word = [word]) words →
  split_char SPACE (normalize text) = words.
Proof.
  intros words Htext Hwords Hblank.
  unfold normalize. apply String.eqb_neq in Htext as ->.
  by apply split_char_concat.
Qed.

End WithEnvironment.

Lemma normalize_joins_words_witness :
  split_char SPACE (normalize "  قیمت   گوشی ") = ["قیمت"; "گوشی"].
Proof.
  rewrite (normalize_joins_words "  قیمت   گوشی ").
  - by vm_compute.
  - done.
  - by vm_compute.
  - repeat constructor.
Defined.

End PreprocessorFacts.

(* ===================================================================== *)
(** * The cache entries *)
(* ===================================================================== *)

Module CacheFacts.
Import Py PyFacts CacheService.

(** Assigning to a key of a dictionary. *)
Lemma dict_get_set_eq {K V} `{EqDecision K} (k : K) (v : V) d :
  dict_get k (dict_set k v d) = Some v.
Proof.
  induction d as [|[k' v'] d IH]; simpl.
  - by rewrite decide_True.
  - destruct (decide (k = k')) as [->|Hne]; simpl.
    + by rewrite decide_True.
    + by rewrite decide_False.
Qed.

Lemma dict_get_set_ne {K V} `{EqDecision K} (k k' : K) (v : V) d :
  k' ≠ k → dict_get k' (dict_set k v d) = dict_get k' d.
Proof.
  intros Hne. induction d as [|[k0 v0] d IH]; simpl.
  - by rewrite decide_False.
  - destruct (decide (k = k0)) as [->|Hne0]; simpl.
    + by rewrite !decide_False.
    + destruct (decide (k' = k0)); [done|apply IH].
Qed.

(** A key determines what was put after its prefix. *)
Lemma key_inj (prefix a b : string) : prefix +:+ a = prefix +:+ b → a = b.
Proof. induction prefix as [|c prefix IH]; simpl; [done|]. intros [=]. by apply IH. Qed.

Section WithStore.
Context `{Services} `{JsonCodec} (ttls : CacheTTL.t).

Lemma setex_Some redis key ttl value redis' :
  setex redis key ttl value = Some redis' ↔ 0 < ttl ∧ redis' = <[key := value]> redis.
Proof.
  unfold setex. destruct (Z.ltb_spec 0 ttl).
  - split; [by intros [= <-]|]. by intros [_ ->].
  - split; [done|]. intros [? _]. lia.
Qed.

Lemma setex_None redis key ttl value :
  setex redis key ttl value = None ↔ ttl ≤ 0.
Proof. unfold setex. destruct (Z.ltb_spec 0 ttl); split; (done || lia). Qed.

(** What a lookup that decodes returns for the text stored under its
    key. *)
Lemma get_session_lookup redis user_id :
  get_session redis user_id
  = match redis !! ("session:" +:+ user_id) with
    | Some text => if String.eqb text "" then Some JNull else json_loads text
    | None => Some JNull
    end.
Proof.
  unfold get_session. destruct (redis !! _) as [text|]; simpl; [|done].
  by destruct (String.eqb text "").
Qed.

Lemma get_product_lookup redis product_id :
  get_product redis product_id
  = match redis !! ("product:" +:+ product_id) with
    | Some text => if String.eqb text "" then Some JNull else json_loads text
    | None => Some JNull
    end.
Proof.
  unfold get_product. destruct (redis !! _) as [text|]; simpl; [|done].
  by destruct (String.eqb text "").
Qed.

Lemma get_cached_embedding_lookup redis query :
  get_cached_embedding redis query
  = match redis !! ("embedding:" +:+ hash_query query) with
    | Some text => if String.eqb text "" then Some JNull else json_loads text
    | None => Some JNull
    end.
Proof.
  unfold get_cached_embedding. destruct (redis !! _) as [text|]; simpl; [|done].
  by destruct (String.eqb text "").
Qed.

(** X10: [set_cached_response] raises exactly when the expiry time in
    force (the argument, or the configured one when the argument is
    absent or zero) is not positive.  After a write that returns, what
    was written is returned for every query with the same hash and for
    no other: a lookup returns the written response when the hashes of
    the two queries coincide, and what it returned before the write
    otherwise. *)
Theorem cached_response_round_trip redis query response ttl :
  let expiry := or_default ttl (CacheTTL.CACHE_RESPONSE_TTL ttls) in
  (set_cached_response ttls redis query response ttl = None ↔ expiry ≤ 0)
  ∧ ∀ redis', set_cached_response ttls redis query response ttl = Some redis' →
      ∀ query',
        get_cached_response redis' query'
        = if decide (hash_query query' = hash_query query) then Some response
          else get_cached_response redis query'.
Proof.
  intros expiry. unfold set_cached_response. fold expiry.
  split; [apply setex_None|].
  intros redis' [_ ->]%setex_Some query'. unfold get_cached_response.
  destruct (decide (hash_query query' = hash_query query)) as [->|Hne].
  - apply lookup_insert_eq.
  - apply lookup_insert_ne. by intros ?%key_inj.
Qed.

(** X11: [set_product] raises exactly when the expiry time in force
    (the argument, or the configured one when the argument is absent or
    zero) is not positive; otherwise a lookup of the same id decodes what
    was encoded, a record that is encoded as the empty text reading as
    absent, and the lookups of the other ids return what they returned
    before. *)
Theorem set_product_get_product redis product_id product_data ttl :
  let expiry := or_default ttl (CacheTTL.CACHE_PRODUCT_TTL ttls) in
  (set_product ttls redis product_id product_data ttl = None ↔ expiry ≤ 0)
  ∧ ∀ redis', set_product ttls redis product_id product_data ttl = Some redis' →
      get_product redis' product_id
      = (if String.eqb (json_dumps product_data) "" then Some JNull
         else json_loads (json_dumps product_data))
      ∧ ∀ product_id', product_id' ≠ product_id →
          get_product redis' product_id' = get_product redis product_id'.
Proof.
  intros expiry. unfold set_product. fold expiry. split; [apply setex_None|].
  intros redis' [_ ->]%setex_Some. split.
  - by rewrite get_product_lookup, lookup_insert_eq.
  - intros product_id' Hne. rewrite !get_product_lookup.
    rewrite lookup_insert_ne; [done|]. by intros ?%key_inj.
Qed.

(** X12: an embedding cached for a query is returned for every query
    with the same hash and for no other: after a write that returns, a
    lookup decodes what was encoded when the hashes of the two queries
    coincide, an encoding that is the empty text reading as absent, and
    returns what it returned before the write otherwise. *)
Theorem cached_embedding_round_trip redis query embedding ttl redis' query' :
  set_cached_embedding ttls redis query embedding ttl = Some redis' →
  get_cached_embedding redis' query'
  = if decide (hash_query query' = hash_query query)
    then (if String.eqb (json_dumps embedding) "" then Some JNull
          else json_loads (json_dumps embedding))
    else get_cached_embedding redis query'.
Proof.
  intros [_ ->]%setex_Some. rewrite !get_cached_embedding_lookup.
  destruct (decide (hash_query query' = hash_query query)) as [->|Hne].
  - by rewrite lookup_insert_eq.
  - rewrite lookup_insert_ne; [done|]. by intros ?%key_inj.
Qed.

(** The session [append_to_session] starts from. *)
Lemma append_to_session_unfold redis user_id message ttl :
  append_to_session ttls redis user_id message ttl
  = (stored ← get_session redis user_id;
     session ← append_message
                 (if json_truthy stored then stored
                  else JDict [("messages", JList [])]) message;
     set_session ttls redis user_id session ttl).
Proof. done. Qed.

Lemma append_message_Some session message session' :
  append_message session message = Some session' ↔
  ∃ members messages,
    session = JDict members
    ∧ dict_get "messages" members = Some (JList messages)
    ∧ session'
      = JDict (dict_set "messages" (JList (messages ++ [message])) members).
Proof.
  unfold append_message. split.
  - destruct session as [| | | | | |members]; try done.
    destruct (dict_get "messages" members) as [[| | | | |messages|]|] eqn:Hget;
      try done.
    intros [= <-]. by exists members, messages.
  - intros (members & messages & -> & -> & ->). done.
Qed.

(** X13: [append_to_session] returns normally exactly when the stored
    session can be decoded, the session it starts from (the stored one,
    or a new one with no messages when nothing is stored or what is
    stored is falsy) is a dictionary with a list under [messages], and
    the expiry time in force is positive.  A stored session that is a
    non-empty dictionary without [messages] makes it raise. *)
Theorem append_to_session_succeeds_iff redis user_id message ttl :
  is_Some (append_to_session ttls redis user_id message ttl) ↔
  ∃ stored members messages,
    get_session redis user_id = Some stored
    ∧ (if json_truthy stored then stored else JDict [("messages", JList [])])
      = JDict members
    ∧ dict_get "messages" members = Some (JList messages)
    ∧ 0 < or_default ttl (CacheTTL.CACHE_SESSION_TTL ttls).
Proof.
  rewrite append_to_session_unfold. split.
  - intros [redis' Hrun].
    destruct (get_session redis user_id) as [stored|]; [|done]. simpl in Hrun.
    destruct (append_message _ message) as [session'|] eqn:Happend; [|done].
    simpl in Hrun. apply append_message_Some in Happend
      as (members & messages & Hsession & Hget & _).
    apply setex_Some in Hrun as [Httl _].
    by exists stored, members, messages.
  - intros (stored & members & messages & -> & Hsession & Hget & Httl). simpl.
    rewrite Hsession. unfold append_message. rewrite Hget. simpl.
    unfold set_session, setex.
    destruct (Z.ltb_spec 0 (or_default ttl (CacheTTL.CACHE_SESSION_TTL ttls)));
      [by eexists|lia].
Qed.

(** X14: when [append_to_session] returns, having started from the
    session [members] (the stored one, or a new one with no messages when
    nothing is stored or what is stored is falsy) with the list [messages]
    under [messages], the entry of the user encodes that session with the
    message added at the end of the list, the earlier messages and the
    other keys of the session being kept; a lookup of the user decodes
    that text, and the sessions of the other users read as before. *)
Theorem append_to_session_appends redis user_id message ttl redis'
    stored members messages :
  append_to_session ttls redis user_id message ttl = Some redis' →
  get_session redis user_id = Some stored →
  (if json_truthy stored then stored else JDict [("messages", JList [])])
  = JDict members →
  dict_get "messages" members = Some (JList messages) →
  let members' := dict_set "messages" (JList (messages ++ [message])) members in
  redis' = <["session:" +:+ user_id := json_dumps (JDict members')]> redis
  ∧ dict_get "messages" members' = Some (JList (messages ++ [message]))
  ∧ (∀ key, key ≠ "messages" → dict_get key members' = dict_get key members)
  ∧ dict_keys members' = dict_keys members
  ∧ (json_dumps (JDict members') ≠ "" →
     get_session redis' user_id = json_loads (json_dumps (JDict members')))
  ∧ ∀ user_id', user_id' ≠ user_id →
      get_session redis' user_id' = get_session redis user_id'.
Proof.
  rewrite append_to_session_unfold. intros Hrun Hstored Hsession Hget.
  rewrite Hstored in Hrun. simpl in Hrun.
  rewrite Hsession in Hrun. unfold append_message in Hrun. rewrite Hget in Hrun.
  simpl in Hrun. apply setex_Some in Hrun as [Httl ->].
  cbv zeta. split_and!; try done.
  - apply dict_get_set_eq.
  - intros key Hkey. by apply dict_get_set_ne.
  - rewrite dict_keys_set, decide_True; [done|].
    destruct (decide ("messages" ∈ dict_keys members)) as [|Hout]; [done|].
    apply dict_get_None in Hout. congruence.
  - intros Hne. rewrite get_session_lookup, lookup_insert_eq.
    by apply String.eqb_neq in Hne as ->.
  - intros user_id' Hne. rewrite !get_session_lookup.
    rewrite lookup_insert_ne; [done|]. by intros ?%key_inj.
Qed.

(** The writers of sessions change one key, that of the user. *)
Lemma session_writers_frame redis user_id session_data message ttl redis' key :
  set_session ttls redis user_id session_data ttl = Some redis'
  ∨ append_to_session ttls redis user_id message ttl = Some redis'
  ∨ clear_session redis user_id = redis' →
  key ≠ "session:" +:+ user_id →
  redis' !! key = redis !! key.
Proof.
  intros [Hset|[Happend|<-]] Hkey.
  - apply setex_Some in Hset as [_ ->]. by apply lookup_insert_ne.
  - rewrite append_to_session_unfold in Happend.
    destruct (get_session redis user_id) as [stored|]; [|done]. simpl in Happend.
    destruct (append_message _ message) as [session'|]; [|done]. simpl in Happend.
    apply setex_Some in Happend as [_ ->]. by apply lookup_insert_ne.
  - by apply lookup_delete_ne.
Qed.

(** X15: the kinds of entries do not interfere.  Storing, extending
    or clearing the session of a user changes no cached response, no
    cached embedding, no product and no session of another user; and
    caching a response, the one write of the pipeline, changes no session,
    no product and no embedding. *)
Theorem cache_kinds_are_separate redis user_id session_data message ttl redis' :
  (set_session ttls redis user_id session_data ttl = Some redis'
   ∨ append_to_session ttls redis user_id message ttl = Some redis'
   ∨ clear_session redis user_id = redis' →
   (∀ query, get_cached_response redis' query = get_cached_response redis query)
   ∧ (∀ query, get_cached_embedding redis' query = get_cached_embedding redis query)
   ∧ (∀ product_id, get_product redis' product_id = get_product redis product_id)
   ∧ (∀ user_id', user_id' ≠ user_id →
        get_session redis' user_id' = get_session redis user_id'))
  ∧ ∀ query response expiry cached,
      set_cached_response ttls redis query response expiry = Some cached →
      (∀ user_id', get_session cached user_id' = get_session redis user_id')
      ∧ (∀ product_id, get_product cached product_id = get_product redis product_id)
      ∧ (∀ query', get_cached_embedding cached query'
                   = get_cached_embedding redis query').
Proof.
  split.
  - intros Hwrite.
    pose proof (λ key, session_writers_frame _ _ _ _ _ _ key Hwrite) as Hframe.
    split_and!.
    + intros query. unfold get_cached_response. by apply Hframe.
    + intros query. rewrite !get_cached_embedding_lookup. by rewrite Hframe.
    + intros product_id. rewrite !get_product_lookup. by rewrite Hframe.
    + intros user_id' Hne. rewrite !get_session_lookup.
      rewrite Hframe; [done|]. by intros ?%key_inj.
  - intros query response expiry cached. unfold set_cached_response.
    intros [_ ->]%setex_Some. split_and!.
    + intros user_id'. rewrite !get_session_lookup. by rewrite lookup_insert_ne.
    + intros product_id. rewrite !get_product_lookup. by rewrite lookup_insert_ne.
    + intros query'. rewrite !get_cached_embedding_lookup. by rewrite lookup_insert_ne.
Qed.

(** X16: after [clear_session] the user has no session, the other
    users have theirs, and the next [append_to_session] of the user
    starts a new session that holds the one message. *)
Theorem clear_session_starts_over redis user_id message ttl :
  get_session (clear_session redis user_id) user_id = Some JNull
  ∧ (∀ user_id', user_id' ≠ user_id →
       get_session (clear_session redis user_id) user_id'
       = get_session redis user_id')
  ∧ (0 < or_default ttl (CacheTTL.CACHE_SESSION_TTL ttls) →
     append_to_session ttls (clear_session redis user_id) user_id message ttl
     = Some (<["session:" +:+ user_id
               := json_dumps (JDict [("messages", JList [message])])]> redis)).
Proof.
  assert (Hgone : get_session (clear_session redis user_id) user_id = Some JNull).
  { rewrite get_session_lookup. unfold clear_session. by rewrite lookup_delete_eq. }
  split_and!; [done| |].
  - intros user_id' Hne. rewrite !get_session_lookup. unfold clear_session.
    rewrite lookup_delete_ne; [done|]. by intros ?%key_inj.
  - intros Httl. rewrite append_to_session_unfold, Hgone. simpl.
    unfold set_session, setex, clear_session.
    destruct (Z.ltb_spec 0 (or_default ttl (CacheTTL.CACHE_SESSION_TTL ttls)));
      [|lia].
    by rewrite insert_delete_eq.
Qed.

End WithStore.

Lemma cached_response_round_trip_witness :
  let redis' := <["response:" +:+ Example.price_query := "3 روز"]> Example.sessions in
  set_cached_response CacheTTL.defaults Example.sessions Example.price_query "3 روز"
    (Some 60)
  = Some redis'
  ∧ get_cached_response redis' Example.price_query = Some "3 روز"
  ∧ get_cached_response redis' Example.cached_query = Some "2 روز".
Proof.
  intros redis'.
  assert (Hset : set_cached_response CacheTTL.defaults Example.sessions
                   Example.price_query "3 روز" (Some 60) = Some redis')
    by (apply (bool_decide_unpack _); vm_compute; exact I).
  split; [exact Hset|].
  destruct (cached_response_round_trip CacheTTL.defaults Example.sessions
              Example.price_query "3 روز" (Some 60)) as [_ Hget].
  split; rewrite (Hget redis' Hset); vm_compute; reflexivity.
Defined.

Lemma set_product_get_product_witness :
  let redis' := <["product:P1" := json_dumps Example.galaxy_data]> ∅ in
  set_product CacheTTL.defaults ∅ "P1" Example.galaxy_data None = Some redis'
  ∧ get_product redis' "P1" = Some Example.galaxy_data.
Proof.
  intros redis'.
  assert (Hset : set_product CacheTTL.defaults ∅ "P1" Example.galaxy_data None
                 = Some redis') by (apply (bool_decide_unpack _); vm_compute; exact I).
  split; [exact Hset|].
  destruct (set_product_get_product CacheTTL.defaults ∅ "P1" Example.galaxy_data None)
    as [_ Hget].
  destruct (Hget redis' Hset) as [Hsame _]. rewrite Hsame.
  vm_compute. reflexivity.
Defined.

Lemma cached_embedding_round_trip_witness :
  let embedding := JList [JInt 1; JInt 0; JInt (-1)] in
  let redis' := <["embedding:" +:+ Example.price_query := json_dumps embedding]> ∅ in
  set_cached_embedding CacheTTL.defaults ∅ Example.price_query embedding (Some 60)
  = Some redis'
  ∧ get_cached_embedding redis' Example.price_query = Some embedding.
Proof.
  intros embedding redis'.
  assert (Hset : set_cached_embedding CacheTTL.defaults ∅ Example.price_query
                   embedding (Some 60) = Some redis')
    by (apply (bool_decide_unpack _); vm_compute; exact I).
  split; [exact Hset|].
  rewrite (cached_embedding_round_trip CacheTTL.defaults ∅ Example.price_query
             embedding (Some 60) redis' Example.price_query Hset).
  vm_compute. reflexivity.
Defined.

Lemma append_to_session_succeeds_iff_witness :
  is_Some (append_to_session CacheTTL.defaults Example.sessions "u1" Example.reply None).
Proof.
  apply (append_to_session_succeeds_iff CacheTTL.defaults Example.sessions "u1"
           Example.reply None).
  exists Example.one_message,
    [("started", JStr "2024-03-20"); ("messages", JList [Example.question])],
    [Example.question].
  split_and!; vm_compute; reflexivity.
Defined.

Lemma append_to_session_appends_witness :
  let session' :=
    JDict [("started", JStr "2024-03-20");
           ("messages", JList [Example.question; Example.reply])] in
  let redis' := <["session:u1" := json_dumps session']> Example.sessions in
  append_to_session CacheTTL.defaults Example.sessions "u1" Example.reply None
  = Some redis'
  ∧ get_session redis' "u1" = Some session'.
Proof.
  intros session' redis'.
  assert (Hrun : append_to_session CacheTTL.defaults Example.sessions "u1"
                   Example.reply None = Some redis')
    by (apply (bool_decide_unpack _); vm_compute; exact I).
  split; [exact Hrun|].
  destruct (append_to_session_appends CacheTTL.defaults Example.sessions "u1"
              Example.reply None redis' Example.one_message
              [("started", JStr "2024-03-20"); ("messages", JList [Example.question])]
              [Example.question] Hrun)
    as (_ & _ & _ & _ & Hread & _); [vm_compute; reflexivity..|].
  rewrite Hread; [vm_compute; reflexivity|].
  apply String.eqb_neq. vm_compute. reflexivity.
Defined.

Lemma cache_kinds_are_separate_witness :
  let session' :=
    JDict [("started", JStr "2024-03-20");
           ("messages", JList [Example.question; Example.reply])] in
  let redis' := <["session:u1" := json_dumps session']> Example.sessions in
  get_cached_response redis' Example.cached_query = Some "2 روز".
Proof.
  intros session' redis'.
  assert (Hrun : append_to_session CacheTTL.defaults Example.sessions "u1"
                   Example.reply None = Some redis')
    by (apply (bool_decide_unpack _); vm_compute; exact I).
  destruct (cache_kinds_are_separate CacheTTL.defaults Example.sessions "u1" JNull
              Example.reply None redis') as [Hsession _].
  destruct Hsession as [Hresponse _]; [right; left; exact Hrun|].
  rewrite Hresponse. vm_compute. reflexivity.
Defined.

Lemma clear_session_starts_over_witness :
  append_to_session CacheTTL.defaults (clear_session Example.sessions "u1") "u1"
    Example.reply None
  = Some (<["session:u1" := json_dumps (JDict [("messages", JList [Example.reply])])]>
            Example.sessions).
Proof.
  apply (clear_session_starts_over CacheTTL.defaults Example.sessions "u1"
           Example.reply None).
  reflexivity.
Defined.

End CacheFacts.

(* ===================================================================== *)
(** * Runs of the pipeline *)
(* ===================================================================== *)

Module RunFacts.
Import Py PyFacts RAGPipeline PipelineFacts RerankOrderFacts.

Section WithEnvironment.
Context `{PyRuntime} `{Services} (settings : Settings.t) (ttls : CacheTTL.t).

(** Creating the document objects leaves the cache alone. *)
Lemma allocate_cache docs w :
  World.cache (allocate docs w).2 = World.cache w.
Proof.
  revert w. induction docs as [|d docs IH]; intros w; simpl; [done|].
  set (w1 := {| World.cache := World.cache w |}).
  specialize (IH w1). destruct (allocate docs w1) as [ls w2]. by simpl in *.
Qed.

(** What is stored for a query is what a lookup of it returns, and
    the other keys are as before. *)
Lemma get_set_cached_response redis query response ttl redis' :
  CacheService.set_cached_response ttls redis query response ttl = Some redis' →
  CacheService.get_cached_response redis' query = Some response.
Proof.
  unfold CacheService.set_cached_response, CacheService.setex.
  destruct (0 <? _); [|done]. intros [= <-]. apply lookup_insert_eq.
Qed.

Lemma set_cached_response_other redis query response ttl redis' key :
  CacheService.set_cached_response ttls redis query response ttl = Some redis' →
  key ≠ "response:" +:+ CacheService.hash_query query →
  redis' !! key = redis !! key.
Proof.
  unfold CacheService.set_cached_response, CacheService.setex.
  destruct (0 <? _); [|done]. intros [= <-] Hkey. by apply lookup_insert_ne.
Qed.

(** The write of [cache_response] returns exactly when the configured
    expiry time of responses is positive. *)
Lemma set_cached_response_returns redis query response :
  0 < CacheTTL.CACHE_RESPONSE_TTL ttls →
  is_Some (CacheService.set_cached_response ttls redis query response None).
Proof.
  intros Httl. rewrite set_cached_response_default.
  by destruct (Z.ltb_spec 0 (CacheTTL.CACHE_RESPONSE_TTL ttls)); [|lia].
Qed.

(** The references of the new objects are the next free ones, in
    order; each holds its document, and the objects below them are as
    they were. *)
Lemma allocate_spec docs w :
  (allocate docs w).1 = seq (World.next_loc w) (length docs)
  ∧ (∀ (i : nat) d, docs !! i = Some d →
       World.objects (allocate docs w).2 !! (World.next_loc w + i)%nat = Some d)
  ∧ (∀ l, (l < World.next_loc w)%nat →
       World.objects (allocate docs w).2 !! l = World.objects w !! l)
  ∧ World.next_loc (allocate docs w).2 = (World.next_loc w + length docs)%nat.
Proof.
  revert w. induction docs as [|d docs IH]; intros w; simpl.
  { split_and!; [done|done|done|lia]. }
  set (w1 := {| World.cache := World.cache w |}).
  destruct (IH w1) as (Hlocs & Hnew & Hold & Hnext).
  destruct (allocate docs w1) as [ls w2]. simpl in *. split_and!.
  - by rewrite Hlocs.
  - intros [|i] d' Hi; simpl in Hi.
    + injection Hi as <-. rewrite Nat.add_0_r, Hold by lia.
      apply lookup_insert_eq.
    + rewrite <- (Hnew i d' Hi). f_equal. lia.
  - intros l Hl. rewrite Hold by lia. apply lookup_insert_ne. lia.
  - lia.
Qed.

Lemma allocate_length docs w : length (allocate docs w).1 = length docs.
Proof.
  revert w. induction docs as [|d docs IH]; intros w; simpl; [done|].
  set (w1 := {| World.cache := World.cache w |}).
  specialize (IH w1). destruct (allocate docs w1) as [ls w2]. simpl in *.
  by rewrite IH.
Qed.

(** The lengths of what the retriever and the reranker return, for
    limits that are counts. *)
Lemma retrieve_length query intent slots :
  0 ≤ Settings.RETRIEVAL_TOP_K settings →
  Z.of_nat (length (MultiQueryRetriever.retrieve settings query intent slots))
  ≤ Settings.RETRIEVAL_TOP_K settings.
Proof.
  intros Hk. unfold MultiQueryRetriever.retrieve, MultiQueryRetriever.search.
  rewrite length_fmap. unfold enumerate. rewrite enumerate_from_length.
  by apply slice_to_length.
Qed.

Lemma rerank_length query documents h :
  0 ≤ Settings.RERANK_TOP_K settings →
  Z.of_nat (length (RerankerService.rerank settings query documents None h).1)
  ≤ Settings.RERANK_TOP_K settings.
Proof.
  intros Hk. destruct documents as [|doc documents]; [done|].
  by apply slice_to_length.
Qed.

Lemma rerank_subseteq query documents top_k h :
  (RerankerService.rerank settings query documents top_k h).1 ⊆ documents.
Proof.
  destruct documents as [|doc documents]; [done|].
  intros d Hin%slice_to_elem_of. by rewrite sorted_desc_perm in Hin.
Qed.

Lemma truthy_str_None : truthy_str None = false.
Proof. done. Qed.

#[local] Opaque IntentDetector.parse_query MultiQueryRetriever.retrieve
  RerankerService.rerank truthy_str PersianPreprocessor.preprocess allocate
  CacheService.set_cached_response CacheService.get_cached_response.

Ltac run_node_by tac :=
  erewrite exec_node;
  [ | cbn [node_fn];
      unfold check_cache, preprocess, detect_intent, retrieve, rerank, generate,
        cache_response;
      simpl; tac; reflexivity
    | first [rewrite route_check_cache | rewrite route_detect_intent | idtac];
      simpl; reflexivity ].

Ltac run_node := run_node_by idtac.

(** The run of a query the cache does not answer, in full. *)
Lemma run_cache_miss_result query user_id session_id w :
  truthy_str (CacheService.get_cached_response (World.cache w) query) = false →
  0 < CacheTTL.CACHE_RESPONSE_TTL ttls →
  let normalized := PersianPreprocessor.preprocess query in
  let parsed := IntentDetector.parse_query normalized query in
  let detected := ParsedQuery.intent parsed in
  let found :=
    allocate (MultiQueryRetriever.retrieve settings normalized (Some detected)
                (Some (ParsedQuery.slots parsed))) w in
  let ranked :=
    match found.1 with
    | [] => ([], World.objects found.2)
    | _ => RerankerService.rerank settings normalized found.1 None
             (World.objects found.2)
    end in
  ∃ trace w' state' response,
    run settings ttls query user_id session_id w = Finished trace w' state'
    ∧ RAGState.from_cache state' = false
    ∧ RAGState.intent state' = Some detected
    ∧ RAGState.final_response state' = Some response
    ∧ RAGState.slots state' = Some (ParsedQuery.slots parsed)
    ∧ CacheService.set_cached_response ttls (World.cache w) query response None
      = Some (World.cache w')
    ∧ if decide (detected = GREETING) then
        trace = [n_check_cache; n_preprocess; n_detect_intent;
                 n_generate; n_cache_response]
        ∧ RAGState.retrieved_docs state' = None
        ∧ RAGState.reranked_docs state' = None
        ∧ World.objects w' = World.objects w
        ∧ World.next_loc w' = World.next_loc w
        ∧ response = generator_generate query detected []
      else
        trace = [n_check_cache; n_preprocess; n_detect_intent; n_retrieve;
                 n_rerank; n_generate; n_cache_response]
        ∧ RAGState.retrieved_docs state' = Some found.1
        ∧ RAGState.reranked_docs state' = Some ranked.1
        ∧ World.objects w' = ranked.2
        ∧ World.next_loc w' = World.next_loc found.2
        ∧ response
          = generator_generate query detected
              (omap (λ doc, ranked.2 !! doc) ranked.1).
Proof.
  intros Hmiss Httl normalized parsed detected found ranked. unfold run, entry_point.
  run_node_by ltac:(rewrite Hmiss).
  run_node. run_node. fold normalized parsed detected.
  destruct (decide (detected = GREETING)) as [Heq|Hne].
  - rewrite decide_True by by rewrite Heq.
    run_node. erewrite exec_cache_response by reflexivity. simpl.
    destruct (set_cached_response_returns (World.cache w) query
                (generator_generate query detected []) Httl) as [cache Hset].
    rewrite Hset. do 4 eexists. split_and!; done.
  - rewrite decide_False by congruence.
    pose proof (allocate_cache
                  (MultiQueryRetriever.retrieve settings normalized (Some detected)
                     (Some (ParsedQuery.slots parsed))) w) as Hcache.
    fold found in Hcache. unfold ranked. clear ranked.
    destruct found as [retrieved w1] eqn:Halloc. simpl in Hcache. cbn [fst snd].
    unfold found in Halloc. clear found.
    run_node_by ltac:(fold normalized parsed detected; rewrite Halloc).
    destruct retrieved as [|doc retrieved].
    + run_node. run_node. erewrite exec_cache_response by reflexivity. simpl.
      rewrite Hcache.
      destruct (set_cached_response_returns (World.cache w) query
                  (generator_generate query detected []) Httl) as [cache Hset].
      rewrite Hset. do 4 eexists. split_and!; done.
    + destruct (RerankerService.rerank settings normalized
                  (doc :: retrieved) None (World.objects w1))
        as [reranked objects] eqn:Hrerank.
      run_node_by ltac:(fold normalized; rewrite Hrerank).
      run_node. erewrite exec_cache_response by reflexivity. simpl.
      rewrite Hcache.
      destruct (set_cached_response_returns (World.cache w) query
                  (generator_generate query detected
                     (omap (λ doc, objects !! doc) reranked)) Httl) as [cache Hset].
      rewrite Hset. do 4 eexists. split_and!; done.
Qed.


(** The run of a query the cache answers, in full. *)
Lemma run_cache_hit_result query user_id session_id w :
  truthy_str (CacheService.get_cached_response (World.cache w) query) = true →
  ∃ state',
    run settings ttls query user_id session_id w = Finished [n_check_cache] w state'
    ∧ RAGState.from_cache state' = true
    ∧ RAGState.intent state' = None
    ∧ RAGState.retrieved_docs state' = None
    ∧ RAGState.reranked_docs state' = None
    ∧ RAGState.slots state' = None.
Proof.
  intros Hhit. unfold run, entry_point.
  run_node_by ltac:(rewrite Hhit). simpl. by eexists.
Qed.

(** A run that returns without the answer of the cache has written
    its response, so the expiry time of responses is positive. *)
Lemma run_finished_expiry query user_id session_id w trace w' state' :
  run settings ttls query user_id session_id w = Finished trace w' state' →
  truthy_str (CacheService.get_cached_response (World.cache w) query) = false →
  0 < CacheTTL.CACHE_RESPONSE_TTL ttls.
Proof.
  intros Hrun Hlookup.
  pose proof (run_cache_miss settings ttls query user_id session_id w Hlookup) as Hmiss.
  cbv zeta in Hmiss.
  destruct (Z.ltb_spec 0 (CacheTTL.CACHE_RESPONSE_TTL ttls)); [done|].
  by rewrite Hrun in Hmiss.
Qed.

(** Every run returns when the expiry time of responses is positive. *)
Lemma run_finishes query user_id session_id w :
  0 < CacheTTL.CACHE_RESPONSE_TTL ttls →
  ∃ trace w' state',
    run settings ttls query user_id session_id w = Finished trace w' state'.
Proof.
  intros Httl.
  destruct (truthy_str (CacheService.get_cached_response (World.cache w) query))
    eqn:Hlookup.
  - destruct (run_cache_hit_result query user_id session_id w Hlookup)
      as (state' & Hrun & _).
    by do 3 eexists.
  - destruct (run_cache_miss_result query user_id session_id w Hlookup Httl)
      as (trace & w' & state' & response & Hrun & _).
    by do 3 eexists.
Qed.

(** The cache after a run, and what a run found there before. *)
Lemma run_cache query user_id session_id w trace w' state' :
  run settings ttls query user_id session_id w = Finished trace w' state' →
  ∃ response,
    RAGState.final_response state' = Some response
    ∧ (if RAGState.from_cache state' then
         w' = w
         ∧ CacheService.get_cached_response (World.cache w) query = Some response
         ∧ response ≠ ""
       else
         CacheService.set_cached_response ttls (World.cache w) query response None
         = Some (World.cache w')).
Proof.
  intros Hrun.
  destruct (truthy_str (CacheService.get_cached_response (World.cache w) query))
    eqn:Hlookup.
  - destruct (run_cache_hit settings ttls query user_id session_id w Hlookup)
      as (state1 & Hrun1 & Hflag & Hfinal).
    rewrite Hrun in Hrun1. injection Hrun1 as -> -> <-.
    rewrite Hflag, Hfinal.
    destruct (CacheService.get_cached_response _ _) as [response|] eqn:Hget.
    + exists response. split_and!; [done..|]. by apply truthy_str_Some.
    + by rewrite truthy_str_None in Hlookup.
  - destruct (run_cache_miss_result query user_id session_id w Hlookup
                (run_finished_expiry _ _ _ _ _ _ _ Hrun Hlookup))
      as (trace1 & w1 & state1 & response & Hrun1 & Hflag & _ & Hfinal & _ & Hcache & _).
    rewrite Hrun in Hrun1. injection Hrun1 as -> -> ->.
    exists response. by rewrite Hflag.
Qed.

(** X17: after a run the cache holds the final response under the key
    of the query, and no other key of the cache has changed: a run
    writes at most one entry, never deletes one, and a run the cache
    answers writes nothing at all. *)
Theorem run_writes_one_cache_entry query user_id session_id w trace w' state' :
  run settings ttls query user_id session_id w = Finished trace w' state' →
  CacheService.get_cached_response (World.cache w') query
  = RAGState.final_response state'
  ∧ (∀ key, key ≠ "response:" +:+ CacheService.hash_query query →
       World.cache w' !! key = World.cache w !! key)
  ∧ (RAGState.from_cache state' = true → w' = w).
Proof.
  intros Hrun.
  destruct (run_cache _ _ _ _ _ _ _ Hrun) as (response & Hfinal & Hcases).
  rewrite Hfinal.
  destruct (RAGState.from_cache state').
  - destruct Hcases as (-> & Hget & _). by split_and!.
  - split_and!; [|intros key Hkey|done].
    + by eapply get_set_cached_response.
    + by eapply set_cached_response_other.
Qed.

(** X18: the answer of a run is what the next run of the same query
    returns from the cache, whoever asks: if the final response is not
    empty, a run of the same query in the world the first run left ends
    after [check_cache] with that response, and changes nothing. *)
Theorem run_again_answers_from_cache query user_id session_id w trace w' state'
    response user_id' session_id' :
  run settings ttls query user_id session_id w = Finished trace w' state' →
  RAGState.final_response state' = Some response →
  response ≠ "" →
  ∃ state'',
    run settings ttls query user_id' session_id' w' = Finished [n_check_cache] w' state''
    ∧ RAGState.from_cache state'' = true
    ∧ RAGState.final_response state'' = Some response.
Proof.
  intros Hrun Hfinal Hne.
  destruct (run_cache _ _ _ _ _ _ _ Hrun) as (response' & Hfinal' & Hcases).
  rewrite Hfinal in Hfinal'. injection Hfinal' as <-.
  assert (Hget : CacheService.get_cached_response (World.cache w') query
                 = Some response).
  { destruct (RAGState.from_cache state').
    - by destruct Hcases as (-> & Hget & _).
    - by eapply get_set_cached_response. }
  destruct (run_cache_hit settings ttls query user_id' session_id' w')
    as (state2 & Hrun2 & Hflag & Hfinal2).
  { rewrite Hget. by apply truthy_str_Some. }
  exists state2. by rewrite Hfinal2, Hget.
Qed.


(** X19: a run that detects a greeting generates its answer from the
    query alone: the generator is called with an empty list of
    documents, the state holds neither retrieved nor reranked documents,
    and no document object has been created or changed. *)
Theorem greeting_generates_without_documents query user_id session_id w
    trace w' state' :
  run settings ttls query user_id session_id w = Finished trace w' state' →
  RAGState.intent state' = Some GREETING →
  RAGState.retrieved_docs state' = None
  ∧ RAGState.reranked_docs state' = None
  ∧ World.objects w' = World.objects w
  ∧ RAGState.final_response state' = Some (generator_generate query GREETING []).
Proof.
  intros Hrun Hintent.
  destruct (truthy_str (CacheService.get_cached_response (World.cache w) query))
    eqn:Hlookup.
  - destruct (run_cache_hit_result query user_id session_id w Hlookup)
      as (state1 & Hrun1 & _ & Hnone & _).
    rewrite Hrun in Hrun1. injection Hrun1 as _ _ <-. congruence.
  - destruct (run_cache_miss_result query user_id session_id w Hlookup
                (run_finished_expiry _ _ _ _ _ _ _ Hrun Hlookup))
      as (trace1 & w1 & state1 & response & Hrun1 & _ & Hdetected & Hfinal & _ & _ & Hcases).
    rewrite Hrun in Hrun1. injection Hrun1 as -> -> ->.
    rewrite Hintent in Hdetected. injection Hdetected as Hdetected.
    rewrite <- Hdetected in Hcases. rewrite decide_True in Hcases by done.
    destruct Hcases as (_ & ? & ? & ? & _ & ->). by rewrite Hfinal.
Qed.

(** X20: when the two limits of the settings are counts, the state a
    run ends in holds at most [RETRIEVAL_TOP_K] retrieved documents and
    at most [RERANK_TOP_K] reranked ones, and every reranked document is
    one of the retrieved ones. *)
Theorem run_document_bounds query user_id session_id w trace w' state' :
  0 ≤ Settings.RETRIEVAL_TOP_K settings →
  0 ≤ Settings.RERANK_TOP_K settings →
  run settings ttls query user_id session_id w = Finished trace w' state' →
  let retrieved := default [] (RAGState.retrieved_docs state') in
  let reranked := default [] (RAGState.reranked_docs state') in
  Z.of_nat (length retrieved) ≤ Settings.RETRIEVAL_TOP_K settings
  ∧ Z.of_nat (length reranked) ≤ Settings.RERANK_TOP_K settings
  ∧ reranked ⊆ retrieved.
Proof.
  intros Hn Hm Hrun.
  destruct (truthy_str (CacheService.get_cached_response (World.cache w) query))
    eqn:Hlookup.
  - destruct (run_cache_hit_result query user_id session_id w Hlookup)
      as (state1 & Hrun1 & _ & _ & Hretrieved & Hreranked & _).
    rewrite Hrun in Hrun1. injection Hrun1 as _ _ <-.
    rewrite Hretrieved, Hreranked. simpl. by split_and!.
  - destruct (run_cache_miss_result query user_id session_id w Hlookup
                (run_finished_expiry _ _ _ _ _ _ _ Hrun Hlookup))
      as (trace1 & w1 & state1 & response & Hrun1 & _ & _ & _ & _ & _ & Hcases).
    rewrite Hrun in Hrun1. injection Hrun1 as -> -> ->.
    destruct (decide (_ = GREETING)).
    + destruct Hcases as (_ & -> & -> & _). simpl. by split_and!.
    + destruct Hcases as (_ & -> & -> & _). simpl.
      set (found := allocate _ w).
      split_and!.
      * unfold found. rewrite allocate_length. by apply retrieve_length.
      * destruct found.1 as [|doc docs]; [simpl; lia|]. by apply rerank_length.
      * destruct found.1 as [|doc docs] eqn:Hfound; [done|]. apply rerank_subseteq.
Qed.


Lemma world_eq (w1 w2 : World.t) :
  World.cache w1 = World.cache w2 → World.objects w1 = World.objects w2 →
  World.next_loc w1 = World.next_loc w2 → w1 = w2.
Proof. destruct w1, w2. simpl. by intros -> -> ->. Qed.

(** X21: the user id and the session id have no influence on a run:
    the same query in the same world, asked by anyone in any session,
    runs through the same nodes, leaves the same world and ends with the
    same response, intent, slots and documents. *)
Theorem run_ignores_user_and_session query user_id session_id user_id' session_id'
    w trace w' state' :
  run settings ttls query user_id session_id w = Finished trace w' state' →
  ∃ state'',
    run settings ttls query user_id' session_id' w = Finished trace w' state''
    ∧ RAGState.final_response state'' = RAGState.final_response state'
    ∧ RAGState.from_cache state'' = RAGState.from_cache state'
    ∧ RAGState.intent state'' = RAGState.intent state'
    ∧ RAGState.slots state'' = RAGState.slots state'
    ∧ RAGState.retrieved_docs state'' = RAGState.retrieved_docs state'
    ∧ RAGState.reranked_docs state'' = RAGState.reranked_docs state'.
Proof.
  intros Hrun.
  destruct (truthy_str (CacheService.get_cached_response (World.cache w) query))
    eqn:Hlookup.
  - destruct (run_cache_hit settings ttls query user_id session_id w Hlookup)
      as (state1 & Hrun1 & Hflag1 & Hfinal1).
    destruct (run_cache_hit_result query user_id session_id w Hlookup)
      as (state1' & Hrun1' & _ & Hintent1 & Hretrieved1 & Hreranked1 & Hslots1).
    rewrite Hrun1 in Hrun1'. injection Hrun1' as <-.
    rewrite Hrun in Hrun1. injection Hrun1 as -> -> <-.
    destruct (run_cache_hit settings ttls query user_id' session_id' w Hlookup)
      as (state2 & Hrun2 & Hflag2 & Hfinal2).
    destruct (run_cache_hit_result query user_id' session_id' w Hlookup)
      as (state2' & Hrun2' & _ & Hintent2 & Hretrieved2 & Hreranked2 & Hslots2).
    rewrite Hrun2 in Hrun2'. injection Hrun2' as <-.
    exists state2. split_and!; congruence.
  - destruct (run_cache_miss_result query user_id session_id w Hlookup
                (run_finished_expiry _ _ _ _ _ _ _ Hrun Hlookup))
      as (trace1 & w1 & state1 & response1 & Hrun1 & Hflag1 & Hintent1 & Hfinal1
          & Hslots1 & Hcache1 & Hcases1).
    rewrite Hrun in Hrun1. injection Hrun1 as -> -> ->.
    destruct (run_cache_miss_result query user_id' session_id' w Hlookup
                (run_finished_expiry _ _ _ _ _ _ _ Hrun Hlookup))
      as (trace2 & w2 & state2 & response2 & Hrun2 & Hflag2 & Hintent2 & Hfinal2
          & Hslots2 & Hcache2 & Hcases2).
    exists state2.
    destruct (decide (_ = GREETING)).
    + destruct Hcases1 as (-> & Hr1 & Hk1 & Ho1 & Hn1 & ->).
      destruct Hcases2 as (-> & Hr2 & Hk2 & Ho2 & Hn2 & ->).
      rewrite (world_eq w2 w1) in Hrun2 by congruence.
      split_and!; congruence.
    + destruct Hcases1 as (-> & Hr1 & Hk1 & Ho1 & Hn1 & ->).
      destruct Hcases2 as (-> & Hr2 & Hk2 & Ho2 & Hn2 & ->).
      rewrite (world_eq w2 w1) in Hrun2 by congruence.
      split_and!; congruence.
Qed.

(** X22: what the generator is given.  The final response of a run
    the cache does not answer is the generator's answer to the original
    query, the detected intent and the documents read through the
    reranked references of the final state: as many documents as
    references, in descending order of their scores, with the ranks
    1, 2, ..., each carrying the cross-encoder score of the normalized
    query and its text, and each the product of a document the retriever
    returned for the normalized query. *)
Theorem run_generates_from_ranked_documents query user_id session_id w
    trace w' state' :
  run settings ttls query user_id session_id w = Finished trace w' state' →
  RAGState.from_cache state' = false →
  let normalized := PersianPreprocessor.preprocess query in
  let reranked := default [] (RAGState.reranked_docs state') in
  let docs := omap (λ doc, World.objects w' !! doc) reranked in
  ∃ detected,
    RAGState.intent state' = Some detected
    ∧ RAGState.final_response state' = Some (generator_generate query detected docs)
    ∧ length docs = length reranked
    ∧ StronglySorted (desc RetrievedDocument.score) docs
    ∧ RetrievedDocument.rank <$> docs
      = (λ i : nat, Some (Z.of_nat i)) <$> seq 1 (length docs)
    ∧ Forall (λ d,
        RetrievedDocument.score d
        = cross_encoder normalized
            (RerankerService.doc_text (RetrievedDocument.product d))
        ∧ ∃ found,
            found ∈ MultiQueryRetriever.retrieve settings normalized
                      (RAGState.intent state') (RAGState.slots state')
            ∧ RetrievedDocument.product d = RetrievedDocument.product found)
        docs.
Proof.
  intros Hrun Hflag normalized reranked docs.
  destruct (truthy_str (CacheService.get_cached_response (World.cache w) query))
    eqn:Hlookup.
  { destruct (run_cache_hit_result query user_id session_id w Hlookup)
      as (state1 & Hrun1 & Hflag1 & _).
    rewrite Hrun in Hrun1. injection Hrun1 as _ _ <-. congruence. }
  destruct (run_cache_miss_result query user_id session_id w Hlookup
                (run_finished_expiry _ _ _ _ _ _ _ Hrun Hlookup))
    as (trace1 & w1 & state1 & response & Hrun1 & _ & Hintent & Hfinal
        & Hslots & _ & Hcases).
  rewrite Hrun in Hrun1. injection Hrun1 as -> -> ->.
  fold normalized in Hintent, Hslots, Hcases.
  set (parsed := IntentDetector.parse_query normalized query) in *.
  exists (ParsedQuery.intent parsed). split; [done|].
  unfold docs, reranked. clear docs reranked.
  destruct (decide (_ = GREETING)).
  { destruct Hcases as (_ & _ & -> & _ & _ & ->). simpl.
    split_and!; [done|done|constructor|done|constructor]. }
  destruct Hcases as (_ & _ & -> & -> & _ & ->). simpl.
  rewrite Hintent, Hslots.
  set (results := MultiQueryRetriever.retrieve settings normalized _ _).
  destruct (allocate_spec results w) as (Hlocs & Hnew & _).
  set (found := allocate results w) in *.
  split; [done|].
  assert (Hnodup : NoDup found.1) by (rewrite Hlocs; apply NoDup_seq).
  assert (Hstored : ∀ doc, doc ∈ found.1 →
            ∃ d, World.objects found.2 !! doc = Some d ∧ d ∈ results).
  { intros doc Hdoc. rewrite Hlocs in Hdoc. apply elem_of_seq in Hdoc.
    destruct (lookup_lt_is_Some_2 results (doc - World.next_loc w)) as [d Hd]; [lia|].
    exists d. split; [|by eapply list_elem_of_lookup_2].
    rewrite <- (Hnew _ d Hd). f_equal. lia. }
  destruct found.1 as [|doc0 docs0] eqn:Hfound.
  { simpl. split_and!; [done|constructor|done|constructor]. }
  rewrite <- Hfound in *.
  destruct (rerank_documents settings normalized found.1 None (World.objects found.2)
              Hnodup) as (Hlen & Hsorted & Hranks & Hdocs).
  { intros doc Hdoc. destruct (Hstored doc Hdoc) as (d & Hd & _). by eexists. }
  split_and!; [done..|].
  eapply Forall_impl; [exact Hdocs|]. intros d (Hscore & doc & d0 & Hin & Hd0 & Hproduct).
  split; [done|].
  destruct (Hstored doc Hin) as (d1 & Hd1 & Hresults).
  rewrite Hd0 in Hd1. injection Hd1 as <-. by exists d0.
Qed.

End WithEnvironment.

Lemma run_writes_one_cache_entry_witness :
  ∃ trace w' state',
    run Settings.defaults CacheTTL.defaults Example.price_query "u1" None Example.cold
    = Finished trace w' state'
    ∧ CacheService.get_cached_response (World.cache w') Example.price_query
      = RAGState.final_response state'.
Proof.
  destruct (run_finishes Settings.defaults CacheTTL.defaults Example.price_query "u1"
              None Example.cold eq_refl) as (trace & w' & state' & Hrun).
  exists trace, w', state'. split; [exact Hrun|].
  destruct (run_writes_one_cache_entry Settings.defaults CacheTTL.defaults
              _ _ _ _ _ _ _ Hrun) as [Hentry _].
  exact Hentry.
Defined.

Lemma run_again_answers_from_cache_witness :
  ∃ trace w' state' state'',
    run Settings.defaults CacheTTL.defaults Example.price_query "u1" None Example.cold
    = Finished trace w' state'
    ∧ run Settings.defaults CacheTTL.defaults Example.price_query "u2" (Some "s2") w'
      = Finished [n_check_cache] w' state''
    ∧ RAGState.from_cache state'' = true
    ∧ RAGState.final_response state'' = RAGState.final_response state'.
Proof.
  destruct (run_finishes Settings.defaults CacheTTL.defaults Example.price_query "u1"
              None Example.cold eq_refl) as (trace & w' & state' & Hrun).
  assert (Hfinal : match run Settings.defaults CacheTTL.defaults
                           Example.price_query "u1" None Example.cold with
                   | Finished _ _ state => RAGState.final_response state
                   | _ => None
                   end
                   = Some (Example.price_query
                           +:+ ": Galaxy S24, Redmi Note 13, iPhone 15"))
    by (vm_compute; reflexivity).
  rewrite Hrun in Hfinal.
  destruct (run_again_answers_from_cache Settings.defaults CacheTTL.defaults
              _ _ _ _ _ _ _ _ "u2" (Some "s2") Hrun Hfinal)
    as (state'' & Hagain & Hflag & Hsame).
  { apply String.eqb_neq. vm_compute. reflexivity. }
  exists trace, w', state', state''.
  split; [exact Hrun|]. split; [exact Hagain|]. split; [exact Hflag|].
  rewrite Hsame. symmetry. exact Hfinal.
Defined.

Lemma greeting_generates_without_documents_witness :
  ∃ trace w' state',
    run Settings.defaults CacheTTL.defaults Example.greeting_query "u1" None Example.cold
    = Finished trace w' state'
    ∧ RAGState.reranked_docs state' = None
    ∧ RAGState.final_response state'
      = Some (generator_generate Example.greeting_query GREETING []).
Proof.
  destruct (run_finishes Settings.defaults CacheTTL.defaults Example.greeting_query "u1"
              None Example.cold eq_refl) as (trace & w' & state' & Hrun).
  assert (Hintent : match run Settings.defaults CacheTTL.defaults
                            Example.greeting_query "u1" None Example.cold with
                    | Finished _ _ state => RAGState.intent state
                    | _ => None
                    end = Some GREETING) by (vm_compute; reflexivity).
  rewrite Hrun in Hintent.
  destruct (greeting_generates_without_documents Settings.defaults CacheTTL.defaults
              _ _ _ _ _ _ _ Hrun Hintent) as (_ & Hreranked & _ & Hfinal).
  exists trace, w', state'.
  split; [exact Hrun|]. split; [exact Hreranked|exact Hfinal].
Defined.

Lemma run_document_bounds_witness :
  ∃ trace w' state',
    run Settings.defaults CacheTTL.defaults Example.price_query "u1" None Example.cold
    = Finished trace w' state'
    ∧ Z.of_nat (length (default [] (RAGState.retrieved_docs state'))) ≤ 10
    ∧ Z.of_nat (length (default [] (RAGState.reranked_docs state'))) ≤ 3
    ∧ default [] (RAGState.reranked_docs state')
      ⊆ default [] (RAGState.retrieved_docs state').
Proof.
  destruct (run_finishes Settings.defaults CacheTTL.defaults Example.price_query "u1"
              None Example.cold eq_refl) as (trace & w' & state' & Hrun).
  exists trace, w', state'. split; [exact Hrun|].
  apply (run_document_bounds Settings.defaults CacheTTL.defaults _ _ _ _ _ _ _
           ltac:(simpl; lia) ltac:(simpl; lia) Hrun).
Defined.

Lemma run_ignores_user_and_session_witness :
  ∃ trace w' state' state'',
    run Settings.defaults CacheTTL.defaults Example.price_query "u1" None Example.cold
    = Finished trace w' state'
    ∧ run Settings.defaults CacheTTL.defaults Example.price_query "u2" (Some "s2")
          Example.cold
      = Finished trace w' state''
    ∧ RAGState.final_response state'' = RAGState.final_response state'.
Proof.
  destruct (run_finishes Settings.defaults CacheTTL.defaults Example.price_query "u1"
              None Example.cold eq_refl) as (trace & w' & state' & Hrun).
  destruct (run_ignores_user_and_session Settings.defaults CacheTTL.defaults
              _ _ _ "u2" (Some "s2") _ _ _ _ Hrun) as (state'' & Hother & Hsame & _).
  exists trace, w', state', state''.
  split; [exact Hrun|]. split; [exact Hother|exact Hsame].
Defined.

Lemma run_generates_from_ranked_documents_witness :
  ∃ trace w' state',
    run Settings.defaults CacheTTL.defaults Example.price_query "u1" None Example.cold
    = Finished trace w' state'
    ∧ let docs :=
        omap (λ doc, World.objects w' !! doc)
             (default [] (RAGState.reranked_docs state')) in
      RAGState.final_response state'
      = Some (generator_generate Example.price_query PRICE_CHECK docs)
      ∧ StronglySorted (desc RetrievedDocument.score) docs.
Proof.
  destruct (run_finishes Settings.defaults CacheTTL.defaults Example.price_query "u1"
              None Example.cold eq_refl) as (trace & w' & state' & Hrun).
  assert (Hflag : match run Settings.defaults CacheTTL.defaults
                          Example.price_query "u1" None Example.cold with
                  | Finished _ _ state =>
                      (RAGState.from_cache state, RAGState.intent state)
                  | _ => (true, None)
                  end = (false, Some PRICE_CHECK)) by (vm_compute; reflexivity).
  rewrite Hrun in Hflag. injection Hflag as Hflag Hintent.
  destruct (run_generates_from_ranked_documents Settings.defaults CacheTTL.defaults
              _ _ _ _ _ _ _ Hrun Hflag) as (detected & Hdetected & Hfinal & _ & Hsorted & _).
  rewrite Hintent in Hdetected. injection Hdetected as <-.
  exists trace, w', state'. split; [exact Hrun|]. split; [exact Hfinal|exact Hsorted].
Defined.

End RunFacts.
